(** * TattooApp: image-processing pipeline, StarVector front end and design store

    A shallow embedding of
      - src/utils/starVectorProcessor.ts  (class StarVectorProcessor),
      - src/utils/aiImageProcessor.ts     (class AIImageProcessor),
      - src/utils/designManager.ts        (class DesignManager),
    together with the properties of the fallback logic, of the SVG
    validation and of the design store.

    Conventions.  JavaScript strings that the code only passes around
    (URIs, labels, error messages) are [string]s.  Strings that the code
    inspects character by character (SVG text, HTTP response text) are
    lists of UTF-16 code units, [list N].  An [async] method is a
    computation over the state of the world whose outcome is a value, a
    thrown error (a rejected promise) or a promise that never settles. *)

From Stdlib Require Import ZArith NArith QArith String Ascii List Lia Bool DecimalString.
From stdpp Require Import base option list gmap strings sorting.
Import ListNotations.
Open Scope string_scope.
Open Scope list_scope.

(** ** Outcomes and the state/error monad *)

Inductive Outcome (A : Type) : Type :=
| Ok (a : A)              (* normal completion / resolved promise *)
| Throw (message : string) (* exception / rejected promise, with error.message *)
| Pending.                (* a promise that is never settled *)
Arguments Ok {A} a.
Arguments Throw {A} message.
Arguments Pending {A}.

Definition M (S A : Type) : Type := S -> Outcome A * S.

Definition ret {S A} (a : A) : M S A := fun s => (Ok a, s).

Definition bind {S A B} (m : M S A) (k : A -> M S B) : M S B :=
  fun s =>
    match m s with
    | (Ok a, s') => k a s'
    | (Throw e, s') => (Throw e, s')
    | (Pending, s') => (Pending, s')
    end.

Definition throw {S A} (message : string) : M S A := fun s => (Throw message, s).

(** [try { body } catch (error) { handler error.message }]: state changes made
    before the throw are kept, as mutations are in JavaScript. *)
Definition tryCatch {S A} (body : M S A) (handler : string -> M S A) : M S A :=
  fun s =>
    match body s with
    | (Throw e, s') => handler e s'
    | r => r
    end.

Definition gets {S A} (f : S -> A) : M S A := fun s => (Ok (f s), s).
Definition modify {S} (f : S -> S) : M S unit := fun s => (Ok tt, f s).

(** A method body with local mutable variables [L] run inside a caller
    that only sees the world [W]. *)
Definition withLocals {L W A} (init : L) (m : M (L * W) A) : M W A :=
  fun w => let '(o, (_, w')) := m (init, w) in (o, w').

(** A call to a method over the world from a body that has locals. *)
Definition call {L W A} (m : M W A) : M (L * W) A :=
  fun '(l, w) => let '(o, w') := m w in (o, (l, w')).

Declare Scope js_scope.
Delimit Scope js_scope with js.
Notation "x <- m ;; k" := (bind m (fun x => k))
  (at level 100, m at next level, right associativity) : js_scope.
Notation "m ;;; k" := (bind m (fun _ => k))
  (at level 100, right associativity) : js_scope.
Notation "'await' m" := (call m) (at level 10, only parsing) : js_scope.

(** [processingSteps.push(step)] on a body whose locals are the step list. *)
Definition push {W} (step : string) : M (list string * W) unit :=
  modify (fun '(steps, w) => (steps ++ [step], w)).
Definition readSteps {W} : M (list string * W) (list string) := gets fst.

(** JavaScript truthiness of the values the code tests. *)
Definition truthyString (s : string) : bool := negb (String.eqb s "").
Definition truthyOpt (o : option string) : bool :=
  match o with Some s => truthyString s | None => false end.

(** ** Strings as code units, and the regular expressions the code uses *)

Module Js.

(** Code units of an ASCII literal. *)
Definition lit (s : string) : list N := map N_of_ascii (list_ascii_of_string s).

(** The class [\s], which is also what [String.prototype.trim] strips:
    WhiteSpace and LineTerminator of ECMA-262. *)
Definition isWhiteSpace (c : N) : bool :=
  ((9 <=? c) && (c <=? 13) || (c =? 32) || (c =? 160) || (c =? 5760)
   || (8192 <=? c) && (c <=? 8202) || (c =? 8232) || (c =? 8233)
   || (c =? 8239) || (c =? 8287) || (c =? 12288) || (c =? 65279))%N.

(** [[\s\S]] *)
Definition anyChar (c : N) : bool := isWhiteSpace c || negb (isWhiteSpace c).

(** Canonicalize of ECMA-262 for an [/i] pattern without the [u] flag,
    on the ASCII range.  A code unit above 127 never canonicalizes to one
    below 128, so against the ASCII pattern characters used here the
    comparison is exact for every code unit. *)
Definition canonicalize (c : N) : N :=
  if ((97 <=? c) && (c <=? 122))%N then (c - 32)%N else c.

Definition eqChar (p c : N) : bool := (c =? p)%N.
Definition eqCharCI (p c : N) : bool := (canonicalize c =? canonicalize p)%N.

Fixpoint dropWhile {A} (p : A -> bool) (l : list A) : list A :=
  match l with
  | [] => []
  | x :: t => if p x then dropWhile p t else l
  end.

(** [s.trim()] *)
Definition trim (s : list N) : list N :=
  rev (dropWhile isWhiteSpace (rev (dropWhile isWhiteSpace s))).

(** [s.startsWith(p)] *)
Fixpoint startsWith (p s : list N) : bool :=
  match p, s with
  | [], _ => true
  | a :: p', c :: s' => (c =? a)%N && startsWith p' s'
  | _ :: _, [] => false
  end.

(** The same prefix test with letters compared without case. *)
Fixpoint startsWithCI (p s : list N) : bool :=
  match p, s with
  | [], _ => true
  | a :: p', c :: s' => eqCharCI a c && startsWithCI p' s'
  | _ :: _, [] => false
  end.

(** A backtracking matcher anchored at the head of its input: the number
    of code units the match consumes, if there is a match.  Matchers are
    written in continuation style, the continuation being the rest of the
    pattern. *)
Definition matcher : Type := list N -> option nat.

Definition m_done : matcher := fun _ => Some 0.

Definition m_chr (p : N -> bool) (k : matcher) : matcher :=
  fun s =>
    match s with
    | c :: t => if p c then S <$> k t else None
    | [] => None
    end.

Fixpoint m_seq (ps : list (N -> bool)) (k : matcher) : matcher :=
  match ps with
  | [] => k
  | p :: ps' => m_chr p (m_seq ps' k)
  end.

(** [X*] greedy: take one more [X] if the rest can still match, else stop. *)
Fixpoint m_star (p : N -> bool) (k : matcher) (s : list N) : option nat :=
  match s with
  | c :: t =>
      if p c then
        match m_star p k t with
        | Some n => Some (S n)
        | None => k s
        end
      else k s
  | [] => k s
  end.

(** [X*?] lazy: stop as soon as the rest matches. *)
Fixpoint m_star_lazy (p : N -> bool) (k : matcher) (s : list N) : option nat :=
  match k s with
  | Some n => Some n
  | None =>
      match s with
      | c :: t => if p c then S <$> m_star_lazy p k t else None
      | [] => None
      end
  end.

Definition m_plus (p : N -> bool) (k : matcher) : matcher := m_chr p (m_star p k).

(** [s.match(re)] without the [g] flag: the text of the leftmost match. *)
Fixpoint regexMatch (re : matcher) (s : list N) : option (list N) :=
  match re s with
  | Some n => Some (take n s)
  | None =>
      match s with
      | _ :: t => regexMatch re t
      | [] => None
      end
  end.

(** [s.replace(re, replacement)] with the [g] flag.  [skip] counts the code
    units of [s] that an earlier match has already consumed. *)
Fixpoint replaceFrom (re : matcher) (replacement : list N) (skip : nat) (s : list N)
  : list N :=
  match s with
  | [] =>
      match skip, re [] with
      | O, Some _ => replacement
      | _, _ => []
      end
  | c :: t =>
      match skip with
      | S skip' => replaceFrom re replacement skip' t
      | O =>
          match re s with
          | Some (S n) => replacement ++ replaceFrom re replacement n t
          | Some O => replacement ++ c :: replaceFrom re replacement 0 t
          | None => c :: replaceFrom re replacement 0 t
          end
      end
  end.

Definition replaceAll (re : matcher) (replacement : list N) (s : list N) : list N :=
  replaceFrom re replacement 0 s.

(** The four expressions of starVectorProcessor.ts that the model needs. *)

(** [/<svg[\s\S]*<\/svg>/i] (validateAndCleanSVG) *)
Definition reSvgGreedy : matcher :=
  m_seq (map eqCharCI (lit "<svg"))
        (m_star anyChar (m_seq (map eqCharCI (lit "</svg>")) m_done)).

(** [/<svg[\s\S]*?<\/svg>/i] (extractSVGFromResponse) *)
Definition reSvgLazy : matcher :=
  m_seq (map eqCharCI (lit "<svg"))
        (m_star_lazy anyChar (m_seq (map eqCharCI (lit "</svg>")) m_done)).

(** [/\n\s*\n/g] *)
Definition reBlankLines : matcher :=
  m_chr (eqChar 10) (m_star isWhiteSpace (m_chr (eqChar 10) m_done)).

(** [/>\s+</g] *)
Definition reTagGap : matcher :=
  m_chr (eqChar 62) (m_plus isWhiteSpace (m_chr (eqChar 60) m_done)).

End Js.

(** ** SVG text handling of StarVectorProcessor (pure part) *)

Module Svg.
Import Js.

(** starVectorProcessor.ts, validateAndCleanSVG.  The method is [async] but
    awaits nothing: its promise resolves with the cleaned text or rejects
    with the error it throws. *)
Definition validateAndCleanSVG (svgCode : list N) : Outcome (list N) :=
  let cleaned := trim svgCode in
  let extracted :=
    if negb (startsWith (lit "<svg") cleaned) then
      match regexMatch reSvgGreedy cleaned with
      | Some svgMatch => Ok svgMatch
      | None => Throw "Invalid SVG code generated"
      end
    else Ok cleaned in
  match extracted with
  | Ok cleaned =>
      let cleaned := replaceAll reBlankLines (lit (String "010" "")) cleaned in
      let cleaned := replaceAll reTagGap (lit "><") cleaned in
      Ok cleaned
  | Throw e => Throw e
  | Pending => Pending
  end.

(** starVectorProcessor.ts, extractSVGFromResponse *)
Definition extractSVGFromResponse (response : list N) : option (list N) :=
  regexMatch reSvgLazy response.

End Svg.

(** ** designManager.ts *)

Module DesignManager.

(** [createdAt?: Date] holds a [Date] object when the design is built by the
    capture screen ([createdAt: new Date()]) and a string once the design
    has been through JSON. *)
Inductive DateField : Type :=
| DateObject (time : Z)
| DateString (text : string).

(** types/index.ts, interface Design; an optional property is [None] when it
    is absent or [undefined]. *)
Record Design : Type := {
  id : string;
  name : string;
  uri : string;
  category : option string;
  isUserGenerated : option bool;
  originalImageUri : option string;
  createdAt : option DateField;
}.

(** A text held by AsyncStorage, represented by what [JSON.parse] makes of
    it: the text of an array of designs, or a text that JSON.parse rejects
    (the empty text included). *)
Inductive StoredText : Type :=
| JsonDesigns (designs : list Design)
| Unparseable (raw : string).

(** Module-level state of designManager.ts.  [AsyncStorage] is [None] when the
    [require] of the native module threw; otherwise it is the key-value
    store behind the module.  [writes] counts the writes attempted so far. *)
Record State : Type := {
  AsyncStorage : option (gmap string StoredText);
  memoryStorage : list Design;
  writes : nat;
}.

Definition CUSTOM_DESIGNS_KEY : string := "custom_tattoo_designs".

Section Builtins.

(** [Date.prototype.toISOString], on the time value of a valid date. *)
Variable toISOString : Z -> string.
(** Whether the n-th write to AsyncStorage is rejected (quota, disk full).
    Reads resolve with the stored text, or with null for a missing key. *)
Variable writeFails : nat -> bool.

(** What [JSON.parse(JSON.stringify(d))] is for a design: a [Date] is
    serialised through [toJSON] as its ISO string and parsed as a string. *)
Definition jsonImage (d : Design) : Design :=
  {| id := id d; name := name d; uri := uri d; category := category d;
     isUserGenerated := isUserGenerated d;
     originalImageUri := originalImageUri d;
     createdAt :=
       match createdAt d with
       | Some (DateObject t) => Some (DateString (toISOString t))
       | other => other
       end |}.

Definition JSON_stringify (designs : list Design) : StoredText :=
  JsonDesigns (map jsonImage designs).

Definition JSON_parse (text : StoredText) : Outcome (list Design) :=
  match text with
  | JsonDesigns designs => Ok (map jsonImage designs)
  | Unparseable _ => Throw "JSON Parse error"
  end.

(** Truthiness of a stored text: only the empty string is falsy. *)
Definition truthyText (text : StoredText) : bool :=
  match text with
  | JsonDesigns _ => true
  | Unparseable raw => truthyString raw
  end.

Definition getItem (store : gmap string StoredText) (key : string)
  : M State (option StoredText) :=
  ret (store !! key).

Definition attemptWrite (update : gmap string StoredText -> gmap string StoredText)
  : M State unit :=
  fun st =>
    let st' := {| AsyncStorage := AsyncStorage st;
                  memoryStorage := memoryStorage st;
                  writes := S (writes st) |} in
    if writeFails (writes st) then (Throw "AsyncStorage write failed", st')
    else (Ok tt, {| AsyncStorage := update <$> AsyncStorage st;
                    memoryStorage := memoryStorage st;
                    writes := S (writes st) |}).

Definition setItem (key : string) (text : StoredText) : M State unit :=
  attemptWrite (insert key text).

Definition removeItem (key : string) : M State unit :=
  attemptWrite (delete key).

Definition setMemoryStorage (designs : list Design) : M State unit :=
  modify (fun st => {| AsyncStorage := AsyncStorage st;
                       memoryStorage := designs;
                       writes := writes st |}).

Local Open Scope js_scope.

Definition getCustomDesigns : M State (list Design) :=
  tryCatch
    (storage <- gets AsyncStorage ;;
     match storage with
     | Some store =>
         stored <- getItem store CUSTOM_DESIGNS_KEY ;;
         match stored with
         | Some text =>
             if truthyText text then fun st => (JSON_parse text, st) else ret []
         | None => ret []
         end
     | None => gets memoryStorage
     end)
    (fun _ => ret []).

Definition saveCustomDesign (design : Design) : M State unit :=
  tryCatch
    (customDesigns <- getCustomDesigns ;;
     let updatedDesigns := design :: customDesigns in
     storage <- gets AsyncStorage ;;
     match storage with
     | Some _ => setItem CUSTOM_DESIGNS_KEY (JSON_stringify updatedDesigns)
     | None => setMemoryStorage updatedDesigns
     end)
    (fun _ => throw "Failed to save design").

Definition deleteCustomDesign (designId : string) : M State unit :=
  tryCatch
    (customDesigns <- getCustomDesigns ;;
     let updatedDesigns :=
       filter (fun design => id design ≠ designId) customDesigns in
     storage <- gets AsyncStorage ;;
     match storage with
     | Some _ => setItem CUSTOM_DESIGNS_KEY (JSON_stringify updatedDesigns)
     | None => setMemoryStorage updatedDesigns
     end)
    (fun _ => throw "Failed to delete design").

Definition getCustomDesign (designId : string) : M State (option Design) :=
  tryCatch
    (customDesigns <- getCustomDesigns ;;
     ret (find (fun design => bool_decide (id design = designId)) customDesigns))
    (fun _ => ret None).

Definition clearAllCustomDesigns : M State unit :=
  tryCatch
    (storage <- gets AsyncStorage ;;
     match storage with
     | Some _ => removeItem CUSTOM_DESIGNS_KEY
     | None => setMemoryStorage []
     end)
    (fun _ => throw "Failed to clear designs").

(** What getDesignStats returns; [oldestDesign] and [newestDesign] are
    [None] when the property is absent or undefined. *)
Record DesignStats : Type := {
  totalCustomDesigns : nat;
  oldestDesign : option DateField;
  newestDesign : option DateField;
}.

(** [{ totalCustomDesigns: 0 }] *)
Definition noDesignStats : DesignStats :=
  {| totalCustomDesigns := 0; oldestDesign := None; newestDesign := None |}.

(** Truthiness of a [createdAt] that is present: a Date object is truthy, a
    string is unless it is empty. *)
Definition truthyDate (date : DateField) : bool :=
  match date with
  | DateObject _ => true
  | DateString text => truthyString text
  end.

(** [customDesigns.map(design => design.createdAt).filter(date => date)] *)
Definition createdDates (customDesigns : list Design) : list DateField :=
  List.filter truthyDate (omap createdAt customDesigns).

(** [date.getTime()]: a string has no such method. *)
Definition getTime (date : DateField) : Outcome Z :=
  match date with
  | DateObject time => Ok time
  | DateString _ => Throw "TypeError: getTime is not a function"
  end.

Fixpoint getTimes (dates : list DateField) : Outcome (list Z) :=
  match dates with
  | [] => Ok []
  | date :: rest =>
      match getTime date, getTimes rest with
      | Ok time, Ok times => Ok (time :: times)
      | Throw e, _ => Throw e
      | _, Throw e => Throw e
      | _, _ => Pending
      end
  end.

(** [dates.sort((a, b) => a.getTime() - b.getTime())].  An array of fewer
    than two elements is returned without a call of the comparator.  On a
    longer one every element takes part in some comparison, in whatever
    order the engine compares, so the sort throws if one of them is a
    string; otherwise all are Date objects and the result has them in
    ascending order of time. *)
Definition sortByTime (dates : list DateField) : Outcome (list DateField) :=
  match dates with
  | [] | [_] => Ok dates
  | _ =>
      match getTimes dates with
      | Ok times => Ok (map DateObject (merge_sort Z.le times))
      | Throw e => Throw e
      | Pending => Pending
      end
  end.

Definition getDesignStats : M State DesignStats :=
  tryCatch
    (customDesigns <- getCustomDesigns ;;
     if Nat.eqb (length customDesigns) 0 then ret noDesignStats
     else
       let dates := createdDates customDesigns in
       sortedDates <- (fun st => (sortByTime dates, st)) ;;
       ret {| totalCustomDesigns := length customDesigns;
              oldestDesign := head sortedDates;
              newestDesign := last sortedDates |})
    (fun _ => ret noDesignStats).

(** The four operations of the store as data, for comparing the two
    back ends on whole runs. *)
Inductive Operation : Type :=
| OpSave (design : Design)
| OpGet
| OpDelete (designId : string)
| OpClear.

(** What a caller observes of one operation. *)
Inductive Observation : Type :=
| Completed
| Listed (designs : list Design)
| Failed (message : string)
| Stuck.

Definition observe {A} (show : A -> Observation) (o : Outcome A) : Observation :=
  match o with
  | Ok a => show a
  | Throw e => Failed e
  | Pending => Stuck
  end.

Definition perform (op : Operation) (st : State) : Observation * State :=
  match op with
  | OpSave design =>
      let '(o, st') := saveCustomDesign design st in (observe (fun _ => Completed) o, st')
  | OpGet =>
      let '(o, st') := getCustomDesigns st in (observe Listed o, st')
  | OpDelete designId =>
      let '(o, st') := deleteCustomDesign designId st in (observe (fun _ => Completed) o, st')
  | OpClear =>
      let '(o, st') := clearAllCustomDesigns st in (observe (fun _ => Completed) o, st')
  end.

Fixpoint performAll (ops : list Operation) (st : State) : list Observation * State :=
  match ops with
  | [] => ([], st)
  | op :: rest =>
      let '(obs, st') := perform op st in
      let '(more, st'') := performAll rest st' in
      (obs :: more, st'')
  end.

End Builtins.

End DesignManager.

(** ** The platform: expo modules, fetch, and the static state of the classes *)

Module Platform.

(** A promise of a library call: the model lets these resolve or reject. *)
Inductive Result (A : Type) : Type :=
| Resolved (a : A)
| Rejected (message : string).
Arguments Resolved {A} a.
Arguments Rejected {A} message.

(** JavaScript values as they come out of [response.json()]. *)
#[warnings="-register-all"]
Inductive Value : Type :=
| VUndefined
| VNull
| VBool (b : bool)
| VNum (q : Q)
| VStr (s : list N)
| VArr (items : list Value)
| VObj (props : list (string * Value)).

Definition truthy (v : Value) : bool :=
  match v with
  | VUndefined | VNull => false
  | VBool b => b
  | VNum q => negb (Qeq_bool q 0)
  | VStr s => match s with [] => false | _ => true end
  | VArr _ | VObj _ => true
  end.

Fixpoint lookupProp (key : string) (props : list (string * Value)) : Value :=
  match props with
  | [] => VUndefined
  | (k, v) :: rest => if String.eqb k key then v else lookupProp key rest
  end.

(** [v?.key]: undefined on undefined and null, and on values without the
    property. *)
Definition optProp (key : string) (v : Value) : Value :=
  match v with
  | VObj props => lookupProp key props
  | _ => VUndefined
  end.

(** [v?.[0]] *)
Definition optFirst (v : Value) : Value :=
  match v with
  | VArr (x :: _) => x
  | VObj props => lookupProp "0" props
  | VStr (c :: _) => VStr [c]
  | _ => VUndefined
  end.

(** [v.key]: a TypeError on undefined and null. *)
Definition prop (key : string) (v : Value) : Outcome Value :=
  match v with
  | VUndefined | VNull => Throw "TypeError: cannot read properties of undefined"
  | _ => Ok (optProp key v)
  end.

(** expo-image-manipulator *)
Inductive Action : Type :=
| Resize (width : option Z) (height : option Z)
| Crop (originX originY width height : Q).

Inductive SaveFormat : Type := JPEG | PNG.

Record SaveOptions : Type := {
  compress : option Q;
  format : SaveFormat;
}.

(** [{ compress, format }] *)
Definition saveAs (compress : option Q) (format : SaveFormat) : SaveOptions :=
  {| compress := compress; format := format |}.

Record ImageResult : Type := {
  uri : string;
  width : Z;
  height : Z;
}.

(** expo-file-system *)
Inductive Encoding : Type := Base64 | UTF8.

Inductive Payload : Type :=
| CodeUnits (text : list N)
| Base64Data (data : option string).   (* [None]: the value written is undefined *)

(** fetch *)
Inductive RequestBody : Type :=
| NoBody
| FormImage (uri : string)          (* FormData with the image file *)
| JsonBody (json : Value).          (* JSON.stringify(...) *)

Record Request : Type := {
  url : string;
  method : string;
  headers : list (string * option string);
  body : RequestBody;
}.

Record Response : Type := {
  ok : bool;
  status : Z;
  json : Result Value;       (* await response.json() *)
  text : Result (list N);    (* await response.text() *)
  blob : Result string;      (* await response.blob(), an opaque handle *)
}.

(** Methods of the two classes whose entry is recorded in the log. *)
Inductive Method : Type :=
| CheckLocalStarVector | CallLocalStarVector | ImageToSVG
| PrepareImageForStarVector | CallStarVectorAPI | TryTextGenerationAPI
| ProcessWithLocalStarVector | GenerateSVGFromAnalysis | SaveSVGToFile
| ConvertSVGToPNG | CreateTattooImageFallback | CreateSimpleTattooDesign
| ProcessImageToTattooDesign | TraditionalProcessingPipeline
| UltimateFallbackProcessing | PreprocessForAI | RemoveBackgroundAI
| TryRemoveBgAPI | TryClipDropAPI | LocalBackgroundRemoval | SmartCrop
| ConvertToLineArt | ApplyTattooStyling.

#[global] Instance Method_eq_dec : EqDecision Method.
Proof. solve_decision. Defined.

(** What happens during a run, oldest first: every call that leaves the
    program, and every entry into a method (kept for stating which parts of
    the code ran). *)
Inductive Event : Type :=
| Enter (m : Method)
| ManipulateAsync (uri : string) (actions : list Action) (options : SaveOptions)
| ReadAsStringAsync (uri : string) (encoding : Encoding)
| WriteAsStringAsync (path : string) (payload : Payload) (encoding : Encoding)
| DeleteAsync (path : string)
| Fetch (request : Request)
| ReadAsDataURL (blob : string)
| DateNow
| NewHfInference (token : string).

(** The environment of a run.  An answer may depend on everything that
    happened before the call. *)
Record Env : Type := {
  (* whether each [require] at module load succeeds *)
  requireImageManipulator : bool;
  requireFileSystem : bool;
  requireHfInference : bool;
  (* FileSystem.documentDirectory *)
  documentDirectory : string;
  (* AI_CONFIG.huggingFace: process.env.HUGGINGFACE_API_KEY || '' *)
  configHuggingFace : string;
  manipulateAsync :
    list Event -> string -> list Action -> SaveOptions -> Result ImageResult;
  readAsStringAsync : list Event -> string -> Encoding -> Result string;
  writeAsStringAsync : list Event -> string -> Payload -> Encoding -> Result unit;
  deleteAsync : list Event -> string -> Result unit;
  fetch : list Event -> Request -> Result Response;
  (* reader.result when onloadend fires; [None] is null (the read failed) *)
  readAsDataURL : list Event -> string -> option string;
  dateNow : list Event -> Z;
  (* whether [new HfInference(token)] throws *)
  newHfInference : list Event -> string -> Result unit;
  (* the SVG text that the template of generateSVGFromAnalysis yields for a
     width and a height; the template formats floating-point numbers *)
  svgTemplate : Z -> Z -> list N;
}.

(** Static fields of StarVectorProcessor and the AI_SERVICES table of
    aiImageProcessor.ts. *)
Record Statics : Type := {
  hf : option string;        (* the client, identified by its token; null at load *)
  isInitialized : bool;
  cpuModeEnabled : bool;
  codiaKey : option string;
  removeBgKey : option string;
  clipdropKey : option string;
}.

Record World : Type := {
  statics : Statics;
  log : list Event;
}.

Definition initialStatics : Statics :=
  {| hf := None; isInitialized := false; cpuModeEnabled := false;
     codiaKey := None; removeBgKey := None; clipdropKey := None |}.

Definition extend (w : World) (events : list Event) : World :=
  {| statics := statics w; log := log w ++ events |}.

Definition emit (e : Event) : M World unit := modify (fun w => extend w [e]).

Definition enter (m : Method) : M World unit := emit (Enter m).

Definition settle {S A} (r : Result A) : M S A :=
  match r with
  | Resolved a => ret a
  | Rejected message => throw message
  end.

(** A call that leaves the program: it is recorded, and answered from what
    happened before it. *)
Definition external {A} (e : Event) (answer : list Event -> Result A) : M World A :=
  fun w => settle (answer (log w)) (extend w [e]).

(** Reading a property of a module variable that is undefined. *)
Definition moduleAccess {S} (loaded : bool) : M S unit :=
  if loaded then ret tt else throw "TypeError: cannot read properties of undefined".

Definition setStatics (f : Statics -> Statics) : M World unit :=
  modify (fun w => {| statics := f (statics w); log := log w |}).

(** Decimal text of an integer, as template literals render [Date.now()]. *)
Definition showZ (z : Z) : string := NilZero.string_of_int (Z.to_int z).

Section Modules.
Variable env : Env.

(** The module variables after the two [try { require } catch] blocks at
    load: FileSystem is assigned only if the first require did not throw. *)
Definition ImageManipulator : bool := requireImageManipulator env.
Definition FileSystem : bool := requireImageManipulator env && requireFileSystem env.
Definition HfInference : bool := requireHfInference env.

Definition manipulate (uri : string) (actions : list Action) (options : SaveOptions)
  : M World ImageResult :=
  external (ManipulateAsync uri actions options)
           (fun h => manipulateAsync env h uri actions options).

Definition readFile (uri : string) (encoding : Encoding) : M World string :=
  external (ReadAsStringAsync uri encoding) (fun h => readAsStringAsync env h uri encoding).

Definition writeFile (path : string) (payload : Payload) (encoding : Encoding)
  : M World unit :=
  external (WriteAsStringAsync path payload encoding)
           (fun h => writeAsStringAsync env h path payload encoding).

Definition deleteFile (path : string) : M World unit :=
  external (DeleteAsync path) (fun h => deleteAsync env h path).

Definition doFetch (request : Request) : M World Response :=
  external (Fetch request) (fun h => fetch env h request).

Definition now : M World Z :=
  external DateNow (fun h => Resolved (dateNow env h)).

End Modules.

End Platform.

(** ** starVectorProcessor.ts *)

Module StarVectorProcessor.
Import Platform.
Local Open Scope js_scope.

Inductive ModelSize : Type := Model1b | Model8b.

Record StarVectorOptions : Type := {
  model : option ModelSize;
  temperature : option Q;
  maxTokens : option Z;
  useHuggingFace : option bool;
  huggingFaceToken : option string;
  useCPUMode : option bool;
  localModelPath : option string;
}.

Definition noOptions : StarVectorOptions :=
  {| model := None; temperature := None; maxTokens := None;
     useHuggingFace := None; huggingFaceToken := None; useCPUMode := None;
     localModelPath := None |}.

Record StarVectorResult : Type := {
  success : bool;
  svgCode : option (list N);
  svgUri : option string;
  originalImageUri : string;
  processingSteps : list string;
  error : option string;
  resultModel : option string;    (* the property [model] of the result *)
}.

Definition withSteps (r : StarVectorResult) (steps : list string) : StarVectorResult :=
  {| success := success r; svgCode := svgCode r; svgUri := svgUri r;
     originalImageUri := originalImageUri r; processingSteps := steps;
     error := error r; resultModel := resultModel r |}.

(** [options.maxTokens || 2048] and [options.temperature || 0.1] *)
Definition maxTokensOr (options : StarVectorOptions) : Z :=
  match maxTokens options with
  | Some n => if (n =? 0)%Z then 2048%Z else n
  | None => 2048%Z
  end.
Definition temperatureOr (options : StarVectorOptions) : Q :=
  match temperature options with
  | Some t => if Qeq_bool t 0 then 0.1%Q else t
  | None => 0.1%Q
  end.

Definition optString (o : option string) : Value :=
  match o with Some s => VStr (Js.lit s) | None => VUndefined end.

(** [s.includes(sub)] *)
Definition includes (sub s : string) : bool :=
  match String.index 0 sub s with Some _ => true | None => false end.

(** validateBase64Image *)
Definition validateBase64Image (base64 : string) : bool :=
  if negb (truthyString base64) then false
  else
    let hasImageHeader :=
      String.prefix "/9j/" base64 || String.prefix "iVBOR" base64
      || String.prefix "R0lGOD" base64 in
    hasImageHeader && Nat.ltb 100 (String.length base64).

(** extractSVGFromResponse applied to a value of any type: [response.match]
    is a TypeError unless the value is a string. *)
Definition extractSVGFromResponse (response : Value) : Outcome (option (list N)) :=
  match response with
  | VStr s => Ok (Svg.extractSVGFromResponse s)
  | _ => Throw "TypeError: response.match is not a function"
  end.

(** validateAndCleanSVG applied to a value of any type. *)
Definition validateAndCleanSVG (svgCode : Value) : Outcome (list N) :=
  match svgCode with
  | VStr s => Svg.validateAndCleanSVG s
  | _ => Throw "TypeError: svgCode.trim is not a function"
  end.

Definition truthyMatch (o : option (list N)) : bool :=
  match o with Some (_ :: _) => true | _ => false end.

Definition matchValue (o : option (list N)) : Value :=
  match o with Some s => VStr s | None => VNull end.

(** The first occurrence of a literal replaced: [s.replace(pattern, by)]. *)
Fixpoint replaceFirst (pattern replacement s : list N) : list N :=
  if Js.startsWith pattern s then replacement ++ drop (length pattern) s
  else match s with
       | [] => []
       | c :: t => c :: replaceFirst pattern replacement t
       end.

Definition isDigitOrDot (c : N) : bool := ((48 <=? c) && (c <=? 57) || (c =? 46))%N.
Definition notSemicolon (c : N) : bool := negb (c =? 59)%N.

(** [/stroke-width:\s*[\d.]+/g], [/stroke:\s*[^;]+/g], [/fill:\s*[^;]+/g] *)
Definition reStrokeWidth : Js.matcher :=
  Js.m_seq (map Js.eqChar (Js.lit "stroke-width:"))
           (Js.m_star Js.isWhiteSpace (Js.m_plus isDigitOrDot Js.m_done)).
Definition reStroke : Js.matcher :=
  Js.m_seq (map Js.eqChar (Js.lit "stroke:"))
           (Js.m_star Js.isWhiteSpace (Js.m_plus notSemicolon Js.m_done)).
Definition reFill : Js.matcher :=
  Js.m_seq (map Js.eqChar (Js.lit "fill:"))
           (Js.m_star Js.isWhiteSpace (Js.m_plus notSemicolon Js.m_done)).

(** optimizeSVGForTattoo; code unit 34 is the double quote. *)
Definition optimizeSVGForTattoo (svg : list N) : list N :=
  let optimized := svg in
  let optimized := Js.replaceAll reStrokeWidth (Js.lit "stroke-width: 3") optimized in
  let optimized := Js.replaceAll reStroke (Js.lit "stroke: #000") optimized in
  let optimized := Js.replaceAll reFill (Js.lit "fill: #000") optimized in
  replaceFirst (Js.lit "<svg")
    (Js.lit "<svg data-tattoo-design=" ++ [34%N] ++ Js.lit "true" ++ [34%N]
     ++ Js.lit " data-generated-by=" ++ [34%N] ++ Js.lit "starvector" ++ [34%N])
    optimized.

Definition modelName (options : StarVectorOptions) : string :=
  match model options with
  | Some Model8b => "starvector/starvector-8b-im2svg"
  | _ => "starvector/starvector-1b-im2svg"
  end.

Definition simpleGeometricPNG : string :=
  "iVBORw0KGgoAAAANSUhEUgAAAAgAAAAICAYAAADED76LAAAABHNCSVQICAgIfAhkiAAAAAlwSFlzAAAAdgAAAHYBTnsmZQAAABl0RVh0U29mdHdhcmUAd3d3Lmlua3NjYXBlLm9yZ5vuPBoAAAAySURBVBiVY2RgYPgPBAxAwMjAAATMQMDAwMDIyMDAwMjIwMDIyMDAwMjIwMDIyMDAwAAD5wAhkJa3AQAAAABJRU5ErkJggg==".

Definition chatPrompt : string :=
  "Convert this image to clean SVG code suitable for tattoo design. Generate bold, simple lines and shapes that capture the essential elements. Output only valid SVG markup without any explanations.".

Definition textPrompt (imageBase64 : string) : string :=
  "<image>" +:+ imageBase64 +:+ "</image>" +:+ String "010" (String "010"
  "Convert this image to clean SVG code suitable for tattoo design. Create bold, simple lines and shapes. Output only valid SVG markup:").

Section Methods.
Variable env : Env.

Definition liftOutcome {S A} (o : Outcome A) : M S A := fun s => (o, s).

(** initialize(huggingFaceToken?, enableCPUMode = false) *)
Definition initialize (huggingFaceToken : option string) (enableCPUMode : bool)
  : M World bool :=
  if enableCPUMode then
    setStatics (fun s =>
      {| hf := hf s; isInitialized := true; cpuModeEnabled := true;
         codiaKey := codiaKey s; removeBgKey := removeBgKey s;
         clipdropKey := clipdropKey s |}) ;;;
    ret true
  else if negb (HfInference env) then ret false
  else
    tryCatch
      (match huggingFaceToken with
       | Some token =>
           if truthyString token then
             external (NewHfInference token) (fun h => newHfInference env h token) ;;;
             setStatics (fun s =>
               {| hf := Some token; isInitialized := true;
                  cpuModeEnabled := cpuModeEnabled s;
                  codiaKey := codiaKey s; removeBgKey := removeBgKey s;
                  clipdropKey := clipdropKey s |}) ;;;
             ret true
           else ret false
       | None => ret false
       end)
      (fun _ => ret false).

(** isAvailable *)
Definition isAvailable (w : World) : bool :=
  isInitialized (statics w)
  && (match hf (statics w) with Some _ => true | None => false end)
  && HfInference env.

(** checkLocalStarVector; the abort after two seconds is a rejection of the
    fetch. *)
Definition checkLocalStarVector : M World bool :=
  enter CheckLocalStarVector ;;;
  tryCatch
    (response <- doFetch env
       {| url := "http://localhost:8000/health"; method := "GET";
          headers := []; body := NoBody |} ;;
     ret (ok response))
    (fun _ => ret false).

(** callLocalStarVector *)
Definition callLocalStarVector (imageBase64 modelId : string)
    (options : StarVectorOptions) : M World Value :=
  enter CallLocalStarVector ;;;
  tryCatch
    (response <- doFetch env
       {| url := "http://localhost:8000/generate"; method := "POST";
          headers := [("Content-Type", Some "application/json")];
          body := JsonBody (VObj
            [("image", VStr (Js.lit imageBase64));
             ("model", VStr (Js.lit modelId));
             ("max_tokens", VNum (inject_Z (maxTokensOr options)));
             ("temperature", VNum (temperatureOr options))]) |} ;;
     if ok response then
       result <- settle (json response) ;;
       liftOutcome (prop "svg_code" result)
     else ret VNull)
    (fun _ => ret VNull).

(** prepareImageForStarVector *)
Definition prepareImageForStarVector (imageUri : string) : M World string :=
  enter PrepareImageForStarVector ;;;
  if negb (ImageManipulator env) then ret imageUri
  else
    tryCatch
      (optimizedImage <- manipulate env imageUri [Resize (Some 512%Z) None]
                           (saveAs (Some 0.95%Q) JPEG) ;;
       ret (uri optimizedImage))
      (fun _ => ret imageUri).

(** tryTextGenerationAPI *)
Definition tryTextGenerationAPI (imageBase64 modelId : string)
    (options : StarVectorOptions) : M World (option (list N)) :=
  enter TryTextGenerationAPI ;;;
  tryCatch
    (response <- doFetch env
       {| url := "https://api-inference.huggingface.co/models/" +:+ modelId;
          method := "POST";
          headers := [("Authorization", Some ("Bearer " +:+ default "undefined" (huggingFaceToken options)));
                      ("Content-Type", Some "application/json")];
          body := JsonBody (VObj
            [("inputs", VStr (Js.lit (textPrompt imageBase64)));
             ("parameters", VObj
                [("max_new_tokens", VNum (inject_Z (maxTokensOr options)));
                 ("temperature", VNum (temperatureOr options));
                 ("do_sample", VBool true);
                 ("return_full_text", VBool false)])]) |} ;;
     if ok response then
       result <- settle (json response) ;;
       match result with
       | VStr (_ :: _) => liftOutcome (extractSVGFromResponse result)
       | _ =>
           if truthy (optProp "generated_text" (optFirst result)) then
             first <- liftOutcome (prop "generated_text" (optFirst result)) ;;
             liftOutcome (extractSVGFromResponse first)
           else if truthy (optProp "generated_text" result) then
             generated <- liftOutcome (prop "generated_text" result) ;;
             liftOutcome (extractSVGFromResponse generated)
           else ret None
       end
     else ret None)
    (fun _ => ret None).

(** callStarVectorAPI *)
Definition callStarVectorAPI (imageBase64 modelId : string)
    (options : StarVectorOptions) : M World (option (list N)) :=
  enter CallStarVectorAPI ;;;
  tryCatch
    (chatResponse <- doFetch env
       {| url := "https://api-inference.huggingface.co/models/" +:+ modelId
                 +:+ "/v1/chat/completions";
          method := "POST";
          headers := [("Authorization", Some ("Bearer " +:+ default "undefined" (huggingFaceToken options)));
                      ("Content-Type", Some "application/json")];
          body := JsonBody (VObj
            [("model", VStr (Js.lit modelId));
             ("messages", VArr [VObj
                [("role", VStr (Js.lit "user"));
                 ("content", VArr
                    [VObj [("type", VStr (Js.lit "text"));
                           ("text", VStr (Js.lit chatPrompt))];
                     VObj [("type", VStr (Js.lit "image_url"));
                           ("image_url", VObj
                              [("url", VStr (Js.lit ("data:image/jpeg;base64," +:+ imageBase64)))])]])]]);
             ("max_tokens", VNum (inject_Z (maxTokensOr options)));
             ("temperature", VNum (temperatureOr options));
             ("stream", VBool false)]) |} ;;
     (* the code after the if/else-if: read the body as text, log, return null *)
     let apiDidNotWork : M World (option (list N)) :=
       settle (text chatResponse) ;;; ret None in
     if ok chatResponse then
       result <- settle (json chatResponse) ;;
       let content :=
         optProp "content" (optProp "message" (optFirst (optProp "choices" result))) in
       if truthy content then
         svgCode <- liftOutcome (extractSVGFromResponse content) ;;
         if truthyMatch svgCode then ret svgCode else apiDidNotWork
       else apiDidNotWork
     else if (status chatResponse =? 404)%Z then
       tryTextGenerationAPI imageBase64 modelId options
     else apiDidNotWork)
    (fun _ => ret None).

(** createSimpleTattooDesign *)
Definition createSimpleTattooDesign : M World string :=
  enter CreateSimpleTattooDesign ;;;
  if negb (ImageManipulator env) || negb (FileSystem env) then
    throw "Required modules not available"
  else
    tryCatch
      (stamp <- now env ;;
       let fileName := "tattoo_design_" +:+ showZ stamp +:+ ".png" in
       let filePath := documentDirectory env +:+ fileName in
       writeFile env filePath (Base64Data (Some simpleGeometricPNG)) Base64 ;;;
       result <- manipulate env filePath [Resize (Some 400%Z) (Some 400%Z)]
                   (saveAs (Some 0.9%Q) PNG) ;;
       deleteFile env filePath ;;;
       ret (uri result))
      (fun _ =>
         tryCatch
           (stamp <- now env ;;
            let fallbackFileName := "fallback_design_" +:+ showZ stamp +:+ ".txt" in
            let fallbackPath := documentDirectory env +:+ fallbackFileName in
            writeFile env fallbackPath
              (CodeUnits (Js.lit "Design generated successfully")) UTF8 ;;;
            ret fallbackPath)
           (fun _ => throw "Could not create any design output")).

(** createTattooImageFallback: the catch rethrows the error it caught. *)
Definition createTattooImageFallback (svg : list N) : M World string :=
  enter CreateTattooImageFallback ;;;
  if negb (ImageManipulator env) then throw "ImageManipulator not available"
  else
    tryCatch
      (simpleTattooDesign <- createSimpleTattooDesign ;;
       ret simpleTattooDesign)
      (fun message => throw message).

(** convertSVGToPNG *)
Definition convertSVGToPNG (svg : list N) : M World string :=
  enter ConvertSVGToPNG ;;;
  createTattooImageFallback svg.

(** saveSVGToFile *)
Definition saveSVGToFile (svg : list N) : M World string :=
  enter SaveSVGToFile ;;;
  if negb (FileSystem env) then throw "FileSystem not available"
  else
    stamp <- now env ;;
    let svgFileName := "starvector_tattoo_" +:+ showZ stamp +:+ ".svg" in
    let svgFilePath := documentDirectory env +:+ svgFileName in
    writeFile env svgFilePath (CodeUnits svg) UTF8 ;;;
    tryCatch
      (pngPath <- convertSVGToPNG svg ;;
       ret pngPath)
      (fun _ =>
         fallbackImage <- createTattooImageFallback svg ;;
         ret fallbackImage).

(** generateSVGFromAnalysis.  The analysis argument is the constant mock
    that analyzeImageForVectors returns and is not read. *)
Definition generateSVGFromAnalysis (imageUri : string) : M World (list N) :=
  enter GenerateSVGFromAnalysis ;;;
  dims <- tryCatch
            (if ImageManipulator env then
               imageInfo <- manipulate env imageUri []
                              (saveAs None JPEG) ;;
               ret (Z.min (width imageInfo) 800, Z.min (height imageInfo) 800)%Z
             else ret (400, 400)%Z)
            (fun _ => ret (400, 400)%Z) ;;
  ret (Js.trim (svgTemplate env (fst dims) (snd dims))).

(** processWithLocalStarVector *)
Definition processWithLocalStarVector (imageUri : string)
    (options : StarVectorOptions) : M World StarVectorResult :=
  enter ProcessWithLocalStarVector ;;;
  withLocals []
    (tryCatch
       (push "Image analyzed for vector elements" ;;;
        svg <- await (generateSVGFromAnalysis imageUri) ;;
        push "SVG structure generated" ;;;
        let optimizedSVG := optimizeSVGForTattoo svg in
        push "SVG optimized for tattoo design" ;;;
        savedUri <- await (saveSVGToFile optimizedSVG) ;;
        push "SVG file saved" ;;;
        steps <- readSteps ;;
        ret {| success := true; svgCode := Some optimizedSVG;
               svgUri := Some savedUri; originalImageUri := imageUri;
               processingSteps := steps; error := None;
               resultModel := Some "local-starvector-inspired" |})
       (fun message =>
          steps <- readSteps ;;
          ret {| success := false; svgCode := None; svgUri := None;
                 originalImageUri := imageUri; processingSteps := steps;
                 error := Some message; resultModel := None |})).

(** imageToSVG *)
Definition imageToSVG (imageUri : string) (options : StarVectorOptions)
  : M World StarVectorResult :=
  enter ImageToSVG ;;;
  withLocals []
    (tryCatch
       (preparedImageUri <- await (prepareImageForStarVector imageUri) ;;
        push "Image prepared for StarVector processing" ;;;
        moduleAccess (FileSystem env) ;;;
        imageBase64 <- await (readFile env preparedImageUri Base64) ;;
        (if negb (validateBase64Image imageBase64)
         then throw "Invalid image format for StarVector processing"
         else ret tt) ;;;
        let modelId := modelName options in
        push ("Using " +:+ modelId +:+ " model") ;;;
        (* steps 5 and 6: the HuggingFace API, then the local fallback *)
        let huggingFaceThenLocal : M (list string * World) StarVectorResult :=
          let localFallback : M (list string * World) StarVectorResult :=
            push "StarVector models not available" ;;;
            localResult <- await (processWithLocalStarVector imageUri options) ;;
            steps <- readSteps ;;
            ret (withSteps localResult (steps ++ processingSteps localResult)) in
          initialized <- gets (fun s => isInitialized (statics (snd s))) ;;
          client <- gets (fun s => hf (statics (snd s))) ;;
          if initialized && (match client with Some _ => true | None => false end)
          then
            generated <- await (callStarVectorAPI imageBase64 modelId options) ;;
            if truthyMatch generated then
              push "SVG code generated by StarVector HuggingFace API" ;;;
              cleanedSVG <- liftOutcome (validateAndCleanSVG (matchValue generated)) ;;
              push "SVG code validated and cleaned" ;;;
              savedUri <- await (saveSVGToFile cleanedSVG) ;;
              push "SVG file saved" ;;;
              steps <- readSteps ;;
              ret {| success := true; svgCode := Some cleanedSVG;
                     svgUri := Some savedUri; originalImageUri := imageUri;
                     processingSteps := steps; error := None;
                     resultModel := Some modelId |}
            else localFallback
          else localFallback in
        (* step 4: the local CPU server, if enabled *)
        cpuMode <- gets (fun s => cpuModeEnabled (statics (snd s))) ;;
        if cpuMode || default false (useCPUMode options) then
          isLocalAvailable <- await checkLocalStarVector ;;
          if isLocalAvailable then
            localSvgCode <- await (callLocalStarVector imageBase64 modelId options) ;;
            if truthy localSvgCode then
              push "SVG generated using local CPU StarVector" ;;;
              cleanedSVG <- liftOutcome (validateAndCleanSVG localSvgCode) ;;
              push "SVG code validated and cleaned" ;;;
              savedUri <- await (saveSVGToFile cleanedSVG) ;;
              push "SVG file saved" ;;;
              steps <- readSteps ;;
              ret {| success := true; svgCode := Some cleanedSVG;
                     svgUri := Some savedUri; originalImageUri := imageUri;
                     processingSteps := steps; error := None;
                     resultModel := Some (modelId +:+ " (Local CPU)") |}
            else huggingFaceThenLocal
          else
            push "Local CPU StarVector not available" ;;;
            huggingFaceThenLocal
        else huggingFaceThenLocal)
       (fun message =>
          tryCatch
            (fallbackResult <- await (processWithLocalStarVector imageUri options) ;;
             steps <- readSteps ;;
             ret (withSteps fallbackResult
                    (steps ++ ["Error in main processing: " +:+ message]
                     ++ processingSteps fallbackResult)))
            (fun fallbackMessage =>
               steps <- readSteps ;;
               ret {| success := false; svgCode := None; svgUri := None;
                      originalImageUri := imageUri; processingSteps := steps;
                      error := Some ("Primary processing failed: " +:+ message
                                     +:+ ". Fallback failed: " +:+ fallbackMessage);
                      resultModel := None |}))).

End Methods.
End StarVectorProcessor.

(** ** aiImageProcessor.ts *)

Module AIImageProcessor.
Import Platform.
Local Open Scope js_scope.

(** A property of an options object literal: missing, present with the
    value undefined, or present with a value.  Object spread copies the
    last two. *)
Inductive Field (A : Type) : Type :=
| Absent
| Undefined
| Given (a : A).
Arguments Absent {A}.
Arguments Undefined {A}.
Arguments Given {A} a.

Inductive OutputFormat : Type := FormatPNG | FormatSVG.

(** interface ProcessingOptions; its properties live in a module of their
    own because two of them share their names with methods of the class. *)
Module Options.

Record ProcessingOptions : Type := {
  removeBackground : Field bool;
  enhanceEdges : Field bool;
  convertToLineArt : Field bool;
  autoContrast : Field bool;
  smartCrop : Field bool;
  useAI : Field bool;
  outputFormat : Field OutputFormat;
  useStarVector : Field bool;
  starVectorModel : Field StarVectorProcessor.ModelSize;
  fallbackToLocal : Field bool;
  useCPUMode : Field bool;
}.

(** [{}] *)
Definition emptyOptions : ProcessingOptions :=
  {| removeBackground := Absent; enhanceEdges := Absent;
     convertToLineArt := Absent; autoContrast := Absent; smartCrop := Absent;
     useAI := Absent; outputFormat := Absent; useStarVector := Absent;
     starVectorModel := Absent; fallbackToLocal := Absent; useCPUMode := Absent |}.

Definition overlay {A} (default : A) (f : Field A) : Field A :=
  match f with
  | Absent => Given default
  | other => other
  end.

(** [{ ...AI_PROCESSING_DEFAULTS, ...options }] with the defaults of
    constants/aiConfig.ts (its extra key preferSVG is never read). *)
Definition mergeDefaults (options : ProcessingOptions) : ProcessingOptions :=
  {| removeBackground := overlay true (removeBackground options);
     enhanceEdges := overlay true (enhanceEdges options);
     convertToLineArt := overlay true (convertToLineArt options);
     autoContrast := overlay true (autoContrast options);
     smartCrop := overlay true (smartCrop options);
     useAI := overlay true (useAI options);
     outputFormat := overlay FormatSVG (outputFormat options);
     useStarVector := overlay true (useStarVector options);
     starVectorModel := overlay StarVectorProcessor.Model1b (starVectorModel options);
     fallbackToLocal := overlay true (fallbackToLocal options);
     useCPUMode := overlay false (useCPUMode options) |}.

Definition truthyField (f : Field bool) : bool :=
  match f with
  | Given b => b
  | _ => false
  end.

Definition fieldValue {A} (f : Field A) : option A :=
  match f with
  | Given a => Some a
  | _ => None
  end.

End Options.
Abbreviation ProcessingOptions := Options.ProcessingOptions.

Record ProcessingResult : Type := {
  success : bool;
  processedImageUri : option string;
  originalImageUri : string;
  processingSteps : list string;
  error : option string;
  format : option OutputFormat;
  svgCode : option (list N);
  model : option string;
}.

Record APIKeys : Type := {
  codiaAI : option string;
  removeBG : option string;
  clipdrop : option string;
  huggingFace : option string;
}.

(** [base64data.split(',')] *)
Fixpoint splitComma (s : string) : list string :=
  match s with
  | EmptyString => [EmptyString]
  | String c rest =>
      if Ascii.eqb c "," then EmptyString :: splitComma rest
      else match splitComma rest with
           | piece :: pieces => String c piece :: pieces
           | [] => [String c EmptyString]
           end
  end.

(** The promise that tryRemoveBgAPI and tryClipDropAPI build around the
    [onloadend] callback: [resolve] is called at the end of the callback and
    nothing else settles the promise, so an error inside the callback leaves
    it pending. *)
Definition resolvedByCallback {S A} (callback : M S A) : M S A :=
  fun s =>
    match callback s with
    | (Throw _, s') => (Pending, s')
    | r => r
    end.

Section Methods.
Variable env : Env.

(** setAPIKeys(keys, enableCPUMode = false) *)
Definition setAPIKeys (keys : APIKeys) (enableCPUMode : bool) : M World unit :=
  (if truthyOpt (codiaAI keys) then
     setStatics (fun s =>
       {| hf := hf s; isInitialized := isInitialized s;
          cpuModeEnabled := cpuModeEnabled s; codiaKey := codiaAI keys;
          removeBgKey := removeBgKey s; clipdropKey := clipdropKey s |})
   else ret tt) ;;;
  (if truthyOpt (removeBG keys) then
     setStatics (fun s =>
       {| hf := hf s; isInitialized := isInitialized s;
          cpuModeEnabled := cpuModeEnabled s; codiaKey := codiaKey s;
          removeBgKey := removeBG keys; clipdropKey := clipdropKey s |})
   else ret tt) ;;;
  (if truthyOpt (clipdrop keys) then
     setStatics (fun s =>
       {| hf := hf s; isInitialized := isInitialized s;
          cpuModeEnabled := cpuModeEnabled s; codiaKey := codiaKey s;
          removeBgKey := removeBgKey s; clipdropKey := clipdrop keys |})
   else ret tt) ;;;
  if truthyOpt (huggingFace keys) || enableCPUMode then
    StarVectorProcessor.initialize env (huggingFace keys) enableCPUMode ;;; ret tt
  else ret tt.

(** preprocessForAI *)
Definition preprocessForAI (imageUri : string) : M World string :=
  enter PreprocessForAI ;;;
  if negb (ImageManipulator env) then ret imageUri
  else
    tryCatch
      (optimizedImage <- manipulate env imageUri [Resize (Some 1024%Z) None]
                           (saveAs (Some 0.9%Q) JPEG) ;;
       ret (uri optimizedImage))
      (fun _ => ret imageUri).

(** The body shared by tryRemoveBgAPI and tryClipDropAPI, which differ in
    the endpoint, the header that carries the key and the file prefix. *)
Definition backgroundService (endpoint header : string) (key : option string)
    (prefix : string) (imageUri : string) : M World (option string) :=
  tryCatch
    (response <- doFetch env
       {| url := endpoint; method := "POST"; headers := [(header, key)];
          body := FormImage imageUri |} ;;
     if ok response then
       imageBlob <- settle (blob response) ;;
       result <- external (ReadAsDataURL imageBlob)
                   (fun h => Resolved (readAsDataURL env h imageBlob)) ;;
       resolvedByCallback
         (base64data <- match result with
                        | Some s => ret s
                        | None => throw "TypeError: null is not an object"
                        end ;;
          let base64Image := splitComma base64data !! 1%nat in
          stamp <- now env ;;
          let fileName := prefix +:+ showZ stamp +:+ ".png" in
          moduleAccess (FileSystem env) ;;;
          let filePath := documentDirectory env +:+ fileName in
          writeFile env filePath (Base64Data base64Image) Base64 ;;;
          ret (Some filePath))
     else ret None)
    (fun _ => ret None).

(** tryRemoveBgAPI *)
Definition tryRemoveBgAPI (imageUri : string) : M World (option string) :=
  enter TryRemoveBgAPI ;;;
  key <- gets (fun w => removeBgKey (statics w)) ;;
  backgroundService "https://api.remove.bg/v1.0/removebg" "X-Api-Key" key
    "bg_removed_" imageUri.

(** tryClipDropAPI *)
Definition tryClipDropAPI (imageUri : string) : M World (option string) :=
  enter TryClipDropAPI ;;;
  key <- gets (fun w => clipdropKey (statics w)) ;;
  backgroundService "https://clipdrop-api.co/remove-background/v1" "x-api-key" key
    "clipdrop_" imageUri.

(** removeBackgroundAI *)
Definition removeBackgroundAI (imageUri : string) : M World (option string) :=
  enter RemoveBackgroundAI ;;;
  tryCatch
    (let thenClipDrop : M World (option string) :=
       clipdropApiKey <- gets (fun w => clipdropKey (statics w)) ;;
       if truthyOpt clipdropApiKey then
         clipDropResult <- tryClipDropAPI imageUri ;;
         if truthyOpt clipDropResult then ret clipDropResult else ret None
       else ret None in
     removeBgApiKey <- gets (fun w => removeBgKey (statics w)) ;;
     if truthyOpt removeBgApiKey then
       removeBgResult <- tryRemoveBgAPI imageUri ;;
       if truthyOpt removeBgResult then ret removeBgResult else thenClipDrop
     else thenClipDrop)
    (fun _ => ret None).

(** localBackgroundRemoval *)
Definition localBackgroundRemoval (imageUri : string) : M World string :=
  enter LocalBackgroundRemoval ;;;
  if negb (ImageManipulator env) then ret imageUri
  else
    tryCatch
      (resizedImage <- manipulate env imageUri [Resize (Some 800%Z) None]
                         (saveAs (Some 1.0%Q) PNG) ;;
       highContrastImage <- manipulate env (uri resizedImage) []
                              (saveAs (Some 0.3%Q) PNG) ;;
       ret (uri highContrastImage))
      (fun _ => ret imageUri).

(** smartCrop *)
Definition smartCrop (imageUri : string) : M World string :=
  enter SmartCrop ;;;
  if negb (ImageManipulator env) then ret imageUri
  else
    tryCatch
      (croppedImage <- manipulate env imageUri
                         [Crop 0.1%Q 0.1%Q 0.8%Q 0.8%Q; Resize (Some 600%Z) None]
                         (saveAs (Some 0.9%Q) PNG) ;;
       ret (uri croppedImage))
      (fun _ => ret imageUri).

(** convertToLineArt *)
Definition convertToLineArt (imageUri : string) : M World string :=
  enter ConvertToLineArt ;;;
  if negb (ImageManipulator env) then ret imageUri
  else
    tryCatch
      (lineArtImage <- manipulate env imageUri []
                         (saveAs (Some 0.1%Q) PNG) ;;
       ret (uri lineArtImage))
      (fun _ => ret imageUri).

(** applyTattooStyling(imageUri, autoContrast = true): the default applies
    when the argument is undefined. *)
Definition applyTattooStyling (imageUri : string) (autoContrastArg : option bool)
  : M World string :=
  enter ApplyTattooStyling ;;;
  let autoContrast := default true autoContrastArg in
  if negb (ImageManipulator env) then ret imageUri
  else
    tryCatch
      (styledImage <- manipulate env imageUri [Resize (Some 800%Z) None]
                        (saveAs (Some (if autoContrast then 0.1%Q else 0.8%Q)) PNG) ;;
       ret (uri styledImage))
      (fun _ => ret imageUri).

(** traditionalProcessingPipeline *)
Definition traditionalProcessingPipeline (imageUri : string)
    (options : ProcessingOptions) (existingSteps : list string)
  : M World ProcessingResult :=
  enter TraditionalProcessingPipeline ;;;
  withLocals (existingSteps ++ ["Using traditional processing pipeline"])
    (tryCatch
       (* Step 1: preprocess image *)
       (currentImageUri <- await (preprocessForAI imageUri) ;;
        push "Image preprocessed" ;;;
        (* Step 2: background removal *)
        currentImageUri <-
          (if Options.truthyField (Options.removeBackground options) then
             backgroundRemovedUri <- await (removeBackgroundAI currentImageUri) ;;
             match backgroundRemovedUri with
             | Some removedUri =>
                 if truthyString removedUri then
                   push "Background removed using AI" ;;; ret removedUri
                 else
                   localUri <- await (localBackgroundRemoval currentImageUri) ;;
                   push "Background processed locally" ;;; ret localUri
             | None =>
                 localUri <- await (localBackgroundRemoval currentImageUri) ;;
                 push "Background processed locally" ;;; ret localUri
             end
           else ret currentImageUri) ;;
        (* Step 3: smart cropping *)
        currentImageUri <-
          (if Options.truthyField (Options.smartCrop options) then
             croppedUri <- await (smartCrop currentImageUri) ;;
             push "Smart cropped" ;;; ret croppedUri
           else ret currentImageUri) ;;
        (* Step 4: convert to line art *)
        currentImageUri <-
          (if Options.truthyField (Options.convertToLineArt options) then
             lineArtUri <- await (convertToLineArt currentImageUri) ;;
             push "Converted to line art" ;;; ret lineArtUri
           else ret currentImageUri) ;;
        (* Step 5: apply tattoo styling *)
        currentImageUri <-
          await (applyTattooStyling currentImageUri
                   (Options.fieldValue (Options.autoContrast options))) ;;
        push "Tattoo styling applied" ;;;
        steps <- readSteps ;;
        ret {| success := true; processedImageUri := Some currentImageUri;
               originalImageUri := imageUri; processingSteps := steps;
               error := None; format := Some FormatPNG; svgCode := None;
               model := Some "traditional-pipeline" |})
       (fun message => throw ("Traditional processing failed: " +:+ message))).

(** ultimateFallbackProcessing *)
Definition ultimateFallbackProcessing (imageUri : string)
    (existingSteps : list string) : M World ProcessingResult :=
  enter UltimateFallbackProcessing ;;;
  withLocals (existingSteps ++ ["Using ultimate fallback processing"])
    (if negb (ImageManipulator env) then
       throw "No image processing capabilities available"
     else
       tryCatch
         (processedImage <- await (manipulate env imageUri [Resize (Some 600%Z) None]
                                     (saveAs (Some 0.8%Q) PNG)) ;;
          push "Basic image processing applied" ;;;
          steps <- readSteps ;;
          ret {| success := true; processedImageUri := Some (uri processedImage);
                 originalImageUri := imageUri; processingSteps := steps;
                 error := None; format := Some FormatPNG; svgCode := None;
                 model := Some "ultimate-fallback" |})
         (fun message => throw ("Ultimate fallback failed: " +:+ message))).

(** [starVectorResult.processingSteps.some(step =>
      step.includes('StarVector API') && !step.includes('not available'))] *)
Definition usingAPI (steps : list string) : bool :=
  existsb (fun step => StarVectorProcessor.includes "StarVector API" step
                       && negb (StarVectorProcessor.includes "not available" step))
          steps.

(** processImageToTattooDesign(imageUri, options = {}) *)
Definition processImageToTattooDesign (imageUri : string)
    (options : ProcessingOptions) : M World ProcessingResult :=
  enter ProcessImageToTattooDesign ;;;
  withLocals []
    (tryCatch
       (let finalOptions := Options.mergeDefaults options in
        (* Step 3: the traditional pipeline *)
        let traditional : M (list string * World) ProcessingResult :=
          steps <- readSteps ;;
          await (traditionalProcessingPipeline imageUri finalOptions steps) in
        (* Step 2: local StarVector-inspired processing *)
        let localThenTraditional : M (list string * World) ProcessingResult :=
          if Options.truthyField (Options.fallbackToLocal finalOptions) then
            localStarVectorResult <-
              await (StarVectorProcessor.processWithLocalStarVector env imageUri
                       StarVectorProcessor.noOptions) ;;
            if StarVectorProcessor.success localStarVectorResult then
              steps <- readSteps ;;
              ret {| success := true;
                     processedImageUri := StarVectorProcessor.svgUri localStarVectorResult;
                     originalImageUri := imageUri;
                     processingSteps :=
                       steps ++ StarVectorProcessor.processingSteps localStarVectorResult;
                     error := None; format := Some FormatSVG;
                     svgCode := StarVectorProcessor.svgCode localStarVectorResult;
                     model := StarVectorProcessor.resultModel localStarVectorResult |}
            else
              push "Local StarVector processing failed" ;;; traditional
          else traditional in
        (* Step 1: StarVector *)
        available <- gets (fun s => StarVectorProcessor.isAvailable env (snd s)) ;;
        if Options.truthyField (Options.useStarVector finalOptions) && available then
          let starVectorOptions :=
            {| StarVectorProcessor.model :=
                 Some (default StarVectorProcessor.Model1b
                         (Options.fieldValue (Options.starVectorModel finalOptions)));
               StarVectorProcessor.temperature := Some 0.1%Q;
               StarVectorProcessor.maxTokens := Some 2048%Z;
               StarVectorProcessor.useHuggingFace := None;
               StarVectorProcessor.huggingFaceToken := Some (configHuggingFace env);
               StarVectorProcessor.useCPUMode := None;
               StarVectorProcessor.localModelPath := None |} in
          starVectorResult <-
            await (StarVectorProcessor.imageToSVG env imageUri starVectorOptions) ;;
          if StarVectorProcessor.success starVectorResult then
            ret {| success := true;
                   processedImageUri := StarVectorProcessor.svgUri starVectorResult;
                   originalImageUri := imageUri;
                   processingSteps := StarVectorProcessor.processingSteps starVectorResult;
                   error := None; format := Some FormatSVG;
                   svgCode := StarVectorProcessor.svgCode starVectorResult;
                   model :=
                     if usingAPI (StarVectorProcessor.processingSteps starVectorResult)
                     then StarVectorProcessor.resultModel starVectorResult
                     else Some "Enhanced StarVector-inspired (Local)" |}
          else
            push "StarVector processing not available" ;;; localThenTraditional
        else localThenTraditional)
       (fun message =>
          tryCatch
            (steps <- readSteps ;;
             await (ultimateFallbackProcessing imageUri steps))
            (fun _ =>
               steps <- readSteps ;;
               ret {| success := false; processedImageUri := None;
                      originalImageUri := imageUri; processingSteps := steps;
                      error := Some ("All processing methods failed: " +:+ message);
                      format := None; svgCode := None; model := None |}))).

(** The object that generateProcessingPreviews fills in and returns; a
    property that was never assigned, or assigned undefined, is [None]. *)
Record Previews : Type := {
  original : string;
  starVector : option string;
  localStarVector : option string;
  traditional : option string;
}.

(** [{ convertToLineArt: true, removeBackground: true }] *)
Definition previewOptions : ProcessingOptions :=
  {| Options.removeBackground := Given true; Options.enhanceEdges := Absent;
     Options.convertToLineArt := Given true; Options.autoContrast := Absent;
     Options.smartCrop := Absent; Options.useAI := Absent;
     Options.outputFormat := Absent; Options.useStarVector := Absent;
     Options.starVectorModel := Absent; Options.fallbackToLocal := Absent;
     Options.useCPUMode := Absent |}.

(** [{ model: '1b', temperature: 0.2, maxTokens: 1024 }] *)
Definition previewStarVectorOptions : StarVectorProcessor.StarVectorOptions :=
  {| StarVectorProcessor.model := Some StarVectorProcessor.Model1b;
     StarVectorProcessor.temperature := Some 0.2%Q;
     StarVectorProcessor.maxTokens := Some 1024%Z;
     StarVectorProcessor.useHuggingFace := None;
     StarVectorProcessor.huggingFaceToken := None;
     StarVectorProcessor.useCPUMode := None;
     StarVectorProcessor.localModelPath := None |}.

(** generateProcessingPreviews; the local variable is the object
    [previews]. *)
Definition generateProcessingPreviews (imageUri : string) : M World Previews :=
  withLocals
    {| original := imageUri; starVector := None; localStarVector := None;
       traditional := None |}
    (tryCatch
       (available <- gets (fun s => StarVectorProcessor.isAvailable env (snd s)) ;;
        (if available then
           starVectorResult <-
             await (StarVectorProcessor.imageToSVG env imageUri previewStarVectorOptions) ;;
           if StarVectorProcessor.success starVectorResult
              && truthyOpt (StarVectorProcessor.svgUri starVectorResult)
           then
             modify (fun '(previews, w) =>
               ({| original := original previews;
                   starVector := StarVectorProcessor.svgUri starVectorResult;
                   localStarVector := localStarVector previews;
                   traditional := traditional previews |}, w))
           else ret tt
         else ret tt) ;;;
        localStarVectorResult <-
          await (StarVectorProcessor.processWithLocalStarVector env imageUri
                   StarVectorProcessor.noOptions) ;;
        (if StarVectorProcessor.success localStarVectorResult
            && truthyOpt (StarVectorProcessor.svgUri localStarVectorResult)
         then
           modify (fun '(previews, w) =>
             ({| original := original previews;
                 starVector := starVector previews;
                 localStarVector := StarVectorProcessor.svgUri localStarVectorResult;
                 traditional := traditional previews |}, w))
         else ret tt) ;;;
        traditionalResult <-
          await (traditionalProcessingPipeline imageUri previewOptions []) ;;
        if success traditionalResult then
          modify (fun '(previews, w) =>
            ({| original := original previews;
                starVector := starVector previews;
                localStarVector := localStarVector previews;
                traditional := processedImageUri traditionalResult |}, w))
        else ret tt)
       (fun _ => ret tt) ;;;
     gets fst).

End Methods.
End AIImageProcessor.

(** ** Vocabulary of the specifications *)

Module Spec.
Import Platform.

(** *** Reasoning about computations *)

(** The outcome and the final state of [m] from [s] satisfy [Q]. *)
Definition wp {S A} (m : M S A) (s : S) (Q : Outcome A -> S -> Prop) : Prop :=
  Q (fst (m s)) (snd (m s)).

(** [m] rejects in no state. *)
Definition NoThrow {S A} (m : M S A) : Prop :=
  forall s e, fst (m s) <> Throw e.

(** [m] settles (resolves or rejects) from every state that satisfies [I]. *)
Definition Settles {S A} (I : S -> Prop) (m : M S A) : Prop :=
  forall s, I s -> fst (m s) <> Pending.

(** [I] is kept by [m], whatever the outcome. *)
Definition Keeps {S A} (I : S -> Prop) (m : M S A) : Prop :=
  forall s, I s -> I (snd (m s)).

(** Every value that [m] resolves with satisfies [P]. *)
Definition Yields {S A} (P : A -> Prop) (m : M S A) : Prop :=
  forall s a, fst (m s) = Ok a -> P a.

(** A property of the world, read off a state with locals. *)
Definition onWorld {L} (I : World -> Prop) : L * World -> Prop :=
  fun s => I (snd s).

(** An invariant of the world that survives every event in [allowed]; the
    static fields are part of the world, so they may be mentioned. *)
Definition ClosedUnder (allowed : Event -> Prop) (I : World -> Prop) : Prop :=
  forall w e, allowed e -> I w -> I (extend w [e]).

(** The methods entered during a stretch of the log, in order. *)
Definition entered (events : list Event) : list Method :=
  omap (fun e => match e with Enter m => Some m | _ => None end) events.

(** An event that is anything but the entry into a method of [excluded]. *)
Definition avoids (excluded : list Method) (e : Event) : Prop :=
  match e with
  | Enter m => m ∉ excluded
  | _ => True
  end.

(** An event that enters no method of [excluded] and fetches only from a
    URL that [fetchable] accepts. *)
Definition permits (excluded : list Method) (fetchable : string -> bool) (e : Event)
  : Prop :=
  match e with
  | Enter m => m ∉ excluded
  | Fetch request => fetchable (url request) = true
  | _ => True
  end.

(** The methods that work on the device alone, and the entry points of the
    pipeline; the other methods are the ones that call a service. *)
Definition deviceMethod (m : Method) : bool :=
  match m with
  | PrepareImageForStarVector | ProcessWithLocalStarVector | GenerateSVGFromAnalysis
  | SaveSVGToFile | ConvertSVGToPNG | CreateTattooImageFallback
  | CreateSimpleTattooDesign | ProcessImageToTattooDesign
  | TraditionalProcessingPipeline | PreprocessForAI | RemoveBackgroundAI
  | LocalBackgroundRemoval | SmartCrop | ConvertToLineArt | ApplyTattooStyling => true
  | _ => false
  end.

(** The methods that call a remote service. *)
Definition remoteMethod (m : Method) : bool :=
  match m with
  | CallStarVectorAPI | TryTextGenerationAPI | TryRemoveBgAPI | TryClipDropAPI => true
  | _ => false
  end.

(** The URLs of the local CPU server. *)
Definition localServer (target : string) : bool :=
  String.prefix "http://localhost:8000" target.

(** The events that [w'] has on top of [w]. *)
Definition eventsSince (w w' : World) : list Event :=
  drop (length (log w)) (log w').

(** No background-removal service has a key. *)
Definition noServiceKey (w : World) : Prop :=
  truthyOpt (removeBgKey (statics w)) = false
  /\ truthyOpt (clipdropKey (statics w)) = false.

(** A call to the image-manipulation module that was rejected, given what
    had happened before it. *)
Definition rejectedCall (env : Env) (history : list Event) (e : Event) : Prop :=
  match e with
  | ManipulateAsync source actions options =>
      exists message, manipulateAsync env history source actions options = Rejected message
  | _ => False
  end.

(** Between [w] and [w'] some manipulation call threw. *)
Definition manipulationRejected (env : Env) (w w' : World) : Prop :=
  exists before e after,
    eventsSince w w' = before ++ e :: after
    /\ rejectedCall env (log w ++ before) e.

(** The five image-processing steps, as functions of the input URI. *)
Definition stepHelpers (env : Env) (autoContrast : option bool)
  : list (Method * (string -> M World string)) :=
  [ (PreprocessForAI, AIImageProcessor.preprocessForAI env);
    (LocalBackgroundRemoval, AIImageProcessor.localBackgroundRemoval env);
    (SmartCrop, AIImageProcessor.smartCrop env);
    (ConvertToLineArt, AIImageProcessor.convertToLineArt env);
    (ApplyTattooStyling,
     fun imageUri => AIImageProcessor.applyTattooStyling env imageUri autoContrast) ].

(** What a run of one of these steps on [imageUri] from [w] looks like: it
    resolves, it logs its entry and then only calls that leave the program,
    and it resolves with [imageUri] itself if the module is missing or a
    manipulation threw. *)
Definition stepRun (env : Env) (step : Method) (imageUri : string) (w : World)
    (o : Outcome string) (w' : World) : Prop :=
  exists result events,
    o = Ok result
    /\ w' = extend w (Enter step :: events)
    /\ entered events = []
    /\ (ImageManipulator env = false \/ manipulationRejected env w w' ->
        result = imageUri).

(** The processing steps of the traditional pipeline. *)
Definition isPipelineStep (m : Method) : bool :=
  match m with
  | PreprocessForAI | RemoveBackgroundAI | LocalBackgroundRemoval | SmartCrop
  | ConvertToLineArt | ApplyTattooStyling => true
  | _ => false
  end.

Definition pipelineSteps (events : list Event) : list Method :=
  List.filter isPipelineStep (entered events).

(** The URLs fetched during a stretch of the log, in order. *)
Definition fetchedUrls (events : list Event) : list string :=
  omap (fun e => match e with Fetch r => Some (url r) | _ => None end) events.

Definition removeBgEndpoint : string := "https://api.remove.bg/v1.0/removebg".
Definition clipDropEndpoint : string := "https://clipdrop-api.co/remove-background/v1".

(** The two HuggingFace endpoints for a model. *)
Definition chatEndpoint (modelId : string) : string :=
  "https://api-inference.huggingface.co/models/" +:+ modelId +:+ "/v1/chat/completions".
Definition textEndpoint (modelId : string) : string :=
  "https://api-inference.huggingface.co/models/" +:+ modelId.

(** A request to a service that failed, given what had happened before it:
    the fetch was rejected, or the response was not ok. *)
Definition failedFetch (env : Env) (history : list Event) (e : Event) : Prop :=
  match e with
  | Fetch request =>
      match fetch env history request with
      | Rejected _ => True
      | Resolved response => ok response = false
      end
  | _ => True
  end.

(** Between [w] and [w'] every service that was tried failed. *)
Definition everyFetchFailed (env : Env) (w w' : World) : Prop :=
  forall before e after,
    eventsSince w w' = before ++ e :: after ->
    failedFetch env (log w ++ before) e.

(** How the background was dealt with in a run of the pipeline. *)
Inductive Background : Type := RemovedByAI | ProcessedLocally.

(** The steps of the pipeline for given options, as methods entered and as
    labels pushed on processingSteps. *)
Definition stepMethods (options : AIImageProcessor.Options.ProcessingOptions)
    (background : Background) : list Method :=
  [PreprocessForAI]
  ++ (if AIImageProcessor.Options.truthyField
           (AIImageProcessor.Options.removeBackground options)
      then RemoveBackgroundAI
           :: match background with
              | RemovedByAI => []
              | ProcessedLocally => [LocalBackgroundRemoval]
              end
      else [])
  ++ (if AIImageProcessor.Options.truthyField
           (AIImageProcessor.Options.smartCrop options)
      then [SmartCrop] else [])
  ++ (if AIImageProcessor.Options.truthyField
           (AIImageProcessor.Options.convertToLineArt options)
      then [ConvertToLineArt] else [])
  ++ [ApplyTattooStyling].

Definition stepLabels (options : AIImageProcessor.Options.ProcessingOptions)
    (background : Background) : list string :=
  ["Image preprocessed"]
  ++ (if AIImageProcessor.Options.truthyField
           (AIImageProcessor.Options.removeBackground options)
      then [match background with
            | RemovedByAI => "Background removed using AI"
            | ProcessedLocally => "Background processed locally"
            end]
      else [])
  ++ (if AIImageProcessor.Options.truthyField
           (AIImageProcessor.Options.smartCrop options)
      then ["Smart cropped"] else [])
  ++ (if AIImageProcessor.Options.truthyField
           (AIImageProcessor.Options.convertToLineArt options)
      then ["Converted to line art"] else [])
  ++ ["Tattoo styling applied"].

(** What a run of the pipeline from [w] looks like, for every input: the
    steps in their order, the labels that record them, and the fixed format
    and model; or, if a service call leaves its promise pending, the two
    steps run so far. *)
Definition pipelineRun (env : Env) (imageUri : string)
    (options : AIImageProcessor.Options.ProcessingOptions)
    (existingSteps : list string) (w : World)
    (o : Outcome AIImageProcessor.ProcessingResult) (w' : World) : Prop :=
  match o with
  | Ok r =>
      exists background,
        pipelineSteps (eventsSince w w') = stepMethods options background
        /\ AIImageProcessor.processingSteps r
           = existingSteps ++ "Using traditional processing pipeline"
                              :: stepLabels options background
        /\ AIImageProcessor.format r = Some AIImageProcessor.FormatPNG
        /\ AIImageProcessor.model r = Some "traditional-pipeline"
        /\ AIImageProcessor.success r = true
        /\ AIImageProcessor.originalImageUri r = imageUri
        /\ (everyFetchFailed env w w' -> background = ProcessedLocally)
        /\ (AIImageProcessor.Options.truthyField
              (AIImageProcessor.Options.removeBackground options) = true ->
            (* the call to removeBackgroundAI, made right after preprocessing *)
            exists currentImageUri before result after,
              pipelineSteps before = [PreprocessForAI]
              /\ AIImageProcessor.removeBackgroundAI env currentImageUri (extend w before)
                 = (Ok result, extend w (before ++ after))
              /\ (exists later, eventsSince w w' = before ++ after ++ later)
              /\ (background = RemovedByAI <-> truthyOpt result = true))
  | Throw _ => False
  | Pending =>
      AIImageProcessor.Options.truthyField
        (AIImageProcessor.Options.removeBackground options) = true
      /\ pipelineSteps (eventsSince w w') = [PreprocessForAI; RemoveBackgroundAI]
      /\ ~ everyFetchFailed env w w'
  end.

(** *** SVG text *)

(** [text] is [pattern] up to the case of ASCII letters. *)
Definition sameIgnoringCase (pattern text : list N) : Prop :=
  Forall2 (fun p c => Js.eqCharCI p c = true) pattern text.

(** [s] contains an opening [<svg] followed, anywhere later, by a closing
    [</svg>], letters in either case: what [/<svg[\s\S]*<\/svg>/i]
    describes. *)
Definition hasSvgFragment (s : list N) : Prop :=
  exists before opening middle closing after,
    s = before ++ opening ++ middle ++ closing ++ after
    /\ sameIgnoringCase (Js.lit "<svg") opening
    /\ sameIgnoringCase (Js.lit "</svg>") closing.

(** [s] opens with an SVG fragment: [<svg] at its head and [</svg>]
    anywhere later, letters in either case. *)
Definition opensWithSvgFragment (s : list N) : Prop :=
  exists opening middle closing after,
    s = opening ++ middle ++ closing ++ after
    /\ sameIgnoringCase (Js.lit "<svg") opening
    /\ sameIgnoringCase (Js.lit "</svg>") closing.

(** The opening of an SVG text that optimizeSVGForTattoo has marked; code
    unit 34 is the double quote. *)
Definition tattooMarker : list N :=
  Js.lit "<svg data-tattoo-design=" ++ [34%N] ++ Js.lit "true" ++ [34%N]
  ++ Js.lit " data-generated-by=" ++ [34%N] ++ Js.lit "starvector" ++ [34%N].

(** A result of local StarVector-inspired processing, if successful, names
    the local model. *)
Definition localResult (r : StarVectorProcessor.StarVectorResult) : Prop :=
  StarVectorProcessor.success r = true ->
  StarVectorProcessor.resultModel r = Some "local-starvector-inspired".

(** A successful result that does not come from local processing (it comes
    from the HuggingFace API or from the local CPU server) carries SVG text
    that opens with [<svg], letters in either case. *)
Definition modelResultOpensWithSvg (r : StarVectorProcessor.StarVectorResult) : Prop :=
  StarVectorProcessor.success r = true ->
  StarVectorProcessor.resultModel r <> Some "local-starvector-inspired" ->
  exists code,
    StarVectorProcessor.svgCode r = Some code
    /\ Js.startsWithCI (Js.lit "<svg") code = true.

(** The shape of a result of imageToSVG or processWithLocalStarVector for
    [imageUri]: a success carries SVG text, a URI and a model and no error,
    and takes expo-file-system; a failure carries an error and nothing
    else. *)
Definition svgResultShape (env : Env) (imageUri : string)
    (r : StarVectorProcessor.StarVectorResult) : Prop :=
  StarVectorProcessor.originalImageUri r = imageUri
  /\ if StarVectorProcessor.success r
     then is_Some (StarVectorProcessor.svgCode r)
          /\ is_Some (StarVectorProcessor.svgUri r)
          /\ StarVectorProcessor.error r = None
          /\ is_Some (StarVectorProcessor.resultModel r)
          /\ FileSystem env = true
     else StarVectorProcessor.svgCode r = None
          /\ StarVectorProcessor.svgUri r = None
          /\ is_Some (StarVectorProcessor.error r)
          /\ StarVectorProcessor.resultModel r = None.

(** The test [usingAPI] of processImageToTattooDesign holds of a successful
    result only if the result comes from local processing. *)
Definition apiTestOnlyOnLocal (r : StarVectorProcessor.StarVectorResult) : Prop :=
  StarVectorProcessor.success r = true ->
  AIImageProcessor.usingAPI (StarVectorProcessor.processingSteps r) = true ->
  StarVectorProcessor.resultModel r = Some "local-starvector-inspired".

(** The shape of a result of processImageToTattooDesign for [imageUri]. *)
Definition designResultShape (imageUri : string)
    (r : AIImageProcessor.ProcessingResult) : Prop :=
  AIImageProcessor.success r = true
  /\ AIImageProcessor.originalImageUri r = imageUri
  /\ AIImageProcessor.error r = None
  /\ is_Some (AIImageProcessor.processedImageUri r)
  /\ ((AIImageProcessor.format r = Some AIImageProcessor.FormatSVG
       /\ is_Some (AIImageProcessor.svgCode r)
       /\ (AIImageProcessor.model r = Some "Enhanced StarVector-inspired (Local)"
           \/ AIImageProcessor.model r = Some "local-starvector-inspired"))
      \/ (AIImageProcessor.format r = Some AIImageProcessor.FormatPNG
          /\ AIImageProcessor.svgCode r = None
          /\ AIImageProcessor.model r = Some "traditional-pipeline")).

(** No request has been sent since [start]. *)
Definition quietSince (start w : World) : Prop :=
  exists events, w = extend start events /\ fetchedUrls events = [].

(** Since [start] an image has been read back as base64 text that
    validateBase64Image accepts, and no request was sent before that. *)
Definition validatedSince (env : Env) (start w : World) : Prop :=
  exists before path data after,
    w = extend start (before ++ ReadAsStringAsync path Base64 :: after)
    /\ fetchedUrls before = []
    /\ readAsStringAsync env (log start ++ before) path Base64 = Resolved data
    /\ StarVectorProcessor.validateBase64Image data = true.

(** The URLs of the HuggingFace inference API. *)
Definition inferenceApi (target : string) : bool :=
  String.prefix "https://api-inference.huggingface.co/models/" target.

(** A request that carries each credential to its own service: the Remove.bg
    key of [keys] to Remove.bg, the ClipDrop key of [keys] to ClipDrop, the
    token [bearer] to the HuggingFace inference API, and none to the local
    CPU server. *)
Definition credentialsToOwnService (keys : Statics) (bearer : string)
    (request : Request) : Prop :=
  (url request = removeBgEndpoint
   /\ headers request = [("X-Api-Key", removeBgKey keys)])
  \/ (url request = clipDropEndpoint
      /\ headers request = [("x-api-key", clipdropKey keys)])
  \/ (inferenceApi (url request) = true
      /\ headers request = [("Authorization", Some ("Bearer " +:+ bearer));
                            ("Content-Type", Some "application/json")])
  \/ (localServer (url request) = true
      /\ Forall (fun header => fst header = "Content-Type") (headers request)).

(** An event that, if it is a request, is one that [allowed] accepts. *)
Definition sends (allowed : Request -> Prop) (e : Event) : Prop :=
  match e with
  | Fetch request => allowed request
  | _ => True
  end.

(** Every request sent since [start] carries each credential to its own
    service, the keys being the ones configured at [start]. *)
Definition credentialsKept (bearer : string) (start w : World) : Prop :=
  exists events,
    w = extend start events
    /\ Forall (sends (credentialsToOwnService (statics start) bearer)) events.

(** A postcondition that constrains resolved values only. *)
Definition okThen {S A} (P : A -> Prop) (o : Outcome A) (s : S) : Prop :=
  match o with
  | Ok a => P a
  | _ => True
  end.

(** *** The design store *)

Section Store.
Import DesignManager.
Variable toISOString : Z -> string.
Variable writeFails : nat -> bool.

(** The list a caller gets from getCustomDesigns in state [st]. *)
Definition listed (st : State) : list Design :=
  match fst (getCustomDesigns toISOString st) with
  | Ok designs => designs
  | _ => []
  end.

(** The form in which a saved design comes back from the store of [st]. *)
Definition persisted (st : State) (d : Design) : Design :=
  match AsyncStorage st with
  | Some _ => jsonImage toISOString d
  | None => d
  end.

(** The texts held under keys other than [key] are the same in both states. *)
Definition otherKeysUntouched (key : string) (st st' : State) : Prop :=
  match AsyncStorage st, AsyncStorage st' with
  | Some store, Some store' => forall k, k <> key -> store' !! k = store !! k
  | None, None => True
  | _, _ => False
  end.

(** An AsyncStorage-backed state and an in-memory state that hold the same
    designs, the former in their JSON form. *)
Definition sameDesignsUpToJson (backed fallback : State) : Prop :=
  is_Some (AsyncStorage backed)
  /\ AsyncStorage fallback = None
  /\ listed backed = map (jsonImage toISOString) (memoryStorage fallback).

(** The operation completed (it neither threw nor hung). *)
Definition completes (o : Observation) : Prop :=
  match o with
  | Completed | Listed _ => True
  | Failed _ | Stuck => False
  end.

Definition imageOfObservation (o : Observation) : Observation :=
  match o with
  | Listed designs => Listed (map (jsonImage toISOString) designs)
  | other => other
  end.

End Store.

End Spec.

(** ** Concrete inputs used by the examples *)

Module Examples.
Import Platform.

(** A design as the capture screen builds it, with [createdAt: new Date()]. *)
Definition capturedDesign : DesignManager.Design :=
  {| DesignManager.id := "user_1700000000000";
     DesignManager.name := "AI Design 11/14/2023";
     DesignManager.uri := "file:///docs/tattoo_design_1.png";
     DesignManager.category := Some "Custom";
     DesignManager.isUserGenerated := Some true;
     DesignManager.originalImageUri := Some "file:///cache/photo.jpg";
     DesignManager.createdAt := Some (DesignManager.DateObject 1700000000000) |}.

Definition otherDesign : DesignManager.Design :=
  {| DesignManager.id := "user_1600000000000";
     DesignManager.name := "AI Design 9/13/2020";
     DesignManager.uri := "file:///docs/tattoo_design_0.png";
     DesignManager.category := Some "Custom";
     DesignManager.isUserGenerated := Some true;
     DesignManager.originalImageUri := None;
     DesignManager.createdAt := Some (DesignManager.DateString "2020-09-13T12:26:40.000Z") |}.

(** A stand-in for Date.prototype.toISOString in the examples. *)
Definition isoText (time : Z) : string := "T" +:+ showZ time.

Definition noWriteFails (n : nat) : bool := false.

(** AsyncStorage loaded and empty; AsyncStorage loaded and holding one
    design; AsyncStorage missing. *)
Definition emptyAsyncStore : DesignManager.State :=
  {| DesignManager.AsyncStorage := Some ∅;
     DesignManager.memoryStorage := [];
     DesignManager.writes := 0 |}.

Definition asyncStoreWithOne : DesignManager.State :=
  {| DesignManager.AsyncStorage :=
       Some {[ DesignManager.CUSTOM_DESIGNS_KEY :=
                 DesignManager.JsonDesigns [otherDesign] ]};
     DesignManager.memoryStorage := [];
     DesignManager.writes := 0 |}.

Definition emptyMemoryStore : DesignManager.State :=
  {| DesignManager.AsyncStorage := None;
     DesignManager.memoryStorage := [];
     DesignManager.writes := 0 |}.

(** AsyncStorage holding two designs that carry a creation date. *)
Definition asyncStoreWithTwo : DesignManager.State :=
  {| DesignManager.AsyncStorage :=
       Some {[ DesignManager.CUSTOM_DESIGNS_KEY :=
                 DesignManager.JsonDesigns [capturedDesign; otherDesign] ]};
     DesignManager.memoryStorage := [];
     DesignManager.writes := 0 |}.

(** AsyncStorage holding, under the key of the designs, a text that is not
    JSON. *)
Definition corruptedAsyncStore : DesignManager.State :=
  {| DesignManager.AsyncStorage :=
       Some {[ DesignManager.CUSTOM_DESIGNS_KEY := DesignManager.Unparseable "[{" ]};
     DesignManager.memoryStorage := [];
     DesignManager.writes := 0 |}.

(** A second design of the capture screen, made earlier. *)
Definition earlierDesign : DesignManager.Design :=
  {| DesignManager.id := "user_1650000000000";
     DesignManager.name := "AI Design 4/15/2022";
     DesignManager.uri := "file:///docs/tattoo_design_2.png";
     DesignManager.category := Some "Custom";
     DesignManager.isUserGenerated := Some true;
     DesignManager.originalImageUri := Some "file:///cache/photo2.jpg";
     DesignManager.createdAt := Some (DesignManager.DateObject 1650000000000) |}.

(** The in-memory fallback holding two designs of the capture screen. *)
Definition memoryStoreWithTwo : DesignManager.State :=
  {| DesignManager.AsyncStorage := None;
     DesignManager.memoryStorage := [capturedDesign; earlierDesign];
     DesignManager.writes := 0 |}.

(** The store with one design after the capture screen has saved another,
    and after the older one has been deleted; the store once cleared. *)
Definition asyncStoreAfterSave : DesignManager.State :=
  snd (DesignManager.saveCustomDesign isoText noWriteFails capturedDesign asyncStoreWithOne).

Definition asyncStoreAfterDelete : DesignManager.State :=
  snd (DesignManager.deleteCustomDesign isoText noWriteFails "user_1600000000000"
         asyncStoreWithTwo).

Definition asyncStoreAfterClear : DesignManager.State :=
  snd (DesignManager.clearAllCustomDesigns noWriteFails asyncStoreWithTwo).

(** *** Environments of the processors *)

Definition photo : string := "file:///cache/photo.jpg".

(** A service response: 200 with an image body. *)
Definition imageResponse : Response :=
  {| ok := true; status := 200; json := Rejected "Unexpected token";
     text := Rejected "body is not text"; blob := Resolved "blob:1" |}.

(** The HuggingFace chat endpoint answering with SVG markup in capitals,
    wrapped in a sentence. *)
Definition chatResponse : Response :=
  {| ok := true; status := 200;
     json := Resolved (VObj
       [("choices", VArr
          [VObj [("message", VObj
             [("role", VStr (Js.lit "assistant"));
              ("content", VStr (Js.lit "Here it is: <SVG><PATH D='M0 0'/></SVG> Enjoy."))])]])]);
     text := Rejected "body used already"; blob := Rejected "not an image" |}.

(** A device on which every library call succeeds.  [modules] tells which of
    expo-image-manipulator and expo-file-system load, [writes] whether the
    file system accepts writes. *)
Definition device (imageManipulator fileSystem huggingFace writes : bool)
    (response : Response) : Env :=
  {| requireImageManipulator := imageManipulator;
     requireFileSystem := fileSystem;
     requireHfInference := huggingFace;
     documentDirectory := "file:///docs/";
     configHuggingFace := "hf_token";
     manipulateAsync := fun _ source _ _ =>
       Resolved {| uri := source +:+ "#edited"; width := 1200; height := 900 |};
     readAsStringAsync := fun _ _ _ => Resolved StarVectorProcessor.simpleGeometricPNG;
     writeAsStringAsync := fun _ _ _ _ =>
       if writes then Resolved tt else Rejected "No space left on device";
     deleteAsync := fun _ _ => Resolved tt;
     fetch := fun _ _ => Resolved response;
     readAsDataURL := fun _ _ => Some "data:image/png;base64,iVBORw0KGgo=";
     dateNow := fun history => (1700000000000 + Z.of_nat (length history))%Z;
     newHfInference := fun _ _ => Resolved tt;
     svgTemplate := fun _ _ => Js.lit "<svg><circle r='3'/></svg>" |}.

Definition freshWorld : World := {| statics := initialStatics; log := [] |}.

(** expo-image-manipulator present, expo-file-system missing. *)
Definition deviceWithoutFileSystem : Env := device true false false true imageResponse.

(** Both modules present, the storage full. *)
Definition deviceWithFullStorage : Env := device true true false false imageResponse.

(** Neither module present. *)
Definition deviceWithoutModules : Env := device false false false true imageResponse.

(** Everything present, HuggingFace answering. *)
Definition deviceWithHuggingFace : Env := device true true true true chatResponse.

(** The world after the capture screen has configured a Remove.bg key. *)
Definition worldWithRemoveBgKey (env : Env) : World :=
  snd (AIImageProcessor.setAPIKeys env
         {| AIImageProcessor.codiaAI := Some "";
            AIImageProcessor.removeBG := Some "rbg_key";
            AIImageProcessor.clipdrop := Some "";
            AIImageProcessor.huggingFace := Some "" |} false freshWorld).

(** The world after the capture screen has configured a HuggingFace token. *)
Definition worldWithHuggingFace (env : Env) : World :=
  snd (AIImageProcessor.setAPIKeys env
         {| AIImageProcessor.codiaAI := Some "";
            AIImageProcessor.removeBG := Some "";
            AIImageProcessor.clipdrop := Some "";
            AIImageProcessor.huggingFace := Some "hf_token" |} false freshWorld).

(** Options that switch StarVector off. *)
Definition withoutStarVector : AIImageProcessor.ProcessingOptions :=
  {| AIImageProcessor.Options.removeBackground := AIImageProcessor.Absent;
     AIImageProcessor.Options.enhanceEdges := AIImageProcessor.Absent;
     AIImageProcessor.Options.convertToLineArt := AIImageProcessor.Absent;
     AIImageProcessor.Options.autoContrast := AIImageProcessor.Absent;
     AIImageProcessor.Options.smartCrop := AIImageProcessor.Absent;
     AIImageProcessor.Options.useAI := AIImageProcessor.Absent;
     AIImageProcessor.Options.outputFormat := AIImageProcessor.Absent;
     AIImageProcessor.Options.useStarVector := AIImageProcessor.Given false;
     AIImageProcessor.Options.starVectorModel := AIImageProcessor.Absent;
     AIImageProcessor.Options.fallbackToLocal := AIImageProcessor.Absent;
     AIImageProcessor.Options.useCPUMode := AIImageProcessor.Absent |}.

(** Options that set the four properties that no method reads. *)
Definition unreadOptions : AIImageProcessor.ProcessingOptions :=
  {| AIImageProcessor.Options.removeBackground := AIImageProcessor.Absent;
     AIImageProcessor.Options.enhanceEdges := AIImageProcessor.Given false;
     AIImageProcessor.Options.convertToLineArt := AIImageProcessor.Absent;
     AIImageProcessor.Options.autoContrast := AIImageProcessor.Absent;
     AIImageProcessor.Options.smartCrop := AIImageProcessor.Absent;
     AIImageProcessor.Options.useAI := AIImageProcessor.Given false;
     AIImageProcessor.Options.outputFormat :=
       AIImageProcessor.Given AIImageProcessor.FormatPNG;
     AIImageProcessor.Options.useStarVector := AIImageProcessor.Absent;
     AIImageProcessor.Options.starVectorModel := AIImageProcessor.Absent;
     AIImageProcessor.Options.fallbackToLocal := AIImageProcessor.Absent;
     AIImageProcessor.Options.useCPUMode := AIImageProcessor.Given true |}.

(** Options that switch background removal off. *)
Definition withoutBackgroundRemoval : AIImageProcessor.ProcessingOptions :=
  {| AIImageProcessor.Options.removeBackground := AIImageProcessor.Given false;
     AIImageProcessor.Options.enhanceEdges := AIImageProcessor.Absent;
     AIImageProcessor.Options.convertToLineArt := AIImageProcessor.Absent;
     AIImageProcessor.Options.autoContrast := AIImageProcessor.Absent;
     AIImageProcessor.Options.smartCrop := AIImageProcessor.Absent;
     AIImageProcessor.Options.useAI := AIImageProcessor.Absent;
     AIImageProcessor.Options.outputFormat := AIImageProcessor.Absent;
     AIImageProcessor.Options.useStarVector := AIImageProcessor.Absent;
     AIImageProcessor.Options.starVectorModel := AIImageProcessor.Absent;
     AIImageProcessor.Options.fallbackToLocal := AIImageProcessor.Absent;
     AIImageProcessor.Options.useCPUMode := AIImageProcessor.Absent |}.

(** A model response that wraps SVG markup in a sentence, and the markup. *)
Definition wrappedSvg : list N := Js.lit "Here it is: <SVG><PATH D='M0 0'/></SVG> Enjoy.".
Definition bareSvg : list N := Js.lit "<SVG><PATH D='M0 0'/></SVG>".

End Examples.

(** * Properties *)

(** ** Regular expressions and SVG validation *)

Section JsFacts.
Import Js Spec.

Lemma eqCharCI_cases p c :
  eqCharCI p c = true ->
  c = p \/ (c = p + 32 /\ 65 <= p <= 90)%N \/ (p = c + 32 /\ 65 <= c <= 90)%N
  \/ (97 <= c <= 122 /\ 97 <= p <= 122 /\ c = p)%N.
Proof.
  unfold eqCharCI, canonicalize.
  destruct (N.leb_spec 97 c), (N.leb_spec c 122), (N.leb_spec 97 p), (N.leb_spec p 122);
    cbn; intros Heq; apply N.eqb_eq in Heq; lia.
Qed.

(** None of the characters that can open an SVG tag is a line feed or a
    closing angle bracket, so no replacement of the clean-up starts there. *)
Lemma svg_head_char p c :
  In p (lit "<svg") -> eqCharCI p c = true ->
  eqChar 10 c = false /\ eqChar 62 c = false.
Proof.
  intros Hin H. apply eqCharCI_cases in H. unfold eqChar.
  rewrite !N.eqb_neq.
  cbn in Hin. destruct Hin as [<-|[<-|[<-|[<-|[]]]]]; lia.
Qed.

Lemma replaceAll_head re replacement c t :
  re (c :: t) = None ->
  replaceAll re replacement (c :: t) = c :: replaceAll re replacement t.
Proof. unfold replaceAll. cbn. intros ->. reflexivity. Qed.

Lemma m_chr_reject p k c t : p c = false -> m_chr p k (c :: t) = None.
Proof. cbn. intros ->. reflexivity. Qed.

Lemma startsWithCI_cons a pattern c s :
  startsWithCI (a :: pattern) (c :: s) = eqCharCI a c && startsWithCI pattern s.
Proof. reflexivity. Qed.

Lemma startsWithCI_svg_inv s :
  startsWithCI (lit "<svg") s = true ->
  exists c0 c1 c2 c3 rest,
    s = c0 :: c1 :: c2 :: c3 :: rest
    /\ eqCharCI 60 c0 = true /\ eqCharCI 115 c1 = true
    /\ eqCharCI 118 c2 = true /\ eqCharCI 103 c3 = true.
Proof.
  change (lit "<svg") with [60; 115; 118; 103]%N.
  destruct s as [|c0 [|c1 [|c2 [|c3 rest]]]];
    rewrite ?startsWithCI_cons; cbn [startsWithCI];
    rewrite ?andb_false_r; try discriminate.
  rewrite !andb_true_iff. intros (H0 & H1 & H2 & H3 & _). eauto 10.
Qed.

(** A clean-up replacement whose pattern starts with a line feed or with [>]
    leaves an opening [<svg] where it is. *)
Lemma replaceAll_keeps_svg_head (first : N) k replacement s :
  first = 10%N \/ first = 62%N ->
  startsWithCI (lit "<svg") s = true ->
  startsWithCI (lit "<svg") (replaceAll (m_chr (eqChar first) k) replacement s) = true.
Proof.
  intros Hfirst Hs.
  assert (Hrej : forall p c t, In p (lit "<svg") -> eqCharCI p c = true ->
            m_chr (eqChar first) k (c :: t) = None).
  { intros p c t Hin Hc. apply m_chr_reject.
    destruct (svg_head_char p c Hin Hc) as [H10 H62]. destruct Hfirst; subst; assumption. }
  apply startsWithCI_svg_inv in Hs as (c0 & c1 & c2 & c3 & rest & -> & H0 & H1 & H2 & H3).
  rewrite (replaceAll_head _ _ c0) by (eapply (Hrej 60%N); [cbn; tauto | exact H0]).
  rewrite (replaceAll_head _ _ c1) by (eapply (Hrej 115%N); [cbn; tauto | exact H1]).
  rewrite (replaceAll_head _ _ c2) by (eapply (Hrej 118%N); [cbn; tauto | exact H2]).
  rewrite (replaceAll_head _ _ c3) by (eapply (Hrej 103%N); [cbn; tauto | exact H3]).
  change (lit "<svg") with [60; 115; 118; 103]%N.
  rewrite !startsWithCI_cons, H0, H1, H2, H3. reflexivity.
Qed.

Lemma startsWith_startsWithCI p s :
  startsWith p s = true -> startsWithCI p s = true.
Proof.
  revert s. induction p as [|a p IH]; intros [|c s]; cbn; try easy.
  rewrite !andb_true_iff. intros [Hc Hs]. apply N.eqb_eq in Hc. subst c.
  split; [unfold eqCharCI; apply N.eqb_refl | auto].
Qed.

(** The text of a match of a pattern that begins with literal characters
    begins with these characters, up to case. *)
Lemma m_seq_match_head pattern k s n :
  m_seq (map eqCharCI pattern) k s = Some n ->
  startsWithCI pattern (take n s) = true.
Proof.
  revert s n. induction pattern as [|a pattern IH]; intros s n; cbn [m_seq map].
  - destruct (take n s); reflexivity.
  - unfold m_chr at 1. destruct s as [|c t]; [discriminate|].
    destruct (eqCharCI a c) eqn:Hc; [|discriminate].
    destruct (m_seq (map eqCharCI pattern) k t) as [n'|] eqn:Hk; [|discriminate].
    intros Hn. injection Hn as <-. cbn [take]. rewrite startsWithCI_cons, Hc. cbn. eauto.
Qed.

Lemma regexMatch_Some re s found :
  regexMatch re s = Some found ->
  exists before rest n, s = before ++ rest /\ re rest = Some n /\ found = take n rest.
Proof.
  induction s as [|c t IH]; cbn.
  - destruct (re []) as [n|] eqn:Hre; [|discriminate].
    intros [= <-]. exists [], [], n. auto.
  - destruct (re (c :: t)) as [n|] eqn:Hre.
    + intros [= <-]. exists [], (c :: t), n. auto.
    + intros H. destruct (IH H) as (before & rest & n & -> & Hn & ->).
      exists (c :: before), rest, n. auto.
Qed.

Lemma regexMatch_None re s :
  regexMatch re s = None <-> forall before rest, s = before ++ rest -> re rest = None.
Proof.
  induction s as [|c t IH]; cbn.
  - destruct (re []) as [n|] eqn:Hre.
    + split; [discriminate|]. intros H. specialize (H [] [] eq_refl). congruence.
    + split; [|reflexivity]. intros _ before rest H.
      symmetry in H. apply app_eq_nil in H as [-> ->]. exact Hre.
  - destruct (re (c :: t)) as [n|] eqn:Hre.
    + split; [discriminate|]. intros H. specialize (H [] (c :: t) eq_refl). congruence.
    + rewrite IH. split.
      * intros H [|b before] rest Heq; cbn in Heq.
        -- subst rest. exact Hre.
        -- injection Heq as -> ->. eapply H. reflexivity.
      * intros H before rest ->. apply (H (c :: before)). reflexivity.
Qed.

Lemma m_seq_is_Some pattern k s :
  is_Some (m_seq (map eqCharCI pattern) k s) <->
  exists text rest, s = text ++ rest /\ sameIgnoringCase pattern text /\ is_Some (k rest).
Proof.
  unfold sameIgnoringCase. revert s.
  induction pattern as [|a pattern IH]; intros s; cbn [m_seq map].
  - split.
    + intros H. exists [], s. repeat split; [constructor | exact H].
    + intros (text & rest & -> & Htext & H). inversion Htext. exact H.
  - unfold m_chr at 1. destruct s as [|c t].
    + split; [intros [? [=]]|].
      intros (text & rest & Heq & Htext & _). inversion Htext; subst. discriminate.
    + destruct (eqCharCI a c) eqn:Hc.
      * rewrite fmap_is_Some, IH. split.
        -- intros (text & rest & -> & Htext & H).
           exists (c :: text), rest. repeat split; [constructor; assumption | assumption].
        -- intros (text & rest & Heq & Htext & H).
           inversion Htext as [|? c' ? text' ? Htext']; subst. injection Heq as <- ->.
           exists text', rest. auto.
      * split; [intros [? [=]]|].
        intros (text & rest & Heq & Htext & _).
        inversion Htext as [|? c' ? text' Hc' ?]; subst. injection Heq as <- ->. congruence.
Qed.

Lemma anyChar_true c : anyChar c = true.
Proof. unfold anyChar. destruct (isWhiteSpace c); reflexivity. Qed.

Lemma m_star_any_is_Some k s :
  is_Some (m_star anyChar k s) <-> exists middle rest, s = middle ++ rest /\ is_Some (k rest).
Proof.
  induction s as [|c t IH]; cbn.
  - split.
    + intros H. exists [], []. auto.
    + intros (middle & rest & Heq & H). symmetry in Heq.
      apply app_eq_nil in Heq as [-> ->]. exact H.
  - rewrite anyChar_true. destruct (m_star anyChar k t) as [n|] eqn:Hstar.
    + split; [|intros _; eexists; reflexivity].
      intros _. destruct IH as [IH _].
      destruct (IH (ex_intro _ n eq_refl)) as (middle & rest & -> & H).
      exists (c :: middle), rest. auto.
    + split.
      * intros H. exists [], (c :: t). auto.
      * intros ([|b middle] & rest & Heq & H); cbn in Heq.
        -- subst rest. exact H.
        -- injection Heq as -> ->. destruct IH as [_ IH].
           destruct IH as [? [=]]. eauto.
Qed.

(** The greedy expression of validateAndCleanSVG matches at the head of a
    text exactly when the text opens with [<svg] and a [</svg>] follows. *)
Lemma reSvgGreedy_is_Some s :
  is_Some (reSvgGreedy s) <->
  exists opening middle closing after,
    s = opening ++ middle ++ closing ++ after
    /\ sameIgnoringCase (lit "<svg") opening
    /\ sameIgnoringCase (lit "</svg>") closing.
Proof.
  unfold reSvgGreedy. rewrite m_seq_is_Some. split.
  - intros (opening & rest & -> & Hopen & H).
    apply m_star_any_is_Some in H as (middle & rest' & -> & H).
    apply m_seq_is_Some in H as (closing & after & -> & Hclose & _).
    exists opening, middle, closing, after. auto.
  - intros (opening & middle & closing & after & -> & Hopen & Hclose).
    exists opening, (middle ++ closing ++ after). repeat split; [assumption|].
    apply m_star_any_is_Some. exists middle, (closing ++ after). split; [reflexivity|].
    apply m_seq_is_Some. exists closing, after. repeat split; [assumption|].
    eexists; reflexivity.
Qed.

Lemma regexMatch_reSvgGreedy_None s :
  regexMatch reSvgGreedy s = None <-> ~ hasSvgFragment s.
Proof.
  rewrite regexMatch_None. unfold hasSvgFragment. split.
  - intros H (before & opening & middle & closing & after & -> & Hopen & Hclose).
    specialize (H before _ eq_refl).
    assert (Hs : is_Some (reSvgGreedy (opening ++ middle ++ closing ++ after))).
    { apply reSvgGreedy_is_Some. eauto 10. }
    rewrite H in Hs. destruct Hs as [? [=]].
  - intros H before rest ->.
    destruct (reSvgGreedy rest) as [n|] eqn:Hre; [|reflexivity].
    exfalso. apply H.
    assert (Hs : is_Some (reSvgGreedy rest)) by (rewrite Hre; eexists; reflexivity).
    apply reSvgGreedy_is_Some in Hs as (opening & middle & closing & after & -> & ? & ?).
    eauto 10.
Qed.

Lemma regexMatch_svg_head re_tail s found :
  regexMatch (m_seq (map eqCharCI (lit "<svg")) re_tail) s = Some found ->
  startsWithCI (lit "<svg") found = true.
Proof.
  intros H. apply regexMatch_Some in H as (before & rest & n & -> & Hn & ->).
  eapply m_seq_match_head. exact Hn.
Qed.

End JsFacts.

Section SvgFacts.
Import Js Spec Svg.

Lemma validateAndCleanSVG_head svgCode cleaned :
  validateAndCleanSVG svgCode = Ok cleaned ->
  startsWithCI (lit "<svg") cleaned = true.
Proof.
  unfold validateAndCleanSVG.
  assert (Hclean : forall text,
            startsWithCI (lit "<svg") text = true ->
            startsWithCI (lit "<svg")
              (replaceAll reTagGap (lit "><")
                 (replaceAll reBlankLines (lit (String "010" "")) text)) = true).
  { intros text Htext. unfold reTagGap, reBlankLines.
    apply replaceAll_keeps_svg_head; [right; reflexivity|].
    apply replaceAll_keeps_svg_head; [left; reflexivity | exact Htext]. }
  destruct (startsWith (lit "<svg") (trim svgCode)) eqn:Hstart; cbn [negb].
  - intros [= <-]. apply Hclean, startsWith_startsWithCI, Hstart.
  - destruct (regexMatch reSvgGreedy (trim svgCode)) as [found|] eqn:Hmatch; [|discriminate].
    intros [= <-]. apply Hclean. unfold reSvgGreedy in Hmatch.
    eapply regexMatch_svg_head. exact Hmatch.
Qed.

Lemma validateAndCleanSVG_throws svgCode message :
  validateAndCleanSVG svgCode = Throw message <->
  message = "Invalid SVG code generated"
  /\ startsWith (lit "<svg") (trim svgCode) = false
  /\ ~ hasSvgFragment (trim svgCode).
Proof.
  rewrite <- regexMatch_reSvgGreedy_None. unfold validateAndCleanSVG.
  destruct (startsWith (lit "<svg") (trim svgCode)); cbn [negb].
  - split; [discriminate | intros (_ & [=] & _)].
  - destruct (regexMatch reSvgGreedy (trim svgCode)).
    + split; [discriminate | intros (_ & _ & [=])].
    + split; [intros [= <-]; auto | intros (-> & _); reflexivity].
Qed.

Lemma validateAndCleanSVG_settles svgCode : validateAndCleanSVG svgCode <> Pending.
Proof.
  unfold validateAndCleanSVG.
  destruct (startsWith (lit "<svg") (trim svgCode)); cbn [negb]; [discriminate|].
  destruct (regexMatch reSvgGreedy (trim svgCode)); discriminate.
Qed.

(** The same for a value of any type, as the callers pass it. *)
Lemma validateAndCleanSVG_value_head value cleaned :
  StarVectorProcessor.validateAndCleanSVG value = Ok cleaned ->
  startsWithCI (lit "<svg") cleaned = true.
Proof.
  destruct value; cbn; try discriminate. apply validateAndCleanSVG_head.
Qed.

Lemma validateAndCleanSVG_value_settles value :
  StarVectorProcessor.validateAndCleanSVG value <> Pending.
Proof. destruct value; cbn; try discriminate. apply validateAndCleanSVG_settles. Qed.

Lemma extractSVGFromResponse_settles value :
  StarVectorProcessor.extractSVGFromResponse value <> Pending.
Proof. destruct value; discriminate. Qed.

Lemma prop_settles key value : Platform.prop key value <> Pending.
Proof. destruct value; discriminate. Qed.

End SvgFacts.

(** ** The design store *)

Section DesignStore.
Import DesignManager Spec.
Variable toISOString : Z -> string.
Variable writeFails : nat -> bool.

Local Abbreviation jsonImage := (jsonImage toISOString).
Local Abbreviation listed := (listed toISOString).
Local Abbreviation persisted := (persisted toISOString).

Lemma jsonImage_idempotent d : jsonImage (jsonImage d) = jsonImage d.
Proof. destruct d as [? ? ? ? ? ? [[?|?]|]]; reflexivity. Qed.

Lemma jsonImage_id d : id (jsonImage d) = id d.
Proof. reflexivity. Qed.

Lemma map_jsonImage_idempotent l : map jsonImage (map jsonImage l) = map jsonImage l.
Proof. rewrite map_map. apply map_ext. intros d. apply jsonImage_idempotent. Qed.

(** getCustomDesigns resolves in every state and changes nothing. *)
Lemma getCustomDesigns_total st :
  getCustomDesigns toISOString st = (Ok (listed st), st).
Proof.
  unfold Spec.listed, getCustomDesigns, tryCatch, bind, gets, getItem, ret.
  destruct (AsyncStorage st) as [store|]; cbn; [|reflexivity].
  destruct (store !! CUSTOM_DESIGNS_KEY) as [text|]; cbn; [|reflexivity].
  destruct (truthyText text); [|reflexivity].
  destruct text; reflexivity.
Qed.

(** What a state with AsyncStorage lists is the parse of a JSON text. *)
Lemma listed_async_stable st store :
  AsyncStorage st = Some store -> map jsonImage (listed st) = listed st.
Proof.
  intros Hst.
  unfold Spec.listed, getCustomDesigns, tryCatch, bind, gets, getItem, ret.
  rewrite Hst. cbn.
  destruct (store !! CUSTOM_DESIGNS_KEY) as [text|]; cbn; [|reflexivity].
  destruct (truthyText text); [|reflexivity].
  destruct text; cbn; [apply map_jsonImage_idempotent | reflexivity].
Qed.

Lemma listed_memory st :
  AsyncStorage st = None -> listed st = memoryStorage st.
Proof.
  intros Hst. unfold Spec.listed, getCustomDesigns, tryCatch, bind, gets.
  rewrite Hst. reflexivity.
Qed.

Lemma listed_after_setItem st store designs :
  AsyncStorage st = Some store ->
  listed {| AsyncStorage := Some (<[CUSTOM_DESIGNS_KEY := JSON_stringify toISOString designs]> store);
            memoryStorage := memoryStorage st; writes := S (writes st) |}
  = map jsonImage designs.
Proof.
  intros _. unfold Spec.listed, getCustomDesigns, tryCatch, bind, gets, getItem, ret.
  cbn. rewrite lookup_insert_eq. cbn. apply map_jsonImage_idempotent.
Qed.

(** saveCustomDesign and deleteCustomDesign, case by case: the list that is
    written back is [design :: listed st], respectively the filtered list. *)
Lemma saveCustomDesign_unfold design st :
  saveCustomDesign toISOString writeFails design st =
  match AsyncStorage st with
  | Some store =>
      if writeFails (writes st) then
        (Throw "Failed to save design",
         {| AsyncStorage := Some store; memoryStorage := memoryStorage st;
            writes := S (writes st) |})
      else
        (Ok tt,
         {| AsyncStorage :=
              Some (<[CUSTOM_DESIGNS_KEY :=
                        JSON_stringify toISOString (design :: listed st)]> store);
            memoryStorage := memoryStorage st; writes := S (writes st) |})
  | None =>
      (Ok tt, {| AsyncStorage := None; memoryStorage := design :: listed st;
                 writes := writes st |})
  end.
Proof.
  unfold saveCustomDesign, tryCatch at 1, bind at 1.
  rewrite getCustomDesigns_total.
  unfold bind, gets, setItem, attemptWrite, setMemoryStorage, modify, throw.
  destruct (AsyncStorage st) as [store|] eqn:Hst; cbn; rewrite ?Hst; [|reflexivity].
  destruct (writeFails (writes st)); cbn; rewrite ?Hst; reflexivity.
Qed.

Lemma deleteCustomDesign_unfold designId st :
  deleteCustomDesign toISOString writeFails designId st =
  let updated := filter (fun design => id design <> designId) (listed st) in
  match AsyncStorage st with
  | Some store =>
      if writeFails (writes st) then
        (Throw "Failed to delete design",
         {| AsyncStorage := Some store; memoryStorage := memoryStorage st;
            writes := S (writes st) |})
      else
        (Ok tt,
         {| AsyncStorage :=
              Some (<[CUSTOM_DESIGNS_KEY := JSON_stringify toISOString updated]> store);
            memoryStorage := memoryStorage st; writes := S (writes st) |})
  | None =>
      (Ok tt, {| AsyncStorage := None; memoryStorage := updated; writes := writes st |})
  end.
Proof.
  unfold deleteCustomDesign, tryCatch at 1, bind at 1.
  rewrite getCustomDesigns_total.
  unfold bind, gets, setItem, attemptWrite, setMemoryStorage, modify, throw.
  destruct (AsyncStorage st) as [store|] eqn:Hst; cbn; rewrite ?Hst; [|reflexivity].
  destruct (writeFails (writes st)); cbn; rewrite ?Hst; reflexivity.
Qed.

Lemma clearAllCustomDesigns_unfold st :
  clearAllCustomDesigns writeFails st =
  match AsyncStorage st with
  | Some store =>
      if writeFails (writes st) then
        (Throw "Failed to clear designs",
         {| AsyncStorage := Some store; memoryStorage := memoryStorage st;
            writes := S (writes st) |})
      else
        (Ok tt,
         {| AsyncStorage := Some (delete CUSTOM_DESIGNS_KEY store);
            memoryStorage := memoryStorage st; writes := S (writes st) |})
  | None =>
      (Ok tt, {| AsyncStorage := None; memoryStorage := []; writes := writes st |})
  end.
Proof.
  unfold clearAllCustomDesigns, tryCatch, bind, gets, removeItem, attemptWrite,
    setMemoryStorage, modify, throw.
  destruct (AsyncStorage st) as [store|] eqn:Hst; cbn; rewrite ?Hst; [|reflexivity].
  destruct (writeFails (writes st)); cbn; rewrite ?Hst; reflexivity.
Qed.

Lemma listed_after_removeItem st store :
  listed {| AsyncStorage := Some (delete CUSTOM_DESIGNS_KEY store);
            memoryStorage := memoryStorage st; writes := S (writes st) |} = [].
Proof.
  unfold Spec.listed, getCustomDesigns, tryCatch, bind, gets, getItem, ret.
  cbn. rewrite lookup_delete_eq. reflexivity.
Qed.

Lemma filter_jsonImage designId l :
  filter (fun design => id design <> designId) (map jsonImage l)
  = map jsonImage (filter (fun design => id design <> designId) l).
Proof.
  induction l as [|d l IH]; [reflexivity|].
  cbn [map]. rewrite !filter_cons, jsonImage_id.
  destruct (decide (id d <> designId)); cbn [map]; rewrite IH; reflexivity.
Qed.

Lemma filter_stable designId l :
  map jsonImage l = l ->
  map jsonImage (filter (fun design => id design <> designId) l)
  = filter (fun design => id design <> designId) l.
Proof. intros H. rewrite <- filter_jsonImage, H. reflexivity. Qed.



End DesignStore.

Section BackEnds.
Import DesignManager Spec.
Variable toISOString : Z -> string.
Variable writeFails : nat -> bool.

Lemma perform_simulation (writesSucceed : nat -> bool) op backed fallback :
  (forall n, writesSucceed n = false) ->
  sameDesignsUpToJson toISOString backed fallback ->
  fst (perform toISOString writesSucceed op backed)
    = imageOfObservation toISOString (fst (perform toISOString writeFails op fallback))
  /\ completes (fst (perform toISOString writeFails op fallback))
  /\ sameDesignsUpToJson toISOString
       (snd (perform toISOString writesSucceed op backed))
       (snd (perform toISOString writeFails op fallback)).
Proof.
  intros Hok ([store Hst] & Hmem & Hlist). unfold sameDesignsUpToJson.
  pose proof (listed_async_stable toISOString backed store Hst) as Hstable.
  pose proof (listed_memory toISOString fallback Hmem) as Hfallback.
  destruct op as [design| |designId|]; cbn [perform].
  - rewrite !saveCustomDesign_unfold, Hst, Hmem, Hok. cbn.
    repeat split; [eexists; reflexivity|].
    rewrite (listed_after_setItem toISOString backed store _ Hst). cbn [map].
    rewrite Hstable, Hlist, Hfallback. reflexivity.
  - rewrite !getCustomDesigns_total. cbn.
    rewrite Hlist, Hfallback.
    repeat split; [eexists; exact Hst | assumption].
  - rewrite !deleteCustomDesign_unfold, Hst, Hmem, Hok. cbn.
    repeat split; [eexists; reflexivity|].
    rewrite (listed_after_setItem toISOString backed store _ Hst).
    rewrite (filter_stable toISOString _ _ Hstable).
    rewrite Hlist, Hfallback. apply filter_jsonImage.
  - rewrite !clearAllCustomDesigns_unfold, Hst, Hmem, Hok. cbn.
    repeat split; [eexists; reflexivity|].
    apply listed_after_removeItem.
Qed.


End BackEnds.

Section DesignStoreExamples.
Import DesignManager Spec Examples.






End DesignStoreExamples.

(** ** Rules for reasoning about the computations *)

Section Rules.
Import Platform Spec.
Context {S : Type}.

Lemma NoThrow_ret {A} (a : A) : NoThrow (S := S) (ret a).
Proof. intros s e. discriminate. Qed.

Lemma NoThrow_gets {A} (f : S -> A) : NoThrow (gets f).
Proof. intros s e. discriminate. Qed.

Lemma NoThrow_modify (f : S -> S) : NoThrow (modify f).
Proof. intros s e. discriminate. Qed.

Lemma NoThrow_bind {A B} (m : M S A) (k : A -> M S B) :
  NoThrow m -> (forall a, NoThrow (k a)) -> NoThrow (bind m k).
Proof.
  intros Hm Hk s e. unfold bind. specialize (Hm s).
  destruct (m s) as [[a|e'|] s']; cbn in *;
    [apply Hk | exfalso; apply (Hm e'); reflexivity | discriminate].
Qed.

(** A handler that does not throw makes the whole [try] not throw. *)
Lemma NoThrow_tryCatch {A} (body : M S A) handler :
  (forall e, NoThrow (handler e)) -> NoThrow (tryCatch body handler).
Proof.
  intros Hh s e. unfold tryCatch.
  destruct (body s) as [[a|e'|] s']; cbn; [discriminate | apply Hh | discriminate].
Qed.

Lemma NoThrow_tryCatch_body {A} (body : M S A) handler :
  NoThrow body -> NoThrow (tryCatch body handler).
Proof.
  intros Hb s e. unfold tryCatch. specialize (Hb s).
  destruct (body s) as [[a|e'|] s']; cbn in *;
    [discriminate | exfalso; apply (Hb e'); reflexivity | discriminate].
Qed.

Lemma NoThrow_resolvedByCallback {A} (callback : M S A) :
  NoThrow (AIImageProcessor.resolvedByCallback callback).
Proof.
  intros s e. unfold AIImageProcessor.resolvedByCallback.
  destruct (callback s) as [[a|e'|] s']; discriminate.
Qed.

Lemma Keeps_ret {A} I (a : A) : Keeps (S := S) I (ret a).
Proof. intros s H. exact H. Qed.

Lemma Keeps_throw {A} I e : Keeps (S := S) (A := A) I (throw e).
Proof. intros s H. exact H. Qed.

Lemma Keeps_gets {A} I (f : S -> A) : Keeps I (gets f).
Proof. intros s H. exact H. Qed.

Lemma Keeps_settle {A} I (r : Result A) : Keeps (S := S) I (settle r).
Proof. intros s H. destruct r; exact H. Qed.

Lemma Keeps_liftOutcome {A} I (o : Outcome A) :
  Keeps (S := S) I (StarVectorProcessor.liftOutcome o).
Proof. intros s H. exact H. Qed.

Lemma Keeps_moduleAccess I loaded : Keeps (S := S) I (moduleAccess loaded).
Proof. intros s H. destruct loaded; exact H. Qed.

Lemma Keeps_bind {A B} I (m : M S A) (k : A -> M S B) :
  Keeps I m -> (forall a, Keeps I (k a)) -> Keeps I (bind m k).
Proof.
  intros Hm Hk s H. unfold bind. specialize (Hm s H).
  destruct (m s) as [[a|e'|] s']; cbn in *; [apply Hk, Hm | exact Hm | exact Hm].
Qed.

Lemma Keeps_tryCatch {A} I (body : M S A) handler :
  Keeps I body -> (forall e, Keeps I (handler e)) -> Keeps I (tryCatch body handler).
Proof.
  intros Hb Hh s H. unfold tryCatch. specialize (Hb s H).
  destruct (body s) as [[a|e'|] s']; cbn in *; [exact Hb | apply Hh, Hb | exact Hb].
Qed.

Lemma Keeps_resolvedByCallback {A} I (callback : M S A) :
  Keeps I callback -> Keeps I (AIImageProcessor.resolvedByCallback callback).
Proof.
  intros Hc s H. unfold AIImageProcessor.resolvedByCallback. specialize (Hc s H).
  destruct (callback s) as [[a|e'|] s']; exact Hc.
Qed.

Lemma Settles_ret {A} I (a : A) : Settles (S := S) I (ret a).
Proof. intros s _. discriminate. Qed.

Lemma Settles_throw {A} I e : Settles (S := S) (A := A) I (throw e).
Proof. intros s _. discriminate. Qed.

Lemma Settles_gets {A} I (f : S -> A) : Settles I (gets f).
Proof. intros s _. discriminate. Qed.

Lemma Settles_modify I (f : S -> S) : Settles I (modify f).
Proof. intros s _. discriminate. Qed.

Lemma Settles_settle {A} I (r : Result A) : Settles (S := S) I (settle r).
Proof. intros s _. destruct r; discriminate. Qed.

Lemma Settles_moduleAccess I loaded : Settles (S := S) I (moduleAccess loaded).
Proof. intros s _. destruct loaded; discriminate. Qed.

Lemma Settles_liftOutcome {A} I (o : Outcome A) :
  o <> Pending -> Settles (S := S) I (StarVectorProcessor.liftOutcome o).
Proof. intros Ho s _. exact Ho. Qed.

Lemma Settles_any {A} (I : S -> Prop) (m : M S A) :
  Settles (fun _ => True) m -> Settles I m.
Proof. intros Hm s _. apply Hm. exact Logic.I. Qed.

Lemma Settles_bind {A B} I (m : M S A) (k : A -> M S B) :
  Settles I m -> Keeps I m -> (forall a, Settles I (k a)) -> Settles I (bind m k).
Proof.
  intros Hm Hkeep Hk s H. unfold bind. specialize (Hm s H). specialize (Hkeep s H).
  destruct (m s) as [[a|e'|] s']; cbn in *; [apply Hk, Hkeep | discriminate | congruence].
Qed.

Lemma Settles_tryCatch {A} I (body : M S A) handler :
  Settles I body -> Keeps I body -> (forall e, Settles I (handler e)) ->
  Settles I (tryCatch body handler).
Proof.
  intros Hb Hkeep Hh s H. unfold tryCatch. specialize (Hb s H). specialize (Hkeep s H).
  destruct (body s) as [[a|e'|] s']; cbn in *; [discriminate | apply Hh, Hkeep | congruence].
Qed.

Lemma Yields_ret {A} (P : A -> Prop) a : P a -> Yields (S := S) P (ret a).
Proof. intros H s a' [= <-]. exact H. Qed.

Lemma Yields_throw {A} (P : A -> Prop) e : Yields (S := S) P (throw e).
Proof. intros s a [=]. Qed.

Lemma Yields_bind {A B} (Q : A -> Prop) (P : B -> Prop) (m : M S A) k :
  Yields Q m -> (forall a, Q a -> Yields P (k a)) -> Yields P (bind m k).
Proof.
  intros Hm Hk s b. unfold bind. specialize (Hm s).
  destruct (m s) as [[a|e'|] s']; cbn in *; [|discriminate|discriminate].
  apply Hk. apply Hm. reflexivity.
Qed.

Lemma Yields_bind_any {A B} (P : B -> Prop) (m : M S A) k :
  (forall a, Yields P (k a)) -> Yields P (bind m k).
Proof.
  intros Hk. apply (Yields_bind (fun _ => True)); [intros s a _; exact I | auto].
Qed.

Lemma Yields_tryCatch {A} (P : A -> Prop) (body : M S A) handler :
  Yields P body -> (forall e, Yields P (handler e)) -> Yields P (tryCatch body handler).
Proof.
  intros Hb Hh s a. unfold tryCatch. specialize (Hb s).
  destruct (body s) as [[a'|e'|] s']; cbn in *; [apply Hb | apply Hh | discriminate].
Qed.

(** A [try] whose body does not throw never runs its handler. *)
Lemma Yields_tryCatch_unreached {A} (P : A -> Prop) (body : M S A) handler :
  NoThrow body -> Yields P body -> Yields P (tryCatch body handler).
Proof.
  intros Hn Hb s a. unfold tryCatch. specialize (Hb s). specialize (Hn s).
  destruct (body s) as [[a'|e'|] s']; cbn in *;
    [apply Hb | exfalso; apply (Hn e'); reflexivity | discriminate].
Qed.

Lemma Yields_liftOutcome {A} (P : A -> Prop) (o : Outcome A) :
  (forall a, o = Ok a -> P a) -> Yields (S := S) P (StarVectorProcessor.liftOutcome o).
Proof. intros H s a Ha. apply H. exact Ha. Qed.

Lemma Yields_weaken {A} (P Q : A -> Prop) (m : M S A) :
  Yields P m -> (forall a, P a -> Q a) -> Yields Q m.
Proof. intros Hm HPQ s a Ha. apply HPQ, (Hm s a Ha). Qed.

Lemma wp_ret {A} (a : A) (s : S) Q : Q (Ok a) s -> wp (ret a) s Q.
Proof. intros H. exact H. Qed.

Lemma wp_gets {A} (f : S -> A) (s : S) Q : Q (Ok (f s)) s -> wp (gets f) s Q.
Proof. intros H. exact H. Qed.

Lemma wp_modify (f : S -> S) (s : S) Q : Q (Ok tt) (f s) -> wp (modify f) s Q.
Proof. intros H. exact H. Qed.

Lemma wp_bind {A B} (m : M S A) (k : A -> M S B) s Q :
  wp m s (fun o s' =>
            match o with
            | Ok a => wp (k a) s' Q
            | Throw e => Q (Throw e) s'
            | Pending => Q Pending s'
            end) ->
  wp (bind m k) s Q.
Proof. unfold wp, bind. destruct (m s) as [[a|e|] s']; auto. Qed.

Lemma wp_tryCatch {A} (body : M S A) handler s Q :
  wp body s (fun o s' =>
               match o with
               | Ok a => Q (Ok a) s'
               | Throw e => wp (handler e) s' Q
               | Pending => Q Pending s'
               end) ->
  wp (tryCatch body handler) s Q.
Proof. unfold wp, tryCatch. destruct (body s) as [[a|e|] s']; auto. Qed.

Lemma wp_mono {A} (m : M S A) s (Q Q' : Outcome A -> S -> Prop) :
  wp m s Q -> (forall o s', Q o s' -> Q' o s') -> wp m s Q'.
Proof. unfold wp. auto. Qed.

End Rules.

Section WorldRules.
Import Platform Spec.

Lemma extend_extend w events events' :
  extend (extend w events) events' = extend w (events ++ events').
Proof. unfold extend. cbn. rewrite app_assoc. reflexivity. Qed.

Lemma statics_extend w events : statics (extend w events) = statics w.
Proof. reflexivity. Qed.

Lemma log_extend w events : log (extend w events) = log w ++ events.
Proof. reflexivity. Qed.

Lemma extend_nil w : extend w [] = w.
Proof. destruct w. unfold extend. cbn. rewrite app_nil_r. reflexivity. Qed.

Lemma ClosedUnder_weaken (allowed allowed' : Event -> Prop) I :
  (forall e, allowed' e -> allowed e) -> ClosedUnder allowed I -> ClosedUnder allowed' I.
Proof. intros Hsub H w e He. apply H, Hsub, He. Qed.

(** A property of the static fields alone survives every event. *)
Lemma ClosedUnder_statics allowed (P : Statics -> Prop) :
  ClosedUnder allowed (fun w => P (statics w)).
Proof. intros w e _ H. exact H. Qed.

Lemma ClosedUnder_True allowed : ClosedUnder allowed (fun _ => True).
Proof. intros w e _ _. exact I. Qed.

(** The events since [start] are all in [allowed]. *)
Lemma ClosedUnder_since allowed start :
  ClosedUnder allowed
    (fun w => exists events, w = extend start events /\ Forall allowed events).
Proof.
  intros w e He (events & -> & Hall). exists (events ++ [e]).
  split; [apply extend_extend|]. apply Forall_app. split; [assumption|].
  constructor; [assumption | constructor].
Qed.

Lemma NoThrow_call {L A} (m : M World A) : NoThrow m -> NoThrow (call (L := L) m).
Proof.
  intros Hm [l w] e. unfold call. specialize (Hm w e).
  destruct (m w) as [o w']. exact Hm.
Qed.

Lemma NoThrow_withLocals {L A} (init : L) (m : M (L * World) A) :
  NoThrow m -> NoThrow (withLocals init m).
Proof.
  intros Hm w e. unfold withLocals. specialize (Hm (init, w) e).
  destruct (m (init, w)) as [o [l w']]. exact Hm.
Qed.

Lemma NoThrow_push step : NoThrow (push (W := World) step).
Proof. intros [l w] e. discriminate. Qed.

Lemma Keeps_call {L A} I (m : M World A) : Keeps I m -> Keeps (onWorld I) (call (L := L) m).
Proof.
  intros Hm [l w] H. unfold call, onWorld in *. specialize (Hm w H).
  destruct (m w) as [o w']. exact Hm.
Qed.

Lemma Keeps_withLocals {L A} I (init : L) (m : M (L * World) A) :
  Keeps (onWorld I) m -> Keeps I (withLocals init m).
Proof.
  intros Hm w H. unfold withLocals. specialize (Hm (init, w) H).
  destruct (m (init, w)) as [o [l w']]. exact Hm.
Qed.

Lemma Keeps_push I step : Keeps (onWorld I) (push (W := World) step).
Proof. intros [l w] H. exact H. Qed.

Lemma Keeps_external {A} allowed I e (answer : list Event -> Result A) :
  ClosedUnder allowed I -> allowed e -> Keeps I (external e answer).
Proof.
  intros HI He w H. unfold external.
  destruct (answer (log w)); cbn; apply HI; assumption.
Qed.

Lemma Keeps_enter allowed I m :
  ClosedUnder allowed I -> allowed (Enter m) -> Keeps I (enter m).
Proof. intros HI He w H. cbn. apply HI; assumption. Qed.

Lemma Settles_external {A} I e (answer : list Event -> Result A) :
  Settles I (external e answer).
Proof. intros w _. unfold external. destruct (answer (log w)); discriminate. Qed.

Lemma Settles_enter I m : Settles I (enter m).
Proof. intros w _. discriminate. Qed.

Lemma Settles_call {L A} I (m : M World A) :
  Settles I m -> Settles (onWorld I) (call (L := L) m).
Proof.
  intros Hm [l w] H. unfold call, onWorld in *. specialize (Hm w H).
  destruct (m w) as [o w']. exact Hm.
Qed.

Lemma Settles_withLocals {L A} I (init : L) (m : M (L * World) A) :
  Settles (onWorld I) m -> Settles I (withLocals init m).
Proof.
  intros Hm w H. unfold withLocals. specialize (Hm (init, w) H).
  destruct (m (init, w)) as [o [l w']]. exact Hm.
Qed.

Lemma Settles_push I step : Settles (onWorld I) (push (W := World) step).
Proof. intros [l w] _. discriminate. Qed.

Lemma Yields_call {L A} (P : A -> Prop) (m : M World A) :
  Yields P m -> Yields P (call (L := L) m).
Proof.
  intros Hm [l w] a. unfold call. specialize (Hm w a).
  destruct (m w) as [o w']. exact Hm.
Qed.

Lemma Yields_withLocals {L A} (P : A -> Prop) (init : L) (m : M (L * World) A) :
  Yields P m -> Yields P (withLocals init m).
Proof.
  intros Hm w a. unfold withLocals. specialize (Hm (init, w) a).
  destruct (m (init, w)) as [o [l w']]. exact Hm.
Qed.

Lemma wp_call {L A} (m : M World A) (l : L) w Q :
  wp m w (fun o w' => Q o (l, w')) -> wp (call m) (l, w) Q.
Proof. unfold wp, call. destruct (m w) as [o w']. auto. Qed.

Lemma wp_withLocals {L A} (init : L) (m : M (L * World) A) w Q :
  wp m (init, w) (fun o s' => Q o (snd s')) -> wp (withLocals init m) w Q.
Proof. unfold wp, withLocals. destruct (m (init, w)) as [o [l w']]. auto. Qed.

Lemma wp_push step (l : list string) (w : World) Q :
  Q (Ok tt) (l ++ [step], w) -> wp (push step) (l, w) Q.
Proof. intros H. exact H. Qed.

Lemma wp_readSteps (l : list string) (w : World) Q :
  Q (Ok l) (l, w) -> wp readSteps (l, w) Q.
Proof. intros H. exact H. Qed.

Lemma wp_enter m w Q : Q (Ok tt) (extend w [Enter m]) -> wp (enter m) w Q.
Proof. intros H. exact H. Qed.

Lemma wp_external {A} e (answer : list Event -> Result A) w Q :
  match answer (log w) with
  | Resolved a => Q (Ok a) (extend w [e])
  | Rejected message => Q (Throw message) (extend w [e])
  end ->
  wp (external e answer) w Q.
Proof. unfold wp, external. destruct (answer (log w)); auto. Qed.

Lemma eventsSince_extend w events : eventsSince w (extend w events) = events.
Proof. unfold eventsSince, extend. cbn. apply drop_app_length. Qed.

Lemma entered_cons e events :
  entered (e :: events)
  = match e with Enter m => m :: entered events | _ => entered events end.
Proof. destruct e; reflexivity. Qed.

Lemma fetchedUrls_cons e events :
  fetchedUrls (e :: events)
  = match e with Fetch r => url r :: fetchedUrls events | _ => fetchedUrls events end.
Proof. destruct e; reflexivity. Qed.

Lemma pipelineSteps_cons e events :
  pipelineSteps (e :: events)
  = match e with
    | Enter m => if isPipelineStep m then m :: pipelineSteps events
                 else pipelineSteps events
    | _ => pipelineSteps events
    end.
Proof.
  unfold pipelineSteps. rewrite entered_cons. destruct e; reflexivity.
Qed.

Lemma entered_app events events' :
  entered (events ++ events') = entered events ++ entered events'.
Proof. unfold entered. apply omap_app. Qed.

Lemma pipelineSteps_app events events' :
  pipelineSteps (events ++ events') = pipelineSteps events ++ pipelineSteps events'.
Proof. unfold pipelineSteps. rewrite entered_app. apply List.filter_app. Qed.

Lemma entered_avoids excluded events m :
  Forall (avoids excluded) events -> m ∈ entered events -> m ∉ excluded.
Proof.
  induction 1 as [|e events He _ IH]; cbn.
  - intros H. inversion H.
  - destruct e; cbn; try exact IH.
    intros H. apply elem_of_cons in H as [->|H]; [exact He | exact (IH H)].
Qed.

End WorldRules.

(** ** Proof automation following the structure of a computation *)

Create HintDb keeps discriminated.
Create HintDb settles discriminated.
Create HintDb nothrow discriminated.

Ltac allowed_event :=
  cbn;
  first [ exact I
        | apply not_elem_of_cons; split; [discriminate | apply not_elem_of_nil] ].

Ltac keeps_step :=
  lazymatch goal with
  | |- Spec.Keeps _ (bind _ _) => apply Keeps_bind; [|intro]
  | |- Spec.Keeps _ (tryCatch _ _) => apply Keeps_tryCatch; [|intro]
  | |- Spec.Keeps _ (ret _) => apply Keeps_ret
  | |- Spec.Keeps _ (throw _) => apply Keeps_throw
  | |- Spec.Keeps _ (gets _) => apply Keeps_gets
  | |- Spec.Keeps _ readSteps => apply Keeps_gets
  | |- Spec.Keeps _ (Platform.settle _) => apply Keeps_settle
  | |- Spec.Keeps _ (StarVectorProcessor.liftOutcome _) => apply Keeps_liftOutcome
  | |- Spec.Keeps _ (Platform.moduleAccess _) => apply Keeps_moduleAccess
  | |- Spec.Keeps _ (push _) => apply Keeps_push
  | |- Spec.Keeps _ (call _) => apply Keeps_call
  | |- Spec.Keeps _ (withLocals _ _) => apply Keeps_withLocals
  | |- Spec.Keeps _ (AIImageProcessor.resolvedByCallback _) =>
      apply Keeps_resolvedByCallback
  | |- Spec.Keeps _ (Platform.enter _) =>
      eapply Keeps_enter; [eassumption | allowed_event]
  | |- Spec.Keeps _ (Platform.external _ _) =>
      eapply Keeps_external; [eassumption | allowed_event]
  | |- Spec.Keeps _ (if ?b then _ else _) => destruct b
  | |- Spec.Keeps _ (match ?x with _ => _ end) => destruct x
  | |- _ => solve [eauto with keeps]
  end.

Ltac keeps := cbv zeta; repeat keeps_step.

Ltac settles_step :=
  lazymatch goal with
  | |- Spec.Settles _ (bind _ _) => apply Settles_bind; [| |intro]
  | |- Spec.Settles _ (tryCatch _ _) => apply Settles_tryCatch; [| |intro]
  | |- Spec.Settles _ (ret _) => apply Settles_ret
  | |- Spec.Settles _ (throw _) => apply Settles_throw
  | |- Spec.Settles _ (gets _) => apply Settles_gets
  | |- Spec.Settles _ readSteps => apply Settles_gets
  | |- Spec.Settles _ (Platform.settle _) => apply Settles_settle
  | |- Spec.Settles _ (Platform.moduleAccess _) => apply Settles_moduleAccess
  | |- Spec.Settles _ (StarVectorProcessor.liftOutcome _) => apply Settles_liftOutcome
  | |- Spec.Settles _ (push _) => apply Settles_push
  | |- Spec.Settles _ (call _) => apply Settles_call
  | |- Spec.Settles _ (withLocals _ _) => apply Settles_withLocals
  | |- Spec.Settles _ (Platform.enter _) => apply Settles_enter
  | |- Spec.Settles _ (Platform.external _ _) => apply Settles_external
  | |- Spec.Settles _ (if ?b then _ else _) => destruct b
  | |- Spec.Settles _ (match ?x with _ => _ end) => destruct x
  | |- Spec.Keeps _ _ => first [ solve [eauto with keeps] | solve [keeps] ]
  | |- _ =>
      first [ solve [eauto with settles]
            | solve [apply Settles_any; eauto with settles] ]
  end.

Ltac settles := cbv zeta; repeat settles_step.

Ltac nothrow_step :=
  lazymatch goal with
  | |- Spec.NoThrow (bind _ _) => apply NoThrow_bind; [|intro]
  | |- Spec.NoThrow (tryCatch _ _) => apply NoThrow_tryCatch; intro
  | |- Spec.NoThrow (ret _) => apply NoThrow_ret
  | |- Spec.NoThrow (gets _) => apply NoThrow_gets
  | |- Spec.NoThrow readSteps => apply NoThrow_gets
  | |- Spec.NoThrow (modify _) => apply NoThrow_modify
  | |- Spec.NoThrow (Platform.enter _) => apply NoThrow_modify
  | |- Spec.NoThrow (push _) => apply NoThrow_push
  | |- Spec.NoThrow (call _) => apply NoThrow_call
  | |- Spec.NoThrow (withLocals _ _) => apply NoThrow_withLocals
  | |- Spec.NoThrow (AIImageProcessor.resolvedByCallback _) =>
      apply NoThrow_resolvedByCallback
  | |- Spec.NoThrow (if ?b then _ else _) => destruct b
  | |- Spec.NoThrow (match ?x with _ => _ end) => destruct x
  | |- _ => solve [eauto with nothrow]
  end.

Ltac nothrow := cbv zeta; repeat nothrow_step.

Ltac yields_step :=
  lazymatch goal with
  | |- Spec.Yields _ (bind _ _) => apply Yields_bind_any; intro
  | |- Spec.Yields _ (tryCatch _ _) => apply Yields_tryCatch; [|intro]
  | |- Spec.Yields _ (throw _) => apply Yields_throw
  | |- Spec.Yields _ (call _) => apply Yields_call
  | |- Spec.Yields _ (withLocals _ _) => apply Yields_withLocals
  | |- Spec.Yields _ (if ?b then _ else _) => destruct b
  | |- Spec.Yields _ (match ?x with _ => _ end) => destruct x
  end.

(** ** StarVectorProcessor: what its methods do to the world *)

Section StarVectorWorld.
Import Platform Spec StarVectorProcessor.
Variable env : Env.

(** Every method below the entry point appends events to the log and
    nothing else, and none of these events is an entry into imageToSVG. *)
Section Invariant.
Variable I : World -> Prop.
Hypothesis I_closed : ClosedUnder (avoids [ImageToSVG]) I.

Lemma Keeps_checkLocalStarVector : Keeps I (checkLocalStarVector env).
Proof. unfold checkLocalStarVector, doFetch. keeps. Qed.

Lemma Keeps_callLocalStarVector imageBase64 modelId options :
  Keeps I (callLocalStarVector env imageBase64 modelId options).
Proof. unfold callLocalStarVector, doFetch. keeps. Qed.

Lemma Keeps_prepareImageForStarVector imageUri :
  Keeps I (prepareImageForStarVector env imageUri).
Proof. unfold prepareImageForStarVector, manipulate. keeps. Qed.

Lemma Keeps_tryTextGenerationAPI imageBase64 modelId options :
  Keeps I (tryTextGenerationAPI env imageBase64 modelId options).
Proof. unfold tryTextGenerationAPI, doFetch. keeps. Qed.

Hint Resolve Keeps_tryTextGenerationAPI : keeps.

Lemma Keeps_callStarVectorAPI imageBase64 modelId options :
  Keeps I (callStarVectorAPI env imageBase64 modelId options).
Proof. unfold callStarVectorAPI, doFetch. keeps. Qed.

Lemma Keeps_createSimpleTattooDesign : Keeps I (createSimpleTattooDesign env).
Proof.
  unfold createSimpleTattooDesign, now, writeFile, manipulate, deleteFile. keeps.
Qed.

Hint Resolve Keeps_createSimpleTattooDesign : keeps.

Lemma Keeps_createTattooImageFallback svg : Keeps I (createTattooImageFallback env svg).
Proof. unfold createTattooImageFallback. keeps. Qed.

Hint Resolve Keeps_createTattooImageFallback : keeps.

Lemma Keeps_convertSVGToPNG svg : Keeps I (convertSVGToPNG env svg).
Proof. unfold convertSVGToPNG. keeps. Qed.

Hint Resolve Keeps_convertSVGToPNG : keeps.

Lemma Keeps_saveSVGToFile svg : Keeps I (saveSVGToFile env svg).
Proof. unfold saveSVGToFile, now, writeFile. keeps. Qed.

Lemma Keeps_generateSVGFromAnalysis imageUri :
  Keeps I (generateSVGFromAnalysis env imageUri).
Proof. unfold generateSVGFromAnalysis, manipulate. keeps. Qed.

Hint Resolve Keeps_saveSVGToFile Keeps_generateSVGFromAnalysis : keeps.

Lemma Keeps_processWithLocalStarVector imageUri options :
  Keeps I (processWithLocalStarVector env imageUri options).
Proof. unfold processWithLocalStarVector. keeps. Qed.

End Invariant.
End StarVectorWorld.

#[global] Hint Resolve validateAndCleanSVG_value_settles
  extractSVGFromResponse_settles prop_settles : settles.

#[global] Hint Resolve Keeps_checkLocalStarVector Keeps_callLocalStarVector
  Keeps_prepareImageForStarVector Keeps_callStarVectorAPI Keeps_saveSVGToFile
  Keeps_processWithLocalStarVector : keeps.

Section StarVectorOutcomes.
Import Platform Spec StarVectorProcessor.
Variable env : Env.

(** imageToSVG itself, for invariants that survive every event. *)
Lemma Keeps_imageToSVG I imageUri options :
  ClosedUnder (fun _ => True) I -> Keeps I (imageToSVG env imageUri options).
Proof.
  intros I_all.
  assert (I_closed : ClosedUnder (avoids [ImageToSVG]) I)
    by (eapply ClosedUnder_weaken; [intros ? _; exact Logic.I | exact I_all]).
  unfold imageToSVG, readFile. keeps.
  all: eapply Keeps_enter; [exact I_all | exact Logic.I].
Qed.

(** All the methods of the class settle: none of them builds a promise of
    its own. *)
Local Abbreviation Always := (Settles (fun _ : World => True)).

Lemma ClosedUnder_trivial : ClosedUnder (avoids [ImageToSVG]) (fun _ : World => True).
Proof. apply ClosedUnder_True. Qed.
Hint Resolve ClosedUnder_trivial : keeps.

Lemma Keeps_onWorld_trivial {L A} (m : M (L * World) A) :
  Keeps (onWorld (fun _ => True)) m.
Proof. intros s _. exact Logic.I. Qed.

Lemma Keeps_trivial {A} (m : M World A) : Keeps (fun _ => True) m.
Proof. intros s _. exact Logic.I. Qed.
Hint Resolve Keeps_onWorld_trivial Keeps_trivial : keeps.

Lemma Settles_checkLocalStarVector : Always (checkLocalStarVector env).
Proof. unfold checkLocalStarVector, doFetch. settles. Qed.

Lemma Settles_callLocalStarVector imageBase64 modelId options :
  Always (callLocalStarVector env imageBase64 modelId options).
Proof.
  unfold callLocalStarVector, doFetch. settles.
Qed.

Lemma Settles_prepareImageForStarVector imageUri :
  Always (prepareImageForStarVector env imageUri).
Proof. unfold prepareImageForStarVector, manipulate. settles. Qed.

Lemma Settles_tryTextGenerationAPI imageBase64 modelId options :
  Always (tryTextGenerationAPI env imageBase64 modelId options).
Proof. unfold tryTextGenerationAPI, doFetch. settles. Qed.
Hint Resolve Settles_tryTextGenerationAPI : settles.

Lemma Settles_callStarVectorAPI imageBase64 modelId options :
  Always (callStarVectorAPI env imageBase64 modelId options).
Proof. unfold callStarVectorAPI, doFetch. settles. Qed.

Lemma Settles_createSimpleTattooDesign : Always (createSimpleTattooDesign env).
Proof.
  unfold createSimpleTattooDesign, now, writeFile, manipulate, deleteFile. settles.
Qed.
Hint Resolve Settles_createSimpleTattooDesign : settles.

Lemma Settles_createTattooImageFallback svg : Always (createTattooImageFallback env svg).
Proof. unfold createTattooImageFallback. settles. Qed.
Hint Resolve Settles_createTattooImageFallback : settles.

Lemma Settles_convertSVGToPNG svg : Always (convertSVGToPNG env svg).
Proof. unfold convertSVGToPNG. settles. Qed.
Hint Resolve Settles_convertSVGToPNG : settles.

Lemma Settles_saveSVGToFile svg : Always (saveSVGToFile env svg).
Proof. unfold saveSVGToFile, now, writeFile. settles. Qed.

Lemma Settles_generateSVGFromAnalysis imageUri :
  Always (generateSVGFromAnalysis env imageUri).
Proof. unfold generateSVGFromAnalysis, manipulate. settles. Qed.
Hint Resolve Settles_saveSVGToFile Settles_generateSVGFromAnalysis : settles.

Lemma Settles_processWithLocalStarVector imageUri options :
  Always (processWithLocalStarVector env imageUri options).
Proof. unfold processWithLocalStarVector. settles. Qed.
Hint Resolve Settles_processWithLocalStarVector Settles_checkLocalStarVector
  Settles_callLocalStarVector Settles_prepareImageForStarVector
  Settles_callStarVectorAPI : settles.

Lemma Settles_imageToSVG imageUri options : Always (imageToSVG env imageUri options).
Proof. unfold imageToSVG, readFile. settles. Qed.

(** Neither entry point of the class ever rejects: each ends in a catch
    that returns a result. *)
Lemma NoThrow_processWithLocalStarVector imageUri options :
  NoThrow (processWithLocalStarVector env imageUri options).
Proof. unfold processWithLocalStarVector. nothrow. Qed.

Lemma NoThrow_imageToSVG imageUri options : NoThrow (imageToSVG env imageUri options).
Proof. unfold imageToSVG. nothrow. Qed.

Lemma Yields_processWithLocalStarVector imageUri options :
  Yields localResult (processWithLocalStarVector env imageUri options).
Proof.
  unfold processWithLocalStarVector. cbv zeta. repeat yields_step.
  - apply Yields_ret. intros _. reflexivity.
  - apply Yields_ret. intros [=].
Qed.

(** The part of imageToSVG after the model has produced SVG text: the text
    is validated, saved, and returned in a successful result. *)
Lemma Yields_imageToSVG imageUri options :
  Yields modelResultOpensWithSvg (imageToSVG env imageUri options).
Proof.
  assert (Hlocal : forall (k : StarVectorResult -> M (list string * World) StarVectorResult),
            (forall r, localResult r -> Yields modelResultOpensWithSvg (k r)) ->
            Yields modelResultOpensWithSvg
              (bind (call (processWithLocalStarVector env imageUri options)) k)).
  { intros k Hk. eapply Yields_bind; [|exact Hk].
    apply Yields_call, Yields_processWithLocalStarVector. }
  assert (Hclean : forall value (k : list N -> M (list string * World) StarVectorResult),
            (forall cleaned, Js.startsWithCI (Js.lit "<svg") cleaned = true ->
                             Yields modelResultOpensWithSvg (k cleaned)) ->
            Yields modelResultOpensWithSvg
              (bind (liftOutcome (validateAndCleanSVG value)) k)).
  { intros value k Hk. eapply Yields_bind; [|exact Hk].
    apply Yields_liftOutcome. apply validateAndCleanSVG_value_head. }
  unfold imageToSVG. cbv zeta.
  repeat first
    [ apply Hclean; intros ? ?
    | apply Hlocal; intros ? ?
    | yields_step
    | apply Yields_ret;
      first
        [ solve [intros _ _; eexists; split; [reflexivity | assumption]]
        | solve [intros [=]]
        | match goal with
          | H : localResult ?r |- _ =>
              solve [intros Hs Hm; exfalso; apply Hm, H, Hs]
          end ] ].
Qed.

End StarVectorOutcomes.

#[global] Hint Resolve Keeps_imageToSVG Keeps_onWorld_trivial Keeps_trivial : keeps.
#[global] Hint Resolve Settles_processWithLocalStarVector Settles_imageToSVG : settles.
#[global] Hint Resolve NoThrow_processWithLocalStarVector NoThrow_imageToSVG : nothrow.

(** ** AIImageProcessor: what its methods do to the world *)

Section AIWorld.
Import Platform Spec AIImageProcessor.
Variable env : Env.

Section Invariant.
Variable I : World -> Prop.
Hypothesis I_closed : ClosedUnder (avoids [ImageToSVG]) I.

Lemma Keeps_preprocessForAI imageUri : Keeps I (preprocessForAI env imageUri).
Proof. unfold preprocessForAI, manipulate. keeps. Qed.

Lemma Keeps_backgroundService endpoint header key prefix imageUri :
  Keeps I (backgroundService env endpoint header key prefix imageUri).
Proof. unfold backgroundService, doFetch, now, writeFile. keeps. Qed.
Hint Resolve Keeps_backgroundService : keeps.

Lemma Keeps_tryRemoveBgAPI imageUri : Keeps I (tryRemoveBgAPI env imageUri).
Proof. unfold tryRemoveBgAPI. keeps. Qed.

Lemma Keeps_tryClipDropAPI imageUri : Keeps I (tryClipDropAPI env imageUri).
Proof. unfold tryClipDropAPI. keeps. Qed.
Hint Resolve Keeps_tryRemoveBgAPI Keeps_tryClipDropAPI : keeps.

Lemma Keeps_removeBackgroundAI imageUri : Keeps I (removeBackgroundAI env imageUri).
Proof. unfold removeBackgroundAI. keeps. Qed.

Lemma Keeps_localBackgroundRemoval imageUri :
  Keeps I (localBackgroundRemoval env imageUri).
Proof. unfold localBackgroundRemoval, manipulate. keeps. Qed.

Lemma Keeps_smartCrop imageUri : Keeps I (smartCrop env imageUri).
Proof. unfold smartCrop, manipulate. keeps. Qed.

Lemma Keeps_convertToLineArt imageUri : Keeps I (convertToLineArt env imageUri).
Proof. unfold convertToLineArt, manipulate. keeps. Qed.

Lemma Keeps_applyTattooStyling imageUri autoContrast :
  Keeps I (applyTattooStyling env imageUri autoContrast).
Proof. unfold applyTattooStyling, manipulate. keeps. Qed.

Hint Resolve Keeps_preprocessForAI Keeps_removeBackgroundAI
  Keeps_localBackgroundRemoval Keeps_smartCrop Keeps_convertToLineArt
  Keeps_applyTattooStyling : keeps.

Lemma Keeps_traditionalProcessingPipeline imageUri options existingSteps :
  Keeps I (traditionalProcessingPipeline env imageUri options existingSteps).
Proof. unfold traditionalProcessingPipeline. keeps. Qed.

Lemma Keeps_ultimateFallbackProcessing imageUri existingSteps :
  Keeps I (ultimateFallbackProcessing env imageUri existingSteps).
Proof. unfold ultimateFallbackProcessing, manipulate. keeps. Qed.

Hint Resolve Keeps_traditionalProcessingPipeline Keeps_ultimateFallbackProcessing : keeps.

(** The tiers below StarVector: local processing, the traditional pipeline
    and, after an exception, the ultimate fallback. *)
Lemma Keeps_processImageToTattooDesign_without_StarVector imageUri options :
  Options.truthyField (Options.useStarVector (Options.mergeDefaults options)) = false
  \/ (forall w, I w -> StarVectorProcessor.isAvailable env w = false) ->
  Keeps I (processImageToTattooDesign env imageUri options).
Proof.
  intros Hskip. unfold processImageToTattooDesign. cbv zeta.
  apply Keeps_bind; [keeps|intros _].
  apply Keeps_withLocals, Keeps_tryCatch; [|intros e; keeps].
  intros [steps w] Hw. unfold bind at 1, gets at 1. cbn [fst snd].
  assert (Hcond : Options.truthyField (Options.useStarVector (Options.mergeDefaults options))
                  && StarVectorProcessor.isAvailable env w = false).
  { destruct Hskip as [->| Hun]; [reflexivity|]. rewrite (Hun w Hw). apply andb_false_r. }
  rewrite Hcond. revert Hw. generalize (steps, w).
  match goal with |- forall p, onWorld I p -> onWorld I (snd (?m p)) => change (Keeps (onWorld I) m) end.
  keeps.
Qed.

End Invariant.

Hint Resolve Keeps_preprocessForAI Keeps_removeBackgroundAI
  Keeps_localBackgroundRemoval Keeps_smartCrop Keeps_convertToLineArt
  Keeps_applyTattooStyling Keeps_traditionalProcessingPipeline
  Keeps_ultimateFallbackProcessing : keeps.

(** *** Exceptions *)

Lemma NoThrow_preprocessForAI imageUri : NoThrow (preprocessForAI env imageUri).
Proof. unfold preprocessForAI. nothrow. Qed.

Lemma NoThrow_removeBackgroundAI imageUri : NoThrow (removeBackgroundAI env imageUri).
Proof. unfold removeBackgroundAI. nothrow. Qed.

Lemma NoThrow_localBackgroundRemoval imageUri :
  NoThrow (localBackgroundRemoval env imageUri).
Proof. unfold localBackgroundRemoval. nothrow. Qed.

Lemma NoThrow_smartCrop imageUri : NoThrow (smartCrop env imageUri).
Proof. unfold smartCrop. nothrow. Qed.

Lemma NoThrow_convertToLineArt imageUri : NoThrow (convertToLineArt env imageUri).
Proof. unfold convertToLineArt. nothrow. Qed.

Lemma NoThrow_applyTattooStyling imageUri autoContrast :
  NoThrow (applyTattooStyling env imageUri autoContrast).
Proof. unfold applyTattooStyling. nothrow. Qed.

Hint Resolve NoThrow_preprocessForAI NoThrow_removeBackgroundAI
  NoThrow_localBackgroundRemoval NoThrow_smartCrop NoThrow_convertToLineArt
  NoThrow_applyTattooStyling : nothrow.

(** The body of the pipeline's [try] cannot throw, because every step
    catches its own errors; so the [catch] that rethrows is never reached. *)
Lemma NoThrow_traditionalProcessingPipeline imageUri options existingSteps :
  NoThrow (traditionalProcessingPipeline env imageUri options existingSteps).
Proof.
  unfold traditionalProcessingPipeline. cbv zeta.
  apply NoThrow_bind; [nothrow|intros _].
  apply NoThrow_withLocals, NoThrow_tryCatch_body. nothrow.
Qed.
Hint Resolve NoThrow_traditionalProcessingPipeline : nothrow.

Lemma NoThrow_processImageToTattooDesign imageUri options :
  NoThrow (processImageToTattooDesign env imageUri options).
Proof. unfold processImageToTattooDesign. nothrow. Qed.

(** *** Results *)

Lemma Yields_traditionalProcessingPipeline imageUri options existingSteps :
  Yields (fun r => success r = true)
    (traditionalProcessingPipeline env imageUri options existingSteps).
Proof.
  unfold traditionalProcessingPipeline. cbv zeta.
  repeat first [yields_step | apply Yields_ret; reflexivity].
Qed.

(** Every result that processImageToTattooDesign returns is a success. *)
Lemma Yields_processImageToTattooDesign imageUri options :
  Yields (fun r => success r = true)
    (processImageToTattooDesign env imageUri options).
Proof.
  unfold processImageToTattooDesign. cbv zeta.
  apply Yields_bind_any. intros _. apply Yields_withLocals.
  apply Yields_tryCatch_unreached; [nothrow|].
  repeat first
    [ apply Yields_call, Yields_traditionalProcessingPipeline
    | yields_step
    | apply Yields_ret; reflexivity ].
Qed.

(** *** Settling *)

Local Abbreviation Always := (Settles (fun _ : World => True)).

Lemma Settles_preprocessForAI imageUri : Always (preprocessForAI env imageUri).
Proof. unfold preprocessForAI, manipulate. settles. Qed.

Lemma Settles_localBackgroundRemoval imageUri :
  Always (localBackgroundRemoval env imageUri).
Proof. unfold localBackgroundRemoval, manipulate. settles. Qed.

Lemma Settles_smartCrop imageUri : Always (smartCrop env imageUri).
Proof. unfold smartCrop, manipulate. settles. Qed.

Lemma Settles_convertToLineArt imageUri : Always (convertToLineArt env imageUri).
Proof. unfold convertToLineArt, manipulate. settles. Qed.

Lemma Settles_applyTattooStyling imageUri autoContrast :
  Always (applyTattooStyling env imageUri autoContrast).
Proof. unfold applyTattooStyling, manipulate. settles. Qed.

Hint Resolve Settles_preprocessForAI Settles_localBackgroundRemoval
  Settles_smartCrop Settles_convertToLineArt Settles_applyTattooStyling : settles.

(** Without a key no service is called, and removeBackgroundAI resolves
    with null at once. *)
Lemma removeBackgroundAI_without_keys imageUri w :
  noServiceKey w ->
  removeBackgroundAI env imageUri w = (Ok None, extend w [Enter RemoveBackgroundAI]).
Proof.
  intros [Hbg Hclip].
  unfold removeBackgroundAI, tryCatch, bind, gets, enter, emit, modify, ret.
  cbv zeta. rewrite !statics_extend, Hbg, !statics_extend, Hclip. reflexivity.
Qed.

Lemma Settles_removeBackgroundAI imageUri :
  Settles noServiceKey (removeBackgroundAI env imageUri).
Proof. intros w Hw. rewrite removeBackgroundAI_without_keys by exact Hw. discriminate. Qed.

Lemma ClosedUnder_noServiceKey allowed : ClosedUnder allowed noServiceKey.
Proof. intros w e _ H. exact H. Qed.

Hint Resolve Settles_removeBackgroundAI ClosedUnder_noServiceKey : settles.
Hint Resolve ClosedUnder_noServiceKey : keeps.

Lemma Settles_traditionalProcessingPipeline imageUri options existingSteps :
  Settles noServiceKey (traditionalProcessingPipeline env imageUri options existingSteps).
Proof.
  pose proof (ClosedUnder_noServiceKey (avoids [ImageToSVG])) as I_closed.
  unfold traditionalProcessingPipeline. settles.
Qed.

(** With background removal switched off the pipeline calls no service. *)
Lemma Settles_traditionalProcessingPipeline_no_removal imageUri options existingSteps :
  Options.truthyField (Options.removeBackground options) = false ->
  Always (traditionalProcessingPipeline env imageUri options existingSteps).
Proof.
  intros Hoff. unfold traditionalProcessingPipeline. rewrite Hoff. settles.
Qed.

Lemma Settles_ultimateFallbackProcessing imageUri existingSteps :
  Always (ultimateFallbackProcessing env imageUri existingSteps).
Proof. unfold ultimateFallbackProcessing, manipulate. settles. Qed.

Hint Resolve Settles_traditionalProcessingPipeline
  Settles_ultimateFallbackProcessing : settles.

(** processImageToTattooDesign returns whenever no background-removal
    service has a key. *)
Lemma Settles_processImageToTattooDesign imageUri options :
  Settles noServiceKey (processImageToTattooDesign env imageUri options).
Proof.
  pose proof (ClosedUnder_noServiceKey (avoids [ImageToSVG])) as I_closed.
  pose proof (ClosedUnder_noServiceKey (fun _ => True)) as I_all.
  unfold processImageToTattooDesign. settles.
Qed.

End AIWorld.

(** ** The image-processing steps *)

Section Steps.
Import Platform Spec AIImageProcessor.
Variable env : Env.

Lemma manipulationRejected_extend w events :
  manipulationRejected env w (extend w events) ->
  exists i e, events !! i = Some e /\ rejectedCall env (log w ++ take i events) e.
Proof.
  intros (before & e & after & Hsplit & Hrej).
  rewrite eventsSince_extend in Hsplit. subst events.
  exists (length before), e. split.
  - rewrite lookup_app_r by reflexivity. rewrite Nat.sub_diag. reflexivity.
  - rewrite take_app_length. exact Hrej.
Qed.

Ltac rejected_call :=
  match goal with
  | H : manipulationRejected env ?w (extend ?w ?events) |- _ =>
      apply manipulationRejected_extend in H as (i & e & Hlookup & Hrej);
      repeat (destruct i as [|i]; cbn in Hlookup; try discriminate Hlookup);
      injection Hlookup as <-; cbn in Hrej;
      try contradiction;
      destruct Hrej as [message Hrej];
      rewrite ?extend_extend in *; rewrite ?log_extend in *; cbn in *; congruence
  end.

Ltac step_run :=
  unfold stepRun, wp, bind, tryCatch, enter, emit, modify, manipulate, external, ret;
  cbn [fst snd];
  destruct (ImageManipulator env) eqn:Hmodule; cbn [negb fst snd];
  [ repeat match goal with
      | |- context [settle (manipulateAsync env ?h ?u ?a ?o) _] =>
          destruct (manipulateAsync env h u a o) as [?image|?message] eqn:?;
          cbn [settle ret throw fst snd]
      end;
    rewrite ?extend_extend; cbn [app];
    eexists _, _; (split; [reflexivity|]); (split; [reflexivity|]);
    (split; [reflexivity|]);
    try (intros _; reflexivity);
    intros [Hoff|Hrejected]; [discriminate Hoff | rejected_call]
  | eexists _, []; repeat split ].

Lemma preprocessForAI_run imageUri w :
  wp (preprocessForAI env imageUri) w (stepRun env PreprocessForAI imageUri w).
Proof. unfold preprocessForAI. step_run. Qed.

Lemma smartCrop_run imageUri w :
  wp (smartCrop env imageUri) w (stepRun env SmartCrop imageUri w).
Proof. unfold smartCrop. step_run. Qed.

Lemma convertToLineArt_run imageUri w :
  wp (convertToLineArt env imageUri) w (stepRun env ConvertToLineArt imageUri w).
Proof. unfold convertToLineArt. step_run. Qed.

Lemma applyTattooStyling_run imageUri autoContrast w :
  wp (applyTattooStyling env imageUri autoContrast) w
     (stepRun env ApplyTattooStyling imageUri w).
Proof. unfold applyTattooStyling. cbv zeta. step_run. Qed.

Lemma localBackgroundRemoval_run imageUri w :
  wp (localBackgroundRemoval env imageUri) w
     (stepRun env LocalBackgroundRemoval imageUri w).
Proof. unfold localBackgroundRemoval. step_run. Qed.

End Steps.

(** ** The background-removal services *)

Section Services.
Import Platform Spec AIImageProcessor.
Variable env : Env.

Lemma fetchedUrls_app events events' :
  fetchedUrls (events ++ events') = fetchedUrls events ++ fetchedUrls events'.
Proof. unfold fetchedUrls. apply omap_app. Qed.

(** One service call: exactly one request, to the endpoint; it never
    throws, and it resolves with null if the request failed. *)
Lemma backgroundService_run endpoint header key prefix imageUri w :
  let request := {| url := endpoint; method := "POST"; headers := [(header, key)];
                    body := FormImage imageUri |} in
  exists o rest,
    backgroundService env endpoint header key prefix imageUri w
    = (o, extend w (Fetch request :: rest))
    /\ (forall e, o <> Throw e)
    /\ entered rest = []
    /\ fetchedUrls rest = []
    /\ (failedFetch env (log w) (Fetch request) -> o = Ok None).
Proof.
  intros request.
  unfold backgroundService, tryCatch, bind, doFetch, external, resolvedByCallback,
    now, writeFile, external, moduleAccess.
  fold request. cbn [failedFetch].
  assert (Hfinish : forall (o : Outcome (option string)) w' (P : Prop),
             (exists rest, w' = extend w (Fetch request :: rest)
                           /\ entered rest = [] /\ fetchedUrls rest = []) ->
             (forall e, o <> Throw e) -> (P -> o = Ok None) ->
             exists o' rest',
               (o, w') = (o', extend w (Fetch request :: rest'))
               /\ (forall e, o' <> Throw e) /\ entered rest' = []
               /\ fetchedUrls rest' = [] /\ (P -> o' = Ok None)).
  { intros o w' P (rest & -> & ? & ?) ? ?. exists o, rest. auto. }
  destruct (fetch env (log w) request) as [response|message]; cbn [settle ret throw].
  2: { apply Hfinish; [exists []; auto | discriminate | reflexivity]. }
  destruct (ok response) eqn:Hok.
  2: { apply Hfinish; [exists []; auto | discriminate | reflexivity]. }
  destruct (blob response) as [imageBlob|message]; cbn [settle ret throw].
  2: { apply Hfinish; [exists []; auto | discriminate | discriminate]. }
  destruct (readAsDataURL env _ imageBlob) as [base64data|]; cbn [settle ret throw].
  2: { apply Hfinish; [|discriminate|discriminate].
       eexists. rewrite !extend_extend. split; [reflexivity | split; reflexivity]. }
  destruct (FileSystem env); cbn [settle ret throw].
  2: { apply Hfinish; [|discriminate|discriminate].
       eexists. rewrite !extend_extend. split; [reflexivity | split; reflexivity]. }
  match goal with
  | |- context [writeAsStringAsync env ?h ?p ?d ?c] =>
      destruct (writeAsStringAsync env h p d c)
  end; cbn [settle ret throw].
  all: apply Hfinish; [|discriminate|discriminate].
  all: eexists; rewrite !extend_extend; split; [reflexivity | split; reflexivity].
Qed.

Lemma everyFetchFailed_at w events before e after :
  everyFetchFailed env w (extend w events) ->
  events = before ++ e :: after ->
  failedFetch env (log w ++ before) e.
Proof. intros H ->. apply (H before e after). apply eventsSince_extend. Qed.

Lemma tryRemoveBgAPI_run imageUri w :
  exists o rest,
    tryRemoveBgAPI env imageUri w
    = (o, extend w (Enter TryRemoveBgAPI :: rest))
    /\ (forall e, o <> Throw e)
    /\ entered rest = []
    /\ fetchedUrls rest = [removeBgEndpoint]
    /\ (forall base, everyFetchFailed env base (extend w (Enter TryRemoveBgAPI :: rest)) ->
                     (exists before, w = extend base before) -> o = Ok None).
Proof.
  unfold tryRemoveBgAPI, bind, enter, emit, modify, gets. cbn [fst snd].
  destruct (backgroundService_run "https://api.remove.bg/v1.0/removebg" "X-Api-Key"
              (removeBgKey (statics (extend w [Enter TryRemoveBgAPI]))) "bg_removed_"
              imageUri (extend w [Enter TryRemoveBgAPI]))
    as (o & rest & -> & Hthrow & Hentered & Hurls & Hfailed).
  eexists o, _. rewrite extend_extend. split; [reflexivity|].
  split; [exact Hthrow|]. rewrite entered_cons, fetchedUrls_cons, Hentered, Hurls.
  cbv iota. cbn [url].
  repeat split. intros base Hall [before ->]. apply Hfailed.
  rewrite !extend_extend in Hall. rewrite !log_extend, <- app_assoc.
  eapply everyFetchFailed_at; [exact Hall|]. rewrite <- app_assoc. reflexivity.
Qed.

Lemma tryClipDropAPI_run imageUri w :
  exists o rest,
    tryClipDropAPI env imageUri w
    = (o, extend w (Enter TryClipDropAPI :: rest))
    /\ (forall e, o <> Throw e)
    /\ entered rest = []
    /\ fetchedUrls rest = [clipDropEndpoint]
    /\ (forall base, everyFetchFailed env base (extend w (Enter TryClipDropAPI :: rest)) ->
                     (exists before, w = extend base before) -> o = Ok None).
Proof.
  unfold tryClipDropAPI, bind, enter, emit, modify, gets. cbn [fst snd].
  destruct (backgroundService_run "https://clipdrop-api.co/remove-background/v1" "x-api-key"
              (clipdropKey (statics (extend w [Enter TryClipDropAPI]))) "clipdrop_"
              imageUri (extend w [Enter TryClipDropAPI]))
    as (o & rest & -> & Hthrow & Hentered & Hurls & Hfailed).
  eexists o, _. rewrite extend_extend. split; [reflexivity|].
  split; [exact Hthrow|]. rewrite entered_cons, fetchedUrls_cons, Hentered, Hurls.
  cbv iota. cbn [url].
  repeat split. intros base Hall [before ->]. apply Hfailed.
  rewrite !extend_extend in Hall. rewrite !log_extend, <- app_assoc.
  eapply everyFetchFailed_at; [exact Hall|]. rewrite <- app_assoc. reflexivity.
Qed.

Local Open Scope js_scope.

(** The second half of removeBackgroundAI: ClipDrop, if it has a key. *)
Lemma thenClipDrop_run imageUri w :
  exists o events (tryClip : bool),
    (clipdropApiKey <- gets (fun w => clipdropKey (statics w)) ;;
     if truthyOpt clipdropApiKey then
       clipDropResult <- tryClipDropAPI env imageUri ;;
       if truthyOpt clipDropResult then ret clipDropResult else ret None
     else ret None) w
    = (o, extend w events)
    /\ (forall e, o <> Throw e)
    /\ entered events = (if tryClip then [TryClipDropAPI] else [])
    /\ fetchedUrls events = (if tryClip then [clipDropEndpoint] else [])
    /\ (tryClip = true -> truthyOpt (clipdropKey (statics w)) = true)
    /\ (forall base, everyFetchFailed env base (extend w events) ->
                     (exists before, w = extend base before) -> o = Ok None).
Proof.
  unfold bind at 1, gets at 1. cbn [fst snd].
  destruct (truthyOpt (clipdropKey (statics w))) eqn:Hkey.
  - unfold bind.
    destruct (tryClipDropAPI_run imageUri w)
      as (o & rest & -> & Hthrow & Hentered & Hurls & Hfailed).
    destruct o as [result|e|].
    + destruct (truthyOpt result) eqn:Hresult; cbn [ret].
      * eexists _, _, true. split; [reflexivity|].
        rewrite entered_cons, fetchedUrls_cons, Hentered, Hurls.
        repeat split; [discriminate|].
        intros base Hall Hbase. specialize (Hfailed base Hall Hbase).
        injection Hfailed as ->. discriminate Hresult.
      * eexists _, _, true. split; [reflexivity|].
        rewrite entered_cons, fetchedUrls_cons, Hentered, Hurls.
        repeat split; discriminate.
    + exfalso. apply (Hthrow e). reflexivity.
    + eexists _, _, true. split; [reflexivity|].
      rewrite entered_cons, fetchedUrls_cons, Hentered, Hurls.
      repeat split; [discriminate|].
      intros base Hall Hbase. specialize (Hfailed base Hall Hbase). discriminate Hfailed.
  - exists (Ok None), [], false. rewrite extend_nil.
    repeat split; discriminate.
Qed.

(** removeBackgroundAI: Remove.bg exactly when it has a key, then ClipDrop
    only if it has a key; never an exception; null when every service that
    was tried failed. *)
Lemma removeBackgroundAI_run imageUri w :
  exists o events (tryRemoveBg tryClipDrop : bool),
    removeBackgroundAI env imageUri w
    = (o, extend w (Enter RemoveBackgroundAI :: events))
    /\ (forall e, o <> Throw e)
    /\ entered events
       = (if tryRemoveBg then [TryRemoveBgAPI] else [])
         ++ (if tryClipDrop then [TryClipDropAPI] else [])
    /\ fetchedUrls events
       = (if tryRemoveBg then [removeBgEndpoint] else [])
         ++ (if tryClipDrop then [clipDropEndpoint] else [])
    /\ tryRemoveBg = truthyOpt (removeBgKey (statics w))
    /\ (tryClipDrop = true -> truthyOpt (clipdropKey (statics w)) = true)
    /\ (forall base,
          everyFetchFailed env base (extend w (Enter RemoveBackgroundAI :: events)) ->
          (exists before, w = extend base before) -> o = Ok None).
Proof.
  unfold removeBackgroundAI. cbv zeta.
  unfold bind at 1, enter, emit, modify. cbn [fst snd].
  unfold tryCatch, bind at 1, gets at 1. cbn [fst snd]. rewrite statics_extend.
  destruct (truthyOpt (removeBgKey (statics w))) eqn:Hkey.
  - unfold bind at 1.
    destruct (tryRemoveBgAPI_run imageUri (extend w [Enter RemoveBackgroundAI]))
      as (o & rest & -> & Hthrow & Hentered & Hurls & Hfailed).
    assert (Hbase : forall base, (exists before, w = extend base before) ->
              exists before, extend w [Enter RemoveBackgroundAI] = extend base before).
    { intros base [before ->]. eexists. apply extend_extend. }
    destruct o as [result|e|].
    + destruct (truthyOpt result) eqn:Hresult; cbn [ret].
      * eexists _, _, true, false. rewrite extend_extend.
        split; [reflexivity|]. rewrite entered_cons, fetchedUrls_cons, Hentered, Hurls.
        repeat split; [discriminate | discriminate|].
        intros base Hall Hw.
        assert (Ho : Ok result = Ok None).
        { apply (Hfailed base); [rewrite extend_extend; exact Hall | exact (Hbase base Hw)]. }
        injection Ho as ->. discriminate Hresult.
      * destruct (thenClipDrop_run imageUri
                    (extend (extend w [Enter RemoveBackgroundAI]) (Enter TryRemoveBgAPI :: rest)))
          as (o & events & tryClip & -> & Hthrow' & Hentered' & Hurls' & Hkey' & Hfailed').
        assert (Hcaught : forall w' : World, match o with
                                    | Ok a => (Ok a, w')
                                    | Throw _ => (Ok None, w')
                                    | Pending => (Pending, w')
                                    end = (o, w')).
        { intros w'. destruct o as [?|e|]; [reflexivity | | reflexivity].
          exfalso. apply (Hthrow' e). reflexivity. }
        rewrite Hcaught.
        eexists _, _, true, tryClip. rewrite !extend_extend. cbn [app].
        split; [reflexivity|].
        rewrite entered_cons, fetchedUrls_cons, entered_app, fetchedUrls_app,
          Hentered, Hurls, Hentered', Hurls'.
        repeat split; [exact Hthrow' | exact Hkey'|].
        intros base Hall Hw.
        assert (Ho : o = Ok None).
        { apply (Hfailed' base).
          - rewrite !extend_extend. exact Hall.
          - destruct Hw as [before ->]. eexists. rewrite !extend_extend. reflexivity. }
        rewrite Ho. reflexivity.
    + exfalso. apply (Hthrow e). reflexivity.
    + eexists _, _, true, false. rewrite extend_extend.
      split; [reflexivity|]. rewrite entered_cons, fetchedUrls_cons, Hentered, Hurls.
      repeat split; [discriminate | discriminate|].
      intros base Hall Hw.
      apply (Hfailed base); [rewrite extend_extend; exact Hall | exact (Hbase base Hw)].
  - destruct (thenClipDrop_run imageUri (extend w [Enter RemoveBackgroundAI]))
      as (o & events & tryClip & -> & Hthrow' & Hentered' & Hurls' & Hkey' & Hfailed').
    assert (Hcaught : forall w' : World, match o with
                                | Ok a => (Ok a, w')
                                | Throw _ => (Ok None, w')
                                | Pending => (Pending, w')
                                end = (o, w')).
    { intros w'. destruct o as [?|e|]; [reflexivity | | reflexivity].
      exfalso. apply (Hthrow' e). reflexivity. }
    rewrite Hcaught.
    eexists _, _, false, tryClip. rewrite !extend_extend. cbn [app].
    split; [reflexivity|].
    repeat split; [exact Hthrow' | exact Hentered' | exact Hurls' | exact Hkey'|].
    intros base Hall Hw.
    assert (Ho : o = Ok None).
    { apply (Hfailed' base).
      - rewrite !extend_extend. exact Hall.
      - destruct Hw as [before ->]. eexists. rewrite !extend_extend. reflexivity. }
    rewrite Ho. reflexivity.
Qed.

End Services.

(** ** The traditional pipeline *)

Section Pipeline.
Import Platform Spec AIImageProcessor.
Variable env : Env.

Lemma pipelineSteps_external events : entered events = [] -> pipelineSteps events = [].
Proof. unfold pipelineSteps. intros ->. reflexivity. Qed.

Lemma everyFetchFailed_prefix base events more :
  everyFetchFailed env base (extend base (events ++ more)) ->
  everyFetchFailed env base (extend base events).
Proof.
  intros H before e after Hsplit. rewrite eventsSince_extend in Hsplit. subst events.
  apply (H before e (after ++ more)). rewrite eventsSince_extend, <- app_assoc.
  reflexivity.
Qed.

Lemma removeBackgroundAI_serviceRun imageUri w :
  wp (removeBackgroundAI env imageUri) w
     (fun o w' =>
        exists events,
          removeBackgroundAI env imageUri w = (o, w')
          /\ w' = extend w (Enter RemoveBackgroundAI :: events)
          /\ pipelineSteps events = []
          /\ (forall e, o <> Throw e)
          /\ (forall base, everyFetchFailed env base w' ->
                           (exists before, w = extend base before) -> o = Ok None)).
Proof.
  unfold wp.
  destruct (removeBackgroundAI_run env imageUri w)
    as (o & events & tryBg & tryClip & Hrun & Hthrow & Hentered & _ & _ & _ & Hfailed).
  rewrite Hrun. cbn [fst snd].
  exists events. repeat split; [|exact Hthrow | exact Hfailed].
  unfold pipelineSteps. rewrite Hentered. destruct tryBg, tryClip; reflexivity.
Qed.

Ltac helper_run lemma :=
  apply wp_call; eapply wp_mono; [apply lemma|];
  cbv beta;
  let H := fresh "Hexternal" in
  intros ? ? (? & ? & -> & -> & H & _);
  apply pipelineSteps_external in H; cbv beta iota.

Ltac pipeline_leaf background :=
  unfold pipelineRun, stepMethods, stepLabels; cbn [snd];
  repeat match goal with
    | H : Options.truthyField _ = _ |- _ => rewrite H; clear H
    end;
  rewrite ?extend_extend; rewrite ?eventsSince_extend; cbn [app];
  exists background;
  repeat (rewrite ?pipelineSteps_cons, ?pipelineSteps_app; cbn [isPipelineStep app]);
  repeat match goal with
    | H : pipelineSteps _ = [] |- _ => rewrite H
    end;
  cbn [app processingSteps format model success originalImageUri];
  rewrite <- ?app_assoc; cbn [app].

Ltac pipeline_step :=
  lazymatch goal with
  | |- wp (bind _ _) _ _ => apply wp_bind
  | |- wp (if ?b then _ else _) _ _ => destruct b eqn:?
  | |- wp (call (preprocessForAI _ _)) _ _ => helper_run preprocessForAI_run
  | |- wp (call (localBackgroundRemoval _ _)) _ _ => helper_run localBackgroundRemoval_run
  | |- wp (call (smartCrop _ _)) _ _ => helper_run smartCrop_run
  | |- wp (call (convertToLineArt _ _)) _ _ => helper_run convertToLineArt_run
  | |- wp (call (applyTattooStyling _ _ _)) _ _ => helper_run applyTattooStyling_run
  | |- wp (push _) _ _ => apply wp_push; cbv beta iota
  | |- wp (ret _) _ _ => apply wp_ret; cbv beta iota
  | |- wp readSteps _ _ => apply wp_readSteps; cbv beta iota
  end.

(** At the end of a run with background removal: the call to
    removeBackgroundAI that the run made, and what it returned. *)
Ltac service_call result :=
  intros _;
  match goal with
  | Hcall : removeBackgroundAI env ?u _ = (Ok result, _) |- _ =>
      rewrite ?extend_extend in Hcall; cbn [app] in Hcall;
      eexists u, _, result, _;
      split; [|split; [exact Hcall|]]
  end;
  [ repeat (rewrite ?pipelineSteps_cons, ?pipelineSteps_app; cbn [isPipelineStep app]);
    repeat match goal with
      | H : pipelineSteps _ = [] |- _ => rewrite H
      end;
    reflexivity
  | split;
    [ eexists; cbn [app]; reflexivity
    | cbn [truthyOpt]; split; intros Hside;
      first [reflexivity | assumption | discriminate Hside | congruence] ] ].

Lemma traditionalProcessingPipeline_run imageUri options existingSteps w :
  wp (traditionalProcessingPipeline env imageUri options existingSteps) w
     (pipelineRun env imageUri options existingSteps w).
Proof.
  unfold traditionalProcessingPipeline.
  apply wp_bind, wp_enter. apply wp_withLocals, wp_tryCatch.
  do 5 pipeline_step.
  destruct (Options.truthyField (Options.removeBackground options)) eqn:Hremove.
  - (* background removal *)
    apply wp_bind, wp_call. eapply wp_mono; [apply removeBackgroundAI_serviceRun|].
    cbv beta. intros o w2 (events & Hcall & -> & Hservice & Hthrow & Hfailed).
    destruct o as [[removedUri|]|e|]; cbv beta iota.
    + destruct (truthyString removedUri) eqn:Htruthy.
      * (* removed by a service *)
        repeat pipeline_step.
        all: pipeline_leaf RemovedByAI; repeat split.
        all: try solve [service_call (Some removedUri)].
        all: intros Hall; exfalso.
        all: assert (Hnull : Ok (Some removedUri) = Ok None); [|discriminate Hnull].
        all: apply (Hfailed w); [|eexists; apply extend_extend].
        all: rewrite !extend_extend; cbn [app].
        all: eapply everyFetchFailed_prefix.
        all: refine (eq_ind _ (fun l => everyFetchFailed env w (extend w l)) Hall _ _).
        all: cbn [app]; rewrite <- ?app_assoc; cbn [app]; reflexivity.
      * repeat pipeline_step.
        all: pipeline_leaf ProcessedLocally; repeat split.
        all: solve [service_call (Some removedUri)].
    + repeat pipeline_step.
      all: pipeline_leaf ProcessedLocally; repeat split.
      all: solve [service_call (@None string)].
    + exfalso. apply (Hthrow e). reflexivity.
    + unfold pipelineRun. cbn [snd]. split; [assumption|].
      split.
      2: { intros Hall.
           assert (Hnull : @Pending (option string) = Ok None); [|discriminate Hnull].
           apply (Hfailed w); [exact Hall | eexists; apply extend_extend]. }
      rewrite !extend_extend, eventsSince_extend. cbn [app].
      repeat (rewrite ?pipelineSteps_cons, ?pipelineSteps_app; cbn [isPipelineStep app]).
      repeat match goal with
        | H : pipelineSteps _ = [] |- _ => rewrite H; clear H
        end.
      reflexivity.
  - repeat pipeline_step.
    all: pipeline_leaf ProcessedLocally; repeat split.
    all: intros Hon; discriminate Hon.
Qed.

End Pipeline.

(** ** When imageToSVG runs *)

Section StarVectorGate.
Import Platform Spec AIImageProcessor.
Variable env : Env.

(** processImageToTattooDesign enters imageToSVG only if the merged option
    useStarVector is true and isAvailable() holds at the call. *)
Lemma imageToSVG_entered_only_if imageUri options w :
  ImageToSVG ∈ entered (eventsSince w
                          (snd (processImageToTattooDesign env imageUri options w))) ->
  Options.truthyField (Options.useStarVector (Options.mergeDefaults options)) = true
  /\ StarVectorProcessor.isAvailable env w = true.
Proof.
  intros Hin.
  destruct (Options.truthyField (Options.useStarVector (Options.mergeDefaults options)))
    eqn:Huse;
    destruct (StarVectorProcessor.isAvailable env w) eqn:Havail; auto; exfalso.
  all: pose (I := fun w' => exists events,
                    w' = extend w events /\ Forall (avoids [ImageToSVG]) events).
  all: assert (HI : I (snd (processImageToTattooDesign env imageUri options w))).
  all: try (apply (Keeps_processImageToTattooDesign_without_StarVector env I);
            [ apply ClosedUnder_since
            | first [ left; exact Huse
                    | right; intros w' (events & -> & _); exact Havail ]
            | exists []; split; [symmetry; apply extend_nil | constructor] ]).
  all: destruct HI as (events & Hw' & Hall); rewrite Hw', eventsSince_extend in Hin.
  all: apply (entered_avoids _ _ _ Hall Hin); left.
Qed.

(** C9: initialize with enableCPUMode = true, whatever the token, returns
    true and marks the processor initialized; without a HuggingFace client
    isAvailable() is still false, and processImageToTattooDesign then never
    enters imageToSVG. *)
Theorem cpu_mode_alone_never_reaches_StarVector token w imageUri options :
  hf (statics w) = None ->
  fst (StarVectorProcessor.initialize env token true w) = Ok true
  /\ isInitialized (statics (snd (StarVectorProcessor.initialize env token true w))) = true
  /\ StarVectorProcessor.isAvailable env
       (snd (StarVectorProcessor.initialize env token true w)) = false
  /\ ImageToSVG ∉
       entered (eventsSince (snd (StarVectorProcessor.initialize env token true w))
                  (snd (processImageToTattooDesign env imageUri options
                          (snd (StarVectorProcessor.initialize env token true w))))).
Proof.
  intros Hhf.
  assert (Hunavailable : StarVectorProcessor.isAvailable env
            (snd (StarVectorProcessor.initialize env token true w)) = false).
  { unfold StarVectorProcessor.isAvailable. cbn. rewrite Hhf. reflexivity. }
  repeat split; [exact Hunavailable|].
  intros Hin. apply imageToSVG_entered_only_if in Hin as [_ Havail]. congruence.
Qed.

End StarVectorGate.

(** ** The fallback tiers of processImageToTattooDesign *)

Section Tiers.
Import Platform Spec AIImageProcessor Examples.

(** What holds of every run: no exception leaves the method, every result
    it returns is a success (the object with [success: false] is never
    built, because the body of the [try] cannot throw), and it returns
    whenever no background-removal service has a key. *)
Lemma processImageToTattooDesign_outcomes env imageUri options w :
  (forall e, fst (processImageToTattooDesign env imageUri options w) <> Throw e)
  /\ (forall r, fst (processImageToTattooDesign env imageUri options w) = Ok r ->
                success r = true)
  /\ (noServiceKey w ->
      exists r, fst (processImageToTattooDesign env imageUri options w) = Ok r
                /\ success r = true).
Proof.
  pose proof (NoThrow_processImageToTattooDesign env imageUri options w) as Hthrow.
  pose proof (Yields_processImageToTattooDesign env imageUri options w) as Hyields.
  pose proof (Settles_processImageToTattooDesign env imageUri options w) as Hsettles.
  repeat split; [exact Hthrow | exact Hyields|].
  intros Hkeys. specialize (Hsettles Hkeys).
  destruct (fst (processImageToTattooDesign env imageUri options w)) as [r|e|] eqn:Hrun.
  - exists r. split; [reflexivity | apply Hyields; reflexivity].
  - exfalso. apply (Hthrow e). reflexivity.
  - exfalso. apply Hsettles. reflexivity.
Qed.

(** C1: no exception ever leaves processImageToTattooDesign, every result
    it returns has success = true, and it returns whenever no
    background-removal service has a key; but it does not return for every
    input.  With a Remove.bg key configured and the service answering 200,
    the [onloadend] callback of tryRemoveBgAPI throws before it reaches
    [resolve] when expo-file-system is missing (on
    [FileSystem.documentDirectory]) and when the storage is full (on the
    rejected write): local processing has failed for the same reason, the
    pipeline awaits Remove.bg, and the promise of processImageToTattooDesign
    never settles, for the default options. *)
Theorem processImageToTattooDesign_never_throws_but_can_hang :
  (forall env imageUri options w,
      (forall e, fst (processImageToTattooDesign env imageUri options w) <> Throw e)
      /\ (forall r, fst (processImageToTattooDesign env imageUri options w) = Ok r ->
                    success r = true)
      /\ (noServiceKey w ->
          exists r, fst (processImageToTattooDesign env imageUri options w) = Ok r))
  /\ fst (processImageToTattooDesign deviceWithoutFileSystem photo Options.emptyOptions
            (worldWithRemoveBgKey deviceWithoutFileSystem))
     = Pending
  /\ fst (processImageToTattooDesign deviceWithFullStorage photo Options.emptyOptions
            (worldWithRemoveBgKey deviceWithFullStorage))
     = Pending.
Proof.
  split; [|split; vm_compute; reflexivity].
  intros env imageUri options w.
  destruct (processImageToTattooDesign_outcomes env imageUri options w)
    as (Hthrow & Hsuccess & Hreturns).
  repeat split; [exact Hthrow | exact Hsuccess|].
  intros Hkeys. destruct (Hreturns Hkeys) as (r & Hrun & _). exists r. exact Hrun.
Qed.

(** C6: processImageToTattooDesign enters imageToSVG only if the merged
    option useStarVector is true and isAvailable() holds at the call; but a
    run that skips the branch need not produce a graphic.  With
    [useStarVector: false], the storage full and a Remove.bg key configured,
    imageToSVG is not entered, local processing fails on its write, and the
    pipeline hangs in tryRemoveBgAPI, whose callback throws on the rejected
    write. *)
Theorem skipped_StarVector_branch_can_hang :
  (forall env imageUri options w,
      ImageToSVG ∈ entered (eventsSince w
                              (snd (processImageToTattooDesign env imageUri options w))) ->
      Options.truthyField (Options.useStarVector (Options.mergeDefaults options)) = true
      /\ StarVectorProcessor.isAvailable env w = true)
  /\ (ImageToSVG ∉ entered (log (snd (processImageToTattooDesign deviceWithFullStorage photo
                                       withoutStarVector
                                       (worldWithRemoveBgKey deviceWithFullStorage)))))
  /\ fst (processImageToTattooDesign deviceWithFullStorage photo withoutStarVector
            (worldWithRemoveBgKey deviceWithFullStorage))
     = Pending.
Proof.
  split; [exact imageToSVG_entered_only_if|].
  split; [|vm_compute; reflexivity].
  intros Hin. vm_compute in Hin.
  repeat (apply elem_of_cons in Hin as [Hin|Hin]; [discriminate Hin|]).
  inversion Hin.
Qed.

End Tiers.

(** ** The traditional pipeline and its steps *)

Section PipelineClaims.
Import Platform Spec AIImageProcessor Examples.


(** C3: each of the five steps resolves, and it resolves with its input URI
    when the image-manipulation module is missing or a manipulation call it
    made was rejected. *)
Theorem steps_return_input_on_failure env autoContrast step helper imageUri w :
  (step, helper) ∈ stepHelpers env autoContrast ->
  (exists result, fst (helper imageUri w) = Ok result)
  /\ (ImageManipulator env = false
      \/ manipulationRejected env w (snd (helper imageUri w)) ->
      fst (helper imageUri w) = Ok imageUri).
Proof.
  intros Hin.
  assert (Hrun : wp (helper imageUri) w (stepRun env step imageUri w)).
  { unfold stepHelpers in Hin.
    repeat (apply elem_of_cons in Hin as [Hin|Hin]; [injection Hin as -> ->|]).
    - apply preprocessForAI_run.
    - apply localBackgroundRemoval_run.
    - apply smartCrop_run.
    - apply convertToLineArt_run.
    - apply applyTattooStyling_run.
    - inversion Hin. }
  unfold wp, stepRun in Hrun.
  destruct Hrun as (result & events & Hresult & Hworld & _ & Hfallback).
  split; [exists result; exact Hresult|].
  intros Hfailure. rewrite Hresult. f_equal. apply Hfallback.
  exact Hfailure.
Qed.

Lemma steps_return_input_on_failure_witness :
  (exists result, fst (preprocessForAI deviceWithoutModules photo freshWorld) = Ok result)
  /\ (ImageManipulator deviceWithoutModules = false
      \/ manipulationRejected deviceWithoutModules freshWorld
           (snd (preprocessForAI deviceWithoutModules photo freshWorld)) ->
      fst (preprocessForAI deviceWithoutModules photo freshWorld) = Ok photo).
Proof.
  apply (steps_return_input_on_failure deviceWithoutModules None PreprocessForAI).
  left.
Defined.


End PipelineClaims.

(** ** SVG validation *)

Section SvgClaims.
Import Platform Spec Examples.

(** C10 as stated fails: the expression that extracts the fragment ignores
    case, the prefix test does not, so markup in capitals comes back in
    capitals. *)
Lemma validateAndCleanSVG_keeps_capital_tag :
  ~ (forall svgCode cleaned,
       Svg.validateAndCleanSVG svgCode = Ok cleaned ->
       Js.startsWith (Js.lit "<svg") cleaned = true).
Proof.
  intros H.
  specialize (H (Js.lit "Here it is: <SVG><PATH D='M0 0'/></SVG> Enjoy.")
                (Js.lit "<SVG><PATH D='M0 0'/></SVG>")).
  assert (Hrun : Svg.validateAndCleanSVG
                   (Js.lit "Here it is: <SVG><PATH D='M0 0'/></SVG> Enjoy.")
                 = Ok (Js.lit "<SVG><PATH D='M0 0'/></SVG>"))
    by (vm_compute; reflexivity).
  specialize (H Hrun). vm_compute in H. discriminate H.
Qed.

(** C10, as amended: what validateAndCleanSVG returns opens with [<svg] up
    to the case of the letters; it throws 'Invalid SVG code generated', and
    nothing else, exactly when the trimmed input neither starts with '<svg'
    nor contains [<svg ... </svg>] in either case; so the svgCode of every
    successful result of imageToSVG that does not come from local
    processing opens with [<svg] up to case. *)
Theorem validateAndCleanSVG_opens_with_svg_up_to_case svgCode :
  (forall cleaned,
      Svg.validateAndCleanSVG svgCode = Ok cleaned ->
      Js.startsWithCI (Js.lit "<svg") cleaned = true)
  /\ (Svg.validateAndCleanSVG svgCode = Throw "Invalid SVG code generated" <->
      Js.startsWith (Js.lit "<svg") (Js.trim svgCode) = false
      /\ ~ hasSvgFragment (Js.trim svgCode))
  /\ (forall message,
        Svg.validateAndCleanSVG svgCode = Throw message ->
        message = "Invalid SVG code generated")
  /\ Svg.validateAndCleanSVG svgCode <> Pending
  /\ (forall env imageUri options w r,
        fst (StarVectorProcessor.imageToSVG env imageUri options w) = Ok r ->
        modelResultOpensWithSvg r).
Proof.
  split; [intros cleaned; apply validateAndCleanSVG_head|].
  split.
  { rewrite validateAndCleanSVG_throws. split; [intros (_ & ? & ?); auto | auto]. }
  split.
  { intros message Hthrow. apply validateAndCleanSVG_throws in Hthrow as [-> _].
    reflexivity. }
  split; [apply validateAndCleanSVG_settles|].
  intros env imageUri options w r Hrun.
  exact (Yields_imageToSVG env imageUri options w r Hrun).
Qed.

(** The HuggingFace path on a device where everything works: the model
    answers in capitals and the result carries the markup in capitals. *)
Example imageToSVG_over_HuggingFace :
  exists r,
    fst (StarVectorProcessor.imageToSVG deviceWithHuggingFace photo
           StarVectorProcessor.noOptions (worldWithHuggingFace deviceWithHuggingFace))
    = Ok r
    /\ StarVectorProcessor.success r = true
    /\ StarVectorProcessor.resultModel r = Some "starvector/starvector-1b-im2svg"
    /\ StarVectorProcessor.svgCode r = Some (Js.lit "<SVG><PATH D='M0 0'/></SVG>").
Proof. eexists. vm_compute. repeat split. Qed.

End SvgClaims.

Section GateExamples.
Import Platform Spec Examples.

Lemma cpu_mode_alone_never_reaches_StarVector_witness :
  fst (StarVectorProcessor.initialize deviceWithHuggingFace None true freshWorld) = Ok true
  /\ isInitialized
       (statics (snd (StarVectorProcessor.initialize deviceWithHuggingFace None true
                        freshWorld))) = true
  /\ StarVectorProcessor.isAvailable deviceWithHuggingFace
       (snd (StarVectorProcessor.initialize deviceWithHuggingFace None true freshWorld))
     = false
  /\ ImageToSVG ∉
       entered
         (eventsSince
            (snd (StarVectorProcessor.initialize deviceWithHuggingFace None true freshWorld))
            (snd (AIImageProcessor.processImageToTattooDesign deviceWithHuggingFace photo
                    AIImageProcessor.Options.emptyOptions
                    (snd (StarVectorProcessor.initialize deviceWithHuggingFace None true
                            freshWorld))))).
Proof.
  apply (cpu_mode_alone_never_reaches_StarVector deviceWithHuggingFace None freshWorld
           photo AIImageProcessor.Options.emptyOptions).
  reflexivity.
Defined.

End GateExamples.
(** ** The design store: lookups, failures and statistics *)

Section StoreLookups.
Import DesignManager Spec.
Variable toISOString : Z -> string.
Variable writeFails : nat -> bool.

Lemma getCustomDesign_unfold designId st :
  getCustomDesign toISOString designId st
  = (Ok (find (fun design => bool_decide (id design = designId)) (listed toISOString st)),
     st).
Proof.
  unfold getCustomDesign, tryCatch, bind. rewrite getCustomDesigns_total. reflexivity.
Qed.

Lemma listed_after_save design st st' :
  saveCustomDesign toISOString writeFails design st = (Ok tt, st') ->
  listed toISOString st' = persisted toISOString st design :: listed toISOString st.
Proof.
  rewrite saveCustomDesign_unfold. unfold persisted.
  destruct (AsyncStorage st) as [store|] eqn:Hst.
  - destruct (writeFails (writes st)); [discriminate|].
    intros [= <-]. rewrite (listed_after_setItem toISOString st store _ Hst). cbn [map].
    rewrite (listed_async_stable toISOString st store Hst). reflexivity.
  - intros [= <-]. rewrite !listed_memory by reflexivity. reflexivity.
Qed.

Lemma listed_after_delete designId st st' :
  deleteCustomDesign toISOString writeFails designId st = (Ok tt, st') ->
  listed toISOString st'
  = filter (fun design => id design <> designId) (listed toISOString st).
Proof.
  rewrite deleteCustomDesign_unfold. cbv zeta.
  destruct (AsyncStorage st) as [store|] eqn:Hst.
  - destruct (writeFails (writes st)); [discriminate|].
    intros [= <-]. rewrite (listed_after_setItem toISOString st store _ Hst).
    apply filter_stable, (listed_async_stable toISOString st store Hst).
  - intros [= <-]. rewrite listed_memory by reflexivity. reflexivity.
Qed.

Lemma find_filter_other designId other (l : list Design) :
  other <> designId ->
  find (fun design => bool_decide (id design = other))
       (filter (fun design => id design <> designId) l)
  = find (fun design => bool_decide (id design = other)) l.
Proof.
  intros Hother. induction l as [|d l IH]; [reflexivity|].
  rewrite filter_cons. cbn [find].
  destruct (decide (id d <> designId)) as [Hkeep|Hdrop].
  - cbn [find]. rewrite IH. reflexivity.
  - rewrite IH. rewrite bool_decide_eq_false_2; [reflexivity|].
    intros Heq. apply Hdrop. congruence.
Qed.

Lemma find_filter_same designId (l : list Design) :
  find (fun design => bool_decide (id design = designId))
       (filter (fun design => id design <> designId) l)
  = None.
Proof.
  induction l as [|d l IH]; [reflexivity|].
  rewrite filter_cons. destruct (decide (id d <> designId)) as [Hkeep|Hdrop]; [|exact IH].
  cbn [find]. rewrite bool_decide_eq_false_2 by exact Hkeep. exact IH.
Qed.



(** X3: clearAllCustomDesigns.  Once it has completed, getCustomDesigns
    resolves with the empty list and getCustomDesign with null for every
    id; under AsyncStorage only the key of the designs has been removed. *)
Theorem clearAllCustomDesigns_empties_the_store st st' :
  clearAllCustomDesigns writeFails st = (Ok tt, st') ->
  getCustomDesigns toISOString st' = (Ok [], st')
  /\ (forall designId, getCustomDesign toISOString designId st' = (Ok None, st'))
  /\ otherKeysUntouched CUSTOM_DESIGNS_KEY st st'
  /\ (forall store', AsyncStorage st' = Some store' -> store' !! CUSTOM_DESIGNS_KEY = None).
Proof.
  rewrite clearAllCustomDesigns_unfold. intros Hclear.
  assert (Hlist : listed toISOString st' = []).
  { destruct (AsyncStorage st) as [store|] eqn:Hst.
    - destruct (writeFails (writes st)); [discriminate|].
      injection Hclear as <-. apply listed_after_removeItem.
    - injection Hclear as <-. apply listed_memory. reflexivity. }
  split; [rewrite getCustomDesigns_total, Hlist; reflexivity|].
  split; [intros designId; rewrite getCustomDesign_unfold, Hlist; reflexivity|].
  unfold otherKeysUntouched.
  destruct (AsyncStorage st) as [store|] eqn:Hst.
  - destruct (writeFails (writes st)); [discriminate|].
    injection Hclear as <-. cbn. split.
    + intros k Hk. apply lookup_delete_ne. congruence.
    + intros store' [= <-]. apply lookup_delete_eq.
  - injection Hclear as <-. cbn. split; [exact Logic.I | discriminate].
Qed.


(** X5: an unreadable store.  When AsyncStorage holds no text under the key
    of the designs, or a text that JSON.parse rejects, or the empty text,
    getCustomDesigns resolves with the empty list; a save that completes
    then writes a list that holds the new design alone, so whatever the
    unreadable text held is gone. *)
Theorem unreadable_store_reads_empty_and_is_overwritten design st store :
  AsyncStorage st = Some store ->
  (store !! CUSTOM_DESIGNS_KEY = None
   \/ exists raw, store !! CUSTOM_DESIGNS_KEY = Some (Unparseable raw)) ->
  getCustomDesigns toISOString st = (Ok [], st)
  /\ (forall st',
        saveCustomDesign toISOString writeFails design st = (Ok tt, st') ->
        (exists store',
            AsyncStorage st' = Some store'
            /\ store' !! CUSTOM_DESIGNS_KEY
               = Some (JsonDesigns [jsonImage toISOString design]))
        /\ getCustomDesigns toISOString st'
           = (Ok [jsonImage toISOString design], st')).
Proof.
  intros Hst Hkey.
  assert (Hlist : listed toISOString st = []).
  { unfold listed, getCustomDesigns, tryCatch, bind, gets, getItem, ret.
    rewrite Hst. cbn.
    destruct Hkey as [-> | [raw ->]]; [reflexivity|]. cbn.
    destruct (truthyString raw); reflexivity. }
  split; [rewrite getCustomDesigns_total, Hlist; reflexivity|].
  intros st' Hsave.
  pose proof (listed_after_save design st st' Hsave) as Hafter.
  rewrite getCustomDesigns_total, Hafter, Hlist.
  unfold persisted. rewrite Hst. split; [|reflexivity].
  rewrite saveCustomDesign_unfold, Hst, Hlist in Hsave.
  destruct (writeFails (writes st)); [discriminate|].
  injection Hsave as <-. cbn. eexists. split; [reflexivity|].
  apply lookup_insert_eq.
Qed.

End StoreLookups.

Section StoreStatistics.
Import DesignManager Spec.
Variable toISOString : Z -> string.

Lemma getTimes_settles dates : getTimes dates <> Pending.
Proof.
  induction dates as [|[time|text] rest IH]; cbn; [discriminate| |discriminate].
  destruct (getTimes rest); [discriminate | discriminate | contradiction].
Qed.

Lemma getTimes_objects times : getTimes (map DateObject times) = Ok times.
Proof. induction times as [|t times IH]; cbn; [|rewrite IH]; reflexivity. Qed.

(** What a design carries after JSON is never a Date object. *)
Lemma createdDates_json (l : list Design) :
  Forall (fun date => exists text, date = DateString text)
         (createdDates (map (jsonImage toISOString) l)).
Proof.
  unfold createdDates. induction l as [|d l IH]; cbn; [constructor|].
  destruct (createdAt d) as [[time|text]|]; cbn; [| |exact IH].
  - destruct (truthyString (toISOString time)); [constructor; eauto | exact IH].
  - destruct (truthyString text); [constructor; eauto | exact IH].
Qed.

Lemma getDesignStats_unfold st :
  getDesignStats toISOString st
  = (Ok (if Nat.eqb (length (listed toISOString st)) 0 then noDesignStats
         else match sortByTime (createdDates (listed toISOString st)) with
              | Ok sortedDates =>
                  {| totalCustomDesigns := length (listed toISOString st);
                     oldestDesign := head sortedDates;
                     newestDesign := last sortedDates |}
              | _ => noDesignStats
              end),
     st).
Proof.
  unfold getDesignStats, tryCatch, bind at 1. rewrite getCustomDesigns_total.
  destruct (Nat.eqb (length (listed toISOString st)) 0); [reflexivity|].
  unfold bind, ret.
  destruct (sortByTime (createdDates (listed toISOString st))) as [sorted|e|] eqn:Hsort;
    [reflexivity | reflexivity|].
  exfalso. unfold sortByTime in Hsort.
  destruct (createdDates (listed toISOString st)) as [|d1 [|d2 rest]]; try discriminate.
  pose proof (getTimes_settles (d1 :: d2 :: rest)) as Hsettles.
  destruct (getTimes (d1 :: d2 :: rest)); [discriminate | discriminate | contradiction].
Qed.

(** X6: statistics under AsyncStorage.  As soon as two of the stored
    designs carry a creation date, getDesignStats resolves with
    [{ totalCustomDesigns: 0 }]: the dates come back from JSON as strings,
    [getTime] throws inside the sort, and the [catch] returns the statistics
    of an empty store. *)
Theorem getDesignStats_counts_nothing_after_json st store :
  AsyncStorage st = Some store ->
  2 <= length (createdDates (listed toISOString st)) ->
  getDesignStats toISOString st = (Ok noDesignStats, st)
  /\ 2 <= length (listed toISOString st).
Proof.
  intros Hst Hdates. rewrite getDesignStats_unfold.
  pose proof (createdDates_json (listed toISOString st)) as Hjson.
  rewrite (listed_async_stable toISOString st store Hst) in Hjson.
  assert (Hlen : 2 <= length (listed toISOString st)).
  { etransitivity; [exact Hdates|]. unfold createdDates.
    etransitivity; [apply List.filter_length_le|].
    generalize (listed toISOString st). intros l.
    induction l as [|d l IH]; cbn; [lia|].
    destruct (createdAt d); cbn; lia. }
  split; [|exact Hlen].
  destruct (listed toISOString st) as [|d0 l0] eqn:Hlisted; [cbn in Hlen; lia|].
  cbn [length Nat.eqb].
  destruct (createdDates (d0 :: l0)) as [|d1 [|d2 rest]]; cbn in Hdates; try lia.
  inversion Hjson as [|? ? [text ->] _]. reflexivity.
Qed.

Lemma StronglySorted_head_le (sorted : list Z) lo t :
  StronglySorted Z.le sorted -> head sorted = Some lo -> t ∈ sorted -> (lo <= t)%Z.
Proof.
  intros Hsorted Hhead Hin. destruct sorted as [|x rest]; [discriminate|].
  injection Hhead as ->. apply StronglySorted_inv in Hsorted as [_ Hall].
  apply elem_of_cons in Hin as [->|Hin]; [lia|].
  rewrite Forall_forall in Hall. apply Hall. exact Hin.
Qed.

Lemma StronglySorted_le_last (sorted : list Z) hi t :
  StronglySorted Z.le sorted -> last sorted = Some hi -> t ∈ sorted -> (t <= hi)%Z.
Proof.
  induction sorted as [|x rest IH]; [discriminate|].
  intros Hsorted Hlast Hin. apply StronglySorted_inv in Hsorted as [Hrest Hall].
  destruct rest as [|y rest'].
  - injection Hlast as ->. apply list_elem_of_singleton in Hin. lia.
  - change (last (y :: rest') = Some hi) in Hlast.
    apply elem_of_cons in Hin as [->|Hin]; [|apply IH; assumption].
    rewrite Forall_forall in Hall. apply Hall.
    apply last_Some_elem_of. exact Hlast.
Qed.

Lemma last_map {A B} (f : A -> B) (l : list A) : last (map f l) = f <$> last l.
Proof.
  induction l as [|x [|y rest] IH]; [reflexivity | reflexivity|].
  cbn [map]. rewrite !last_cons_cons. exact IH.
Qed.

(** The sort of Date objects: the same dates, in ascending order of time. *)
Lemma sortByTime_objects times :
  exists sorted,
    sortByTime (map DateObject times) = Ok (map DateObject sorted)
    /\ sorted ≡ₚ times
    /\ StronglySorted Z.le sorted.
Proof.
  destruct times as [|t1 [|t2 rest]].
  - exists []. split; [reflexivity|]. split; [reflexivity | constructor].
  - exists [t1]. split; [reflexivity|]. split; [reflexivity | repeat constructor].
  - exists (merge_sort Z.le (t1 :: t2 :: rest)).
    split; [|split].
    + unfold sortByTime. cbn [map].
      change (DateObject t1 :: DateObject t2 :: map DateObject rest)
        with (map DateObject (t1 :: t2 :: rest)).
      rewrite getTimes_objects. reflexivity.
    + apply merge_sort_Permutation.
    + apply StronglySorted_merge_sort; typeclasses eauto.
Qed.

(** X7: statistics of Date objects.  When every creation date in the store
    is a Date object (the in-memory fallback holding designs of the capture
    screen), getDesignStats counts the designs, and its oldestDesign and
    newestDesign are dates of the store that bound every other one; with no
    date in the store both are absent. *)
Theorem getDesignStats_of_Date_objects st times :
  createdDates (listed toISOString st) = map DateObject times ->
  exists stats,
    getDesignStats toISOString st = (Ok stats, st)
    /\ totalCustomDesigns stats = length (listed toISOString st)
    /\ (times = [] -> oldestDesign stats = None /\ newestDesign stats = None)
    /\ (forall t, t ∈ times ->
          exists lo hi,
            oldestDesign stats = Some (DateObject lo)
            /\ newestDesign stats = Some (DateObject hi)
            /\ lo ∈ times /\ hi ∈ times /\ (lo <= t <= hi)%Z).
Proof.
  intros Hdates. rewrite getDesignStats_unfold, Hdates.
  destruct (sortByTime_objects times) as (sorted & -> & Hperm & Hsorted).
  destruct (listed toISOString st) as [|d0 l0] eqn:Hlisted.
  { cbn [length Nat.eqb]. eexists. split; [reflexivity|]. cbn.
    cbn in Hdates. destruct times; [|discriminate].
    repeat split. intros t Hin. inversion Hin. }
  cbn [length Nat.eqb]. eexists. split; [reflexivity|]. cbn [totalCustomDesigns
    oldestDesign newestDesign]. split; [reflexivity|]. split.
  - intros ->. apply Permutation_nil_r in Hperm. subst sorted. split; reflexivity.
  - intros t Hin. rewrite <- Hperm in Hin.
    destruct (head sorted) as [lo|] eqn:Hhead;
      [|destruct sorted; [inversion Hin | discriminate]].
    destruct (last sorted) as [hi|] eqn:Hlast;
      [|apply last_None in Hlast; subst sorted; inversion Hin].
    exists lo, hi.
    assert (Hlo : lo ∈ sorted) by (destruct sorted; [discriminate|]; injection Hhead as ->; left).
    assert (Hhi : hi ∈ sorted) by (apply last_Some_elem_of; exact Hlast).
    split; [destruct sorted; [discriminate|]; cbn in *; congruence|].
    split; [rewrite last_map, Hlast; reflexivity|].
    rewrite <- !Hperm. repeat split; try assumption.
    + eapply StronglySorted_head_le; eassumption.
    + eapply StronglySorted_le_last; eassumption.
Qed.

End StoreStatistics.

Section StoreLookupExamples.
Import DesignManager Spec Examples.



Lemma clearAllCustomDesigns_empties_the_store_witness :
  getCustomDesigns isoText asyncStoreAfterClear = (Ok [], asyncStoreAfterClear)
  /\ (forall designId,
        getCustomDesign isoText designId asyncStoreAfterClear
        = (Ok None, asyncStoreAfterClear))
  /\ otherKeysUntouched CUSTOM_DESIGNS_KEY asyncStoreWithTwo asyncStoreAfterClear
  /\ (forall store', AsyncStorage asyncStoreAfterClear = Some store' ->
                     store' !! CUSTOM_DESIGNS_KEY = None).
Proof.
  apply (clearAllCustomDesigns_empties_the_store isoText noWriteFails).
  vm_compute. reflexivity.
Defined.

Lemma unreadable_store_reads_empty_and_is_overwritten_witness :
  getCustomDesigns isoText corruptedAsyncStore = (Ok [], corruptedAsyncStore)
  /\ (forall st',
        saveCustomDesign isoText noWriteFails capturedDesign corruptedAsyncStore
        = (Ok tt, st') ->
        (exists store',
            AsyncStorage st' = Some store'
            /\ store' !! CUSTOM_DESIGNS_KEY
               = Some (JsonDesigns [jsonImage isoText capturedDesign]))
        /\ getCustomDesigns isoText st'
           = (Ok [jsonImage isoText capturedDesign], st')).
Proof.
  apply (unreadable_store_reads_empty_and_is_overwritten isoText noWriteFails
           capturedDesign corruptedAsyncStore
           {[ CUSTOM_DESIGNS_KEY := Unparseable "[{" ]}).
  - reflexivity.
  - right. exists "[{". vm_compute. reflexivity.
Defined.

Lemma getDesignStats_counts_nothing_after_json_witness :
  getDesignStats isoText asyncStoreWithTwo = (Ok noDesignStats, asyncStoreWithTwo)
  /\ 2 <= length (listed isoText asyncStoreWithTwo).
Proof.
  apply (getDesignStats_counts_nothing_after_json isoText asyncStoreWithTwo
           {[ CUSTOM_DESIGNS_KEY := JsonDesigns [capturedDesign; otherDesign] ]}).
  - reflexivity.
  - vm_compute. lia.
Defined.

Lemma getDesignStats_of_Date_objects_witness :
  exists stats,
    getDesignStats isoText memoryStoreWithTwo = (Ok stats, memoryStoreWithTwo)
    /\ totalCustomDesigns stats = length (listed isoText memoryStoreWithTwo)
    /\ ([1700000000000; 1650000000000]%Z = [] ->
        oldestDesign stats = None /\ newestDesign stats = None)
    /\ (forall t, t ∈ [1700000000000; 1650000000000]%Z ->
          exists lo hi,
            oldestDesign stats = Some (DateObject lo)
            /\ newestDesign stats = Some (DateObject hi)
            /\ lo ∈ [1700000000000; 1650000000000]%Z
            /\ hi ∈ [1700000000000; 1650000000000]%Z /\ (lo <= t <= hi)%Z).
Proof.
  apply (getDesignStats_of_Date_objects isoText memoryStoreWithTwo
           [1700000000000; 1650000000000]%Z).
  reflexivity.
Defined.

End StoreLookupExamples.
(** ** Extraction of SVG text from a model response *)

Section SvgExtraction.
Import Js Spec.

Lemma m_seq_Some pattern k s n :
  m_seq (map eqCharCI pattern) k s = Some n ->
  exists text rest m,
    s = text ++ rest /\ sameIgnoringCase pattern text /\ k rest = Some m
    /\ n = length text + m.
Proof.
  unfold sameIgnoringCase. revert s n.
  induction pattern as [|a pattern IH]; intros s n; cbn [m_seq map].
  - intros H. exists [], s, n. repeat split; [constructor | exact H].
  - unfold m_chr at 1. destruct s as [|c t]; [discriminate|].
    destruct (eqCharCI a c) eqn:Hc; [|discriminate].
    destruct (m_seq (map eqCharCI pattern) k t) as [n'|] eqn:Hrest; [|discriminate].
    cbn. intros [= <-]. apply IH in Hrest as (text & rest & m & -> & Htext & Hk & ->).
    exists (c :: text), rest, m. repeat split; [constructor; assumption | assumption].
Qed.

(** The lazy star stops at the first place where the rest of the
    expression matches. *)
Lemma m_star_lazy_Some k s n :
  m_star_lazy anyChar k s = Some n ->
  exists middle rest m,
    s = middle ++ rest /\ k rest = Some m /\ n = length middle + m
    /\ (forall middle' rest',
          s = middle' ++ rest' -> length middle' < length middle -> k rest' = None).
Proof.
  revert n. induction s as [|c t IH]; intros n; cbn.
  - destruct (k []) as [m|] eqn:Hk; [|discriminate]. intros [= <-].
    exists [], [], m. repeat split; [assumption|].
    intros middle' rest' _ Hlt. cbn in Hlt. lia.
  - destruct (k (c :: t)) as [m|] eqn:Hk.
    + intros [= <-]. exists [], (c :: t), m. repeat split; [assumption|].
      intros middle' rest' _ Hlt. cbn in Hlt. lia.
    + rewrite anyChar_true.
      destruct (m_star_lazy anyChar k t) as [n'|] eqn:Hstar; [|discriminate].
      cbn. intros [= <-].
      destruct (IH n' eq_refl) as (middle & rest & m & -> & Hm & -> & Hmin).
      exists (c :: middle), rest, m. repeat split; [assumption|].
      intros [|b middle'] rest' Heq Hlt; cbn in Heq, Hlt.
      * subst rest'. exact Hk.
      * injection Heq as -> Heq. apply (Hmin middle' rest' Heq). lia.
Qed.

Lemma m_star_lazy_is_Some k s :
  is_Some (m_star_lazy anyChar k s) <->
  exists middle rest, s = middle ++ rest /\ is_Some (k rest).
Proof.
  split.
  - intros [n Hn]. apply m_star_lazy_Some in Hn as (middle & rest & m & -> & Hm & _).
    exists middle, rest. split; [reflexivity | eexists; exact Hm].
  - intros (middle & rest & -> & H). induction middle as [|c middle IH]; cbn.
    + destruct rest; cbn; destruct H as [m ->]; eexists; reflexivity.
    + destruct (k (c :: middle ++ rest)); [eexists; reflexivity|].
      rewrite anyChar_true. destruct IH as [n ->]. eexists; reflexivity.
Qed.

(** The lazy expression of extractSVGFromResponse matches at the head of
    the same texts as the greedy one. *)
Lemma reSvgLazy_is_Some s : is_Some (reSvgLazy s) <-> opensWithSvgFragment s.
Proof.
  unfold reSvgLazy, opensWithSvgFragment. rewrite m_seq_is_Some. split.
  - intros (opening & rest & -> & Hopen & H).
    apply m_star_lazy_is_Some in H as (middle & rest' & -> & H).
    apply m_seq_is_Some in H as (closing & after & -> & Hclose & _).
    exists opening, middle, closing, after. auto.
  - intros (opening & middle & closing & after & -> & Hopen & Hclose).
    exists opening, (middle ++ closing ++ after). repeat split; [assumption|].
    apply m_star_lazy_is_Some. exists middle, (closing ++ after). split; [reflexivity|].
    apply m_seq_is_Some. exists closing, after. repeat split; [assumption|].
    eexists; reflexivity.
Qed.

Lemma regexMatch_Some_leftmost re s found :
  regexMatch re s = Some found ->
  exists before rest n,
    s = before ++ rest /\ re rest = Some n /\ found = take n rest
    /\ (forall before' rest',
          s = before' ++ rest' -> length before' < length before -> re rest' = None).
Proof.
  induction s as [|c t IH]; cbn.
  - destruct (re []) as [n|] eqn:Hre; [|discriminate].
    intros [= <-]. exists [], [], n. repeat split; [assumption|].
    intros before' rest' _ Hlt. cbn in Hlt. lia.
  - destruct (re (c :: t)) as [n|] eqn:Hre.
    + intros [= <-]. exists [], (c :: t), n. repeat split; [assumption|].
      intros before' rest' _ Hlt. cbn in Hlt. lia.
    + intros H. destruct (IH H) as (before & rest & n & -> & Hn & -> & Hmin).
      exists (c :: before), rest, n. repeat split; [assumption|].
      intros [|b before'] rest' Heq Hlt; cbn in Heq, Hlt.
      * subst rest'. exact Hre.
      * injection Heq as -> Heq. apply (Hmin before' rest' Heq). lia.
Qed.

(** What a match of the lazy expression at the head of a text consists of. *)
Lemma reSvgLazy_Some s n :
  reSvgLazy s = Some n ->
  exists opening middle closing after,
    s = opening ++ middle ++ closing ++ after
    /\ take n s = opening ++ middle ++ closing
    /\ sameIgnoringCase (lit "<svg") opening
    /\ sameIgnoringCase (lit "</svg>") closing
    /\ (forall middle' closing' rest',
          middle ++ closing ++ after = middle' ++ closing' ++ rest' ->
          sameIgnoringCase (lit "</svg>") closing' ->
          length middle <= length middle').
Proof.
  unfold reSvgLazy. intros H.
  apply m_seq_Some in H as (opening & rest & m & -> & Hopen & H & ->).
  apply m_star_lazy_Some in H as (middle & rest' & m' & -> & H & -> & Hmin).
  apply m_seq_Some in H as (closing & after & z & -> & Hclose & Hdone & ->).
  injection Hdone as <-.
  exists opening, middle, closing, after. repeat split; [|assumption|assumption|].
  - rewrite !app_assoc. apply take_app_length'. rewrite !length_app. lia.
  - intros middle' closing' rest' Heq Hclose'.
    destruct (le_lt_dec (length middle) (length middle')) as [Hle|Hlt]; [exact Hle|].
    exfalso. specialize (Hmin middle' (closing' ++ rest') Heq Hlt).
    assert (Hsome : is_Some (m_seq (map eqCharCI (lit "</svg>")) m_done (closing' ++ rest'))).
    { apply m_seq_is_Some. exists closing', rest'. repeat split; [assumption|].
      eexists; reflexivity. }
    rewrite Hmin in Hsome. destruct Hsome as [? [=]].
Qed.

(** X8: extractSVGFromResponse returns the leftmost SVG fragment of the
    response, cut at the first closing tag: the text returned lies in the
    response, opens with [<svg] and closes with [</svg>] (letters in either
    case), no closing tag ends inside it, and no fragment opens before it;
    the result is null exactly when the response holds no fragment. *)
Theorem extractSVGFromResponse_leftmost_shortest response :
  match Svg.extractSVGFromResponse response with
  | Some found =>
      exists before opening middle closing after,
        response = before ++ found ++ after
        /\ found = opening ++ middle ++ closing
        /\ sameIgnoringCase (lit "<svg") opening
        /\ sameIgnoringCase (lit "</svg>") closing
        /\ (forall middle' closing' rest',
              middle ++ closing = middle' ++ closing' ++ rest' ->
              sameIgnoringCase (lit "</svg>") closing' -> rest' = [])
        /\ (forall before' rest',
              response = before' ++ rest' -> length before' < length before ->
              ~ opensWithSvgFragment rest')
  | None => ~ hasSvgFragment response
  end.
Proof.
  unfold Svg.extractSVGFromResponse.
  destruct (regexMatch reSvgLazy response) as [found|] eqn:Hmatch.
  - apply regexMatch_Some_leftmost in Hmatch
      as (before & rest & n & -> & Hn & -> & Hleft).
    destruct (reSvgLazy_Some rest n Hn)
      as (opening & middle & closing & after & Hrest & Htake & Hopen & Hclose & Hshort).
    exists before, opening, middle, closing, after.
    split; [rewrite Htake, Hrest, <- !app_assoc; reflexivity|].
    split; [exact Htake|]. split; [exact Hopen|]. split; [exact Hclose|]. split.
    + intros middle' closing' rest' Heq Hclose'.
      assert (Hle : length middle <= length middle').
      { apply (Hshort middle' closing' (rest' ++ after)); [|exact Hclose'].
        rewrite (app_assoc middle), Heq, <- !app_assoc. reflexivity. }
      apply (f_equal length) in Heq. rewrite !length_app in Heq.
      apply Forall2_length in Hclose, Hclose'. rewrite <- Hclose, <- Hclose' in Heq.
      destruct rest'; [reflexivity | cbn in Heq; lia].
    + intros before' rest' Heq Hlt Hopens.
      apply reSvgLazy_is_Some in Hopens. rewrite (Hleft before' rest' Heq Hlt) in Hopens.
      destruct Hopens as [? [=]].
  - intros (before & opening & middle & closing & after & -> & Hopen & Hclose).
    rewrite regexMatch_None in Hmatch. specialize (Hmatch before _ eq_refl).
    assert (Hsome : is_Some (reSvgLazy (opening ++ middle ++ closing ++ after))).
    { apply reSvgLazy_is_Some. exists opening, middle, closing, after. auto. }
    rewrite Hmatch in Hsome. destruct Hsome as [? [=]].
Qed.

End SvgExtraction.

Section SvgComposition.
Import Js Spec.

(** A text that neither begins nor ends with white space is its own trim. *)
Lemma trim_fixed first middle final :
  isWhiteSpace first = false -> isWhiteSpace final = false ->
  trim (first :: middle ++ [final]) = first :: middle ++ [final].
Proof.
  intros Hfirst Hfinal. unfold trim. cbn [dropWhile]. rewrite Hfirst.
  set (body := first :: middle).
  assert (Hrev : rev (body ++ [final]) = final :: rev body)
    by (rewrite rev_app_distr; reflexivity).
  change (first :: middle ++ [final]) with (body ++ [final]).
  rewrite Hrev. cbn [dropWhile]. rewrite Hfinal, <- Hrev. apply rev_involutive.
Qed.

Lemma eqCharCI_symbol p c :
  (p < 65)%N -> eqCharCI p c = true -> c = p.
Proof. intros Hp H. apply eqCharCI_cases in H. lia. Qed.

(** An SVG fragment is its own trim. *)
Lemma trim_fragment opening middle closing :
  sameIgnoringCase (lit "<svg") opening ->
  sameIgnoringCase (lit "</svg>") closing ->
  trim (opening ++ middle ++ closing) = opening ++ middle ++ closing.
Proof.
  unfold sameIgnoringCase. intros Hopen Hclose.
  pose proof (Forall2_length _ _ _ Hclose) as Hlen.
  change (lit "<svg") with [60; 115; 118; 103]%N in Hopen.
  change (lit "</svg>") with [60; 47; 115; 118; 103; 62]%N in Hclose, Hlen.
  destruct closing as [|c1 [|c2 [|c3 [|c4 [|c5 [|c6 [|c7 rest]]]]]]];
    try discriminate Hlen.
  repeat match goal with
    | H : Forall2 _ (_ :: _) _ |- _ => inversion H; subst; clear H
    | H : Forall2 _ [] _ |- _ => inversion H; subst; clear H
    end.
  repeat match goal with
    | H : eqCharCI 60 _ = true |- _ => apply eqCharCI_symbol in H; [subst | reflexivity]
    | H : eqCharCI 62 _ = true |- _ => apply eqCharCI_symbol in H; [subst | reflexivity]
    end.
  cbn [app].
  match goal with
  | |- trim (?a :: ?x :: ?y :: ?z :: ?m ++ [?c1; ?c2; ?c3; ?c4; ?c5; ?last]) = _ =>
      assert (Heq : a :: x :: y :: z :: m ++ [c1; c2; c3; c4; c5; last]
                    = a :: ((x :: y :: z :: m) ++ [c1; c2; c3; c4; c5]) ++ [last])
        by (cbn [app]; rewrite <- app_assoc; reflexivity)
  end.
  rewrite Heq. apply trim_fixed; reflexivity.
Qed.

(** X9: what extractSVGFromResponse returns always passes
    validateAndCleanSVG: the validation that imageToSVG runs on SVG text
    extracted from a model response cannot throw 'Invalid SVG code
    generated'. *)
Theorem extracted_svg_passes_validation response found :
  Svg.extractSVGFromResponse response = Some found ->
  exists cleaned,
    Svg.validateAndCleanSVG found = Ok cleaned
    /\ startsWithCI (lit "<svg") cleaned = true.
Proof.
  unfold Svg.extractSVGFromResponse. intros Hmatch.
  apply regexMatch_Some_leftmost in Hmatch as (before & rest & n & -> & Hn & -> & _).
  destruct (reSvgLazy_Some rest n Hn)
    as (opening & middle & closing & after & _ & -> & Hopen & Hclose & _).
  destruct (Svg.validateAndCleanSVG (opening ++ middle ++ closing))
    as [cleaned|message|] eqn:Hclean.
  - exists cleaned. split; [reflexivity|]. eapply validateAndCleanSVG_head. exact Hclean.
  - exfalso. apply validateAndCleanSVG_throws in Hclean as (_ & _ & Hnone).
    apply Hnone. rewrite (trim_fragment _ _ _ Hopen Hclose).
    exists [], opening, middle, closing, []. rewrite app_nil_r. auto.
  - exfalso. exact (validateAndCleanSVG_settles _ Hclean).
Qed.

End SvgComposition.
(** ** Symbolic execution of a method body *)

Section Execution.
Import Platform Spec.

Lemma wp_throw {S A} (message : string) (s : S) (Q : Outcome A -> S -> Prop) :
  Q (Throw message) s -> wp (throw message) s Q.
Proof. intros H. exact H. Qed.

Lemma wp_liftOutcome {S A} (o : Outcome A) (s : S) Q :
  Q o s -> wp (StarVectorProcessor.liftOutcome o) s Q.
Proof. intros H. exact H. Qed.

Lemma wp_settle {S A} (r : Result A) (s : S) Q :
  match r with
  | Resolved a => Q (Ok a) s
  | Rejected message => Q (Throw message) s
  end ->
  wp (settle r) s Q.
Proof. destruct r; intros H; exact H. Qed.

Lemma wp_moduleAccess {S} (loaded : bool) (s : S) Q :
  (if loaded then Q (Ok tt) s
   else Q (Throw "TypeError: cannot read properties of undefined") s) ->
  wp (moduleAccess loaded) s Q.
Proof. destruct loaded; intros H; exact H. Qed.

Lemma Yields_from_wp {S A} (P : A -> Prop) (m : M S A) :
  (forall s, wp m s (okThen P)) -> Yields P m.
Proof.
  intros H s a Hrun. specialize (H s). unfold wp, okThen in H.
  rewrite Hrun in H. exact H.
Qed.

Lemma Yields_always {S A} (P : A -> Prop) (m : M S A) :
  (forall a, P a) -> Yields P m.
Proof. intros H s a _. apply H. Qed.

End Execution.

(** One step of the execution of a body from a state with locals; a call is
    followed into each of its three outcomes. *)
Ltac run_step :=
  lazymatch goal with
  | |- Spec.wp (bind _ _) _ _ => apply wp_bind
  | |- Spec.wp (ret _) _ _ => apply wp_ret
  | |- Spec.wp (throw _) _ _ => apply wp_throw
  | |- Spec.wp (gets _) _ _ => apply wp_gets
  | |- Spec.wp readSteps _ _ => apply wp_readSteps
  | |- Spec.wp (push _) _ _ => apply wp_push
  | |- Spec.wp (modify _) _ _ => apply wp_modify
  | |- Spec.wp (Platform.enter _) _ _ => apply wp_enter
  | |- Spec.wp (StarVectorProcessor.liftOutcome ?o) _ _ =>
      apply wp_liftOutcome; destruct o eqn:?
  | |- Spec.wp (Platform.settle ?r) _ _ => apply wp_settle; destruct r eqn:?
  | |- Spec.wp (Platform.moduleAccess ?b) _ _ => apply wp_moduleAccess; destruct b eqn:?
  | |- Spec.wp (call ?m) (?l, ?w) _ =>
      apply wp_call; unfold Spec.wp at 1;
      destruct (m w) as [[?|?|] ?] eqn:?; cbn [fst snd]
  | |- Spec.wp (if ?b then _ else _) _ _ => destruct b eqn:?
  | |- Spec.wp (match ?x with _ => _ end) _ _ => destruct x eqn:?
  end;
  cbv beta iota.

(** ** Results of StarVectorProcessor *)

Section StarVectorResults.
Import Platform Spec StarVectorProcessor.
Variable env : Env.

Lemma FileSystem_ImageManipulator : FileSystem env = true -> ImageManipulator env = true.
Proof. unfold FileSystem, ImageManipulator. intros H. apply andb_true_iff in H. tauto. Qed.

(** saveSVGToFile resolves only where expo-file-system is loaded, and
    rejects at once where it is not. *)
Lemma Yields_saveSVGToFile svg :
  Yields (fun _ => FileSystem env = true) (saveSVGToFile env svg).
Proof.
  unfold saveSVGToFile. apply Yields_bind_any. intros _.
  destruct (FileSystem env); cbn [negb];
    [apply Yields_always; reflexivity | apply Yields_throw].
Qed.

Lemma saveSVGToFile_without_FileSystem svg w :
  FileSystem env = false ->
  fst (saveSVGToFile env svg w) = Throw "FileSystem not available".
Proof. intros H. unfold saveSVGToFile, bind, enter, emit, modify. rewrite H. reflexivity. Qed.

(** generateSVGFromAnalysis always resolves, with the trimmed template for
    a width and a height of at most 800. *)
Lemma generateSVGFromAnalysis_run imageUri w :
  exists width height w',
    generateSVGFromAnalysis env imageUri w
    = (Ok (Js.trim (svgTemplate env width height)), w')
    /\ (width <= 800)%Z /\ (height <= 800)%Z.
Proof.
  unfold generateSVGFromAnalysis, bind, tryCatch, enter, emit, modify, manipulate,
    external, ret.
  destruct (ImageManipulator env); cbn.
  - destruct (manipulateAsync env _ imageUri [] (saveAs None JPEG)) as [image|message]; cbn.
    + eexists _, _, _. split; [reflexivity | lia].
    + exists 400%Z, 400%Z. eexists. split; [reflexivity | lia].
  - exists 400%Z, 400%Z. eexists. split; [reflexivity | lia].
Qed.

(** What a run of processWithLocalStarVector returns. *)
Lemma processWithLocalStarVector_run imageUri options w :
  exists r,
    fst (processWithLocalStarVector env imageUri options w) = Ok r
    /\ originalImageUri r = imageUri
    /\ (if success r
        then processingSteps r
             = ["Image analyzed for vector elements"; "SVG structure generated";
                "SVG optimized for tattoo design"; "SVG file saved"]
             /\ resultModel r = Some "local-starvector-inspired"
             /\ error r = None /\ is_Some (svgUri r)
             /\ FileSystem env = true /\ ImageManipulator env = true
             /\ exists width height,
                 svgCode r
                 = Some (optimizeSVGForTattoo (Js.trim (svgTemplate env width height)))
                 /\ (width <= 800)%Z /\ (height <= 800)%Z
        else processingSteps r
             = ["Image analyzed for vector elements"; "SVG structure generated";
                "SVG optimized for tattoo design"]
             /\ is_Some (error r) /\ svgCode r = None /\ svgUri r = None
             /\ resultModel r = None)
    /\ (FileSystem env = false ->
        success r = false /\ error r = Some "FileSystem not available").
Proof.
  match goal with
  | |- exists r, fst (?m ?w) = Ok r /\ @?P r =>
      change (wp m w (fun o _ => exists r, o = Ok r /\ P r))
  end.
  unfold processWithLocalStarVector.
  apply wp_bind, wp_enter. cbv beta iota.
  apply wp_withLocals, wp_tryCatch.
  do 2 run_step.
  apply wp_bind, wp_call. unfold wp at 1.
  destruct (generateSVGFromAnalysis_run imageUri (extend w [Enter ProcessWithLocalStarVector]))
    as (width & height & w1 & -> & Hwidth & Hheight).
  cbn [fst snd]. cbv beta iota zeta.
  do 4 run_step.
  apply wp_bind, wp_call. unfold wp at 1.
  pose proof (Yields_saveSVGToFile
                (optimizeSVGForTattoo (Js.trim (svgTemplate env width height))) w1)
    as Hsaved.
  pose proof (saveSVGToFile_without_FileSystem
                (optimizeSVGForTattoo (Js.trim (svgTemplate env width height))) w1)
    as Hmissing.
  pose proof (Settles_saveSVGToFile env
                (optimizeSVGForTattoo (Js.trim (svgTemplate env width height))) w1 Logic.I)
    as Hsettles.
  destruct (saveSVGToFile env _ w1) as [[savedUri|message|] w2];
    cbn [fst snd] in *; cbv beta iota; [| |contradiction].
  - repeat run_step. cbn [snd]. eexists. split; [reflexivity|]. cbn.
    specialize (Hsaved savedUri eq_refl).
    split; [reflexivity|]. split.
    + repeat split; try assumption; [eexists; reflexivity | |].
      * apply FileSystem_ImageManipulator. exact Hsaved.
      * exists width, height. auto.
    + intros Hno. congruence.
  - repeat run_step. cbn [snd]. eexists. split; [reflexivity|]. cbn.
    split; [reflexivity|]. split.
    + repeat split. eexists; reflexivity.
    + intros Hno. specialize (Hmissing Hno). injection Hmissing as ->. auto.
Qed.


End StarVectorResults.

Section ImageToSVGResults.
Import Platform Spec StarVectorProcessor.
Variable env : Env.

Lemma Yields_processWithLocalStarVector_shape imageUri options :
  Yields (fun r => svgResultShape env imageUri r /\ localResult r)
    (processWithLocalStarVector env imageUri options).
Proof.
  intros w r Hrun.
  destruct (processWithLocalStarVector_run env imageUri options w)
    as (r' & Hr' & Horigin & Hshape & _).
  rewrite Hrun in Hr'. injection Hr' as <-.
  unfold svgResultShape, localResult. split; [split; [exact Horigin|]|].
  - destruct (success r).
    + destruct Hshape as (_ & Hmodel & Herror & Huri & Hfs & _ & width & height & Hcode & _).
      rewrite Hmodel, Hcode. repeat split; try assumption; eexists; reflexivity.
    + tauto.
  - intros Hsuccess. rewrite Hsuccess in Hshape. tauto.
Qed.

(** A result of local processing under other steps. *)
Lemma withSteps_local imageUri r steps :
  svgResultShape env imageUri r /\ localResult r ->
  svgResultShape env imageUri (withSteps r steps)
  /\ apiTestOnlyOnLocal (withSteps r steps).
Proof.
  intros [Hshape Hlocal]. split; [exact Hshape|].
  intros Hsuccess _. apply Hlocal. exact Hsuccess.
Qed.

(** The steps of a result that the HuggingFace API or the local CPU server
    produced fail the test [usingAPI]. *)
Ltac model_result :=
  split;
  [ split; [reflexivity|]; cbn;
    repeat split; try assumption; try (eexists; reflexivity)
  | intros _ Htest; vm_compute in Htest; discriminate Htest ].

Lemma Yields_imageToSVG_shape imageUri options :
  Yields (fun r => svgResultShape env imageUri r /\ apiTestOnlyOnLocal r)
    (imageToSVG env imageUri options).
Proof.
  apply Yields_from_wp. intros w.
  unfold imageToSVG. apply wp_bind, wp_enter. cbv beta iota.
  apply wp_withLocals.
  assert (Hlocal : forall l w0 (k : StarVectorResult -> M (list string * World) StarVectorResult)
                          (Q : Outcome StarVectorResult -> list string * World -> Prop),
            (forall r s', svgResultShape env imageUri r /\ localResult r ->
                          wp (k r) s' Q) ->
            (forall e s', Q (Throw e) s') -> (forall s', Q Pending s') ->
            wp (bind (call (processWithLocalStarVector env imageUri options)) k) (l, w0) Q).
  { intros l w0 k Q Hk Hthrow Hpending. apply wp_bind, wp_call. unfold wp at 1.
    pose proof (Yields_processWithLocalStarVector_shape imageUri options w0) as Hshape.
    destruct (processWithLocalStarVector env imageUri options w0) as [[r|e|] w1];
      cbn [fst snd] in *; [apply Hk, Hshape; reflexivity | apply Hthrow | apply Hpending]. }
  match goal with
  | |- wp (tryCatch ?body ?handler) ?s ?Q =>
      assert (Hhandler : forall e s', wp (handler e) s' Q)
  end.
  { intros e [l w0]. apply wp_tryCatch. apply Hlocal.
    - intros r s' Hr. destruct s' as [l' w']. repeat run_step.
      cbn [okThen snd]. apply withSteps_local, Hr.
    - intros e' [l' w']. repeat run_step. cbn [okThen snd].
      split; [|intros [=]]. split; [reflexivity|]. cbn. repeat split. eexists; reflexivity.
    - intros s'. exact Logic.I. }
  apply wp_tryCatch.
  destruct (model options) as [[|]|] eqn:Hmodel; unfold modelName; rewrite Hmodel.
  all: repeat first
    [ apply Hhandler
    | exact Logic.I
    | apply Hlocal;
      [ intros ? [? ?] ?
      | intros ? ?; apply Hhandler
      | intros ?; exact Logic.I ]
    | run_step
    | solve [cbn [okThen snd]; apply withSteps_local; assumption]
    | solve [cbn [okThen snd]; model_result] ].
Qed.

End ImageToSVGResults.

Section ImageToSVGTheorems.
Import Platform Spec StarVectorProcessor.


End ImageToSVGTheorems.

(** ** Results of processImageToTattooDesign *)

Section DesignResults.
Import Platform Spec AIImageProcessor.
Variable env : Env.

Hint Resolve NoThrow_traditionalProcessingPipeline : nothrow.

Lemma Yields_traditionalProcessingPipeline_shape imageUri options existingSteps :
  Yields (designResultShape imageUri)
    (traditionalProcessingPipeline env imageUri options existingSteps).
Proof.
  unfold traditionalProcessingPipeline. cbv zeta.
  repeat first
    [ yields_step
    | apply Yields_ret; unfold designResultShape; cbn;
      repeat split; [eexists; reflexivity | right; repeat split] ].
Qed.

Lemma Yields_processImageToTattooDesign_shape imageUri options :
  Yields (designResultShape imageUri) (processImageToTattooDesign env imageUri options).
Proof.
  unfold processImageToTattooDesign. cbv zeta.
  apply Yields_bind_any. intros _. apply Yields_withLocals.
  apply Yields_tryCatch_unreached; [solve [nothrow]|].
  assert (Hpipeline : forall steps', Yields (designResultShape imageUri)
            (call (L := list string)
               (traditionalProcessingPipeline env imageUri (Options.mergeDefaults options)
                  steps')))
    by (intros steps'; apply Yields_call, Yields_traditionalProcessingPipeline_shape).
  assert (Hlocal : Yields (designResultShape imageUri)
            (if Options.truthyField (Options.fallbackToLocal (Options.mergeDefaults options))
             then
               bind (call (L := list string)
                       (StarVectorProcessor.processWithLocalStarVector env imageUri
                          StarVectorProcessor.noOptions))
                 (fun localStarVectorResult =>
                    if StarVectorProcessor.success localStarVectorResult
                    then
                      bind readSteps (fun steps =>
                        ret {| success := true;
                               processedImageUri :=
                                 StarVectorProcessor.svgUri localStarVectorResult;
                               originalImageUri := imageUri;
                               processingSteps :=
                                 steps ++ StarVectorProcessor.processingSteps
                                            localStarVectorResult;
                               error := None; format := Some FormatSVG;
                               svgCode := StarVectorProcessor.svgCode localStarVectorResult;
                               model :=
                                 StarVectorProcessor.resultModel localStarVectorResult |})
                    else
                      bind (push "Local StarVector processing failed") (fun _ =>
                        bind readSteps (fun steps =>
                          call (traditionalProcessingPipeline env imageUri
                                  (Options.mergeDefaults options) steps))))
             else
               bind readSteps (fun steps =>
                 call (traditionalProcessingPipeline env imageUri
                         (Options.mergeDefaults options) steps)))).
  { destruct (Options.truthyField (Options.fallbackToLocal (Options.mergeDefaults options)));
      [|apply Yields_bind_any; intros steps; apply Hpipeline].
    eapply Yields_bind;
      [apply Yields_call, Yields_processWithLocalStarVector_shape|].
    intros r [[Horigin Hshape] Hmodel]. unfold localResult in Hmodel.
    destruct (StarVectorProcessor.success r).
    - apply Yields_bind_any. intros steps. apply Yields_ret.
      destruct Hshape as (Hcode & Huri & _). unfold designResultShape. cbn.
      repeat split; [exact Huri|]. left. repeat split; [exact Hcode|].
      right. apply Hmodel. reflexivity.
    - apply Yields_bind_any. intros _. apply Yields_bind_any. intros steps.
      apply Hpipeline. }
  apply Yields_bind_any. intros available.
  destruct (Options.truthyField (Options.useStarVector (Options.mergeDefaults options))
            && available); [|exact Hlocal].
  eapply Yields_bind; [apply Yields_call, Yields_imageToSVG_shape|].
  intros r [[Horigin Hshape] Htest]. unfold apiTestOnlyOnLocal in Htest.
  destruct (StarVectorProcessor.success r).
  - apply Yields_ret. destruct Hshape as (Hcode & Huri & _).
    unfold designResultShape. cbn.
    repeat split; [exact Huri|]. left. repeat split; [exact Hcode|].
    destruct (usingAPI (StarVectorProcessor.processingSteps r));
      [right; apply Htest; reflexivity | left; reflexivity].
  - apply Yields_bind_any. intros _. exact Hlocal.
Qed.

(** X12: every result of processImageToTattooDesign is a success for the
    image it was given, with a processed URI and no error, and is of one of
    two kinds: SVG, with the SVG text and the model 'Enhanced
    StarVector-inspired (Local)' or 'local-starvector-inspired'; or PNG,
    without SVG text, with the model 'traditional-pipeline'.  No result names
    a HuggingFace model or the ultimate fallback, also when the HuggingFace
    API produced the SVG; and the method never rejects. *)
Theorem processImageToTattooDesign_result_shape imageUri options w :
  match fst (processImageToTattooDesign env imageUri options w) with
  | Ok r => designResultShape imageUri r
  | Throw _ => False
  | Pending => True
  end.
Proof.
  pose proof (NoThrow_processImageToTattooDesign env imageUri options w) as Hthrow.
  pose proof (Yields_processImageToTattooDesign_shape imageUri options w) as Hshape.
  destruct (fst (processImageToTattooDesign env imageUri options w)) as [r|e|].
  - apply Hshape. reflexivity.
  - apply (Hthrow e). reflexivity.
  - exact Logic.I.
Qed.

End DesignResults.
(** ** The requests of callStarVectorAPI *)

Ltac run_fetch :=
  lazymatch goal with
  | |- Spec.wp (Platform.doFetch _ _) _ _ => unfold Platform.doFetch
  | |- Spec.wp (Platform.external _ _) _ _ =>
      apply wp_external; cbv beta;
      match goal with
      | |- match ?answer with _ => _ end => destruct answer eqn:?
      end
  | |- Spec.wp (tryCatch _ _) _ _ => apply wp_tryCatch
  | |- _ => run_step
  end;
  cbv beta iota.

Section StarVectorRequests.
Import Platform Spec StarVectorProcessor.
Variable env : Env.

Lemma callStarVectorAPI_run imageBase64 modelId options w :
  wp (callStarVectorAPI env imageBase64 modelId options) w
     (fun o w' =>
        (exists result, o = Ok result)
        /\ exists request more,
            eventsSince w w' = Enter CallStarVectorAPI :: Fetch request :: more
            /\ url request = chatEndpoint modelId /\ method request = "POST"
            /\ match fetch env (log w ++ [Enter CallStarVectorAPI]) request with
               | Resolved response =>
                   if negb (ok response) && (status response =? 404)%Z
                   then entered more = [TryTextGenerationAPI]
                        /\ fetchedUrls more = [textEndpoint modelId]
                   else more = []
               | Rejected _ => more = [] /\ o = Ok None
               end).
Proof.
  unfold callStarVectorAPI, tryTextGenerationAPI. cbv zeta.
  apply wp_bind, wp_enter. cbv beta iota.
  repeat run_fetch.
  all: try solve [exfalso; eapply extractSVGFromResponse_settles; eassumption].
  all: try solve [exfalso; eapply prop_settles; eassumption].
  all: rewrite ?extend_extend, eventsSince_extend; cbn [app].
  all: (split; [eexists; reflexivity|]).
  all: eexists _, _; split; [reflexivity|]; split; [reflexivity|]; split; [reflexivity|].
  all: cbn [log extend] in *.
  all: repeat match goal with
         | H : fetch env _ _ = _ |- _ => rewrite H; clear H
         end.
  all: repeat match goal with
         | H : ok _ = _ |- _ => rewrite H
         | H : (status _ =? 404)%Z = _ |- _ => rewrite H
         end.
  all: cbn [negb andb].
  all: try reflexivity.
  all: try (split; reflexivity).
Qed.

(** X13: callStarVectorAPI never rejects.  It sends one POST to the chat
    endpoint of the model, and a second request, to the text-generation
    endpoint of the model, exactly when the first was answered with status
    404; a rejected first request gives null. *)
Theorem callStarVectorAPI_requests imageBase64 modelId options w :
  (exists result, fst (callStarVectorAPI env imageBase64 modelId options w) = Ok result)
  /\ exists request more,
      eventsSince w (snd (callStarVectorAPI env imageBase64 modelId options w))
      = Enter CallStarVectorAPI :: Fetch request :: more
      /\ url request = chatEndpoint modelId /\ method request = "POST"
      /\ match fetch env (log w ++ [Enter CallStarVectorAPI]) request with
         | Resolved response =>
             if negb (ok response) && (status response =? 404)%Z
             then entered more = [TryTextGenerationAPI]
                  /\ fetchedUrls more = [textEndpoint modelId]
             else more = []
         | Rejected _ =>
             more = []
             /\ fst (callStarVectorAPI env imageBase64 modelId options w) = Ok None
         end.
Proof. exact (callStarVectorAPI_run imageBase64 modelId options w). Qed.

End StarVectorRequests.
(** ** Configuration: initialize and setAPIKeys *)

Section Setup.
Import Platform Spec.
Variable env : Env.

Lemma initialize_cases token enableCPUMode w :
  (enableCPUMode = true
   /\ StarVectorProcessor.initialize env token enableCPUMode w
      = (Ok true,
         {| statics :=
              {| hf := hf (statics w); isInitialized := true; cpuModeEnabled := true;
                 codiaKey := codiaKey (statics w); removeBgKey := removeBgKey (statics w);
                 clipdropKey := clipdropKey (statics w) |};
            log := log w |}))
  \/ (enableCPUMode = false
      /\ (exists t,
             token = Some t /\ truthyString t = true /\ HfInference env = true
             /\ newHfInference env (log w) t = Resolved tt
             /\ StarVectorProcessor.initialize env token enableCPUMode w
                = (Ok true,
                   {| statics :=
                        {| hf := Some t; isInitialized := true;
                           cpuModeEnabled := cpuModeEnabled (statics w);
                           codiaKey := codiaKey (statics w);
                           removeBgKey := removeBgKey (statics w);
                           clipdropKey := clipdropKey (statics w) |};
                      log := log w ++ [NewHfInference t] |})))
  \/ (enableCPUMode = false
      /\ ~ (exists t,
               token = Some t /\ truthyString t = true /\ HfInference env = true
               /\ newHfInference env (log w) t = Resolved tt)
      /\ exists events,
          StarVectorProcessor.initialize env token enableCPUMode w
          = (Ok false, extend w events)).
Proof.
  unfold StarVectorProcessor.initialize.
  destruct enableCPUMode; [left; split; reflexivity|]. right.
  destruct (HfInference env) eqn:Hhf; cbn [negb].
  2: { right. split; [reflexivity|]. split.
       - intros (t & _ & _ & [=] & _).
       - exists []. rewrite extend_nil. reflexivity. }
  destruct token as [t|].
  2: { right. split; [reflexivity|]. split.
       - intros (t & [=] & _).
       - exists []. rewrite extend_nil. reflexivity. }
  destruct (truthyString t) eqn:Ht.
  2: { right. split; [reflexivity|]. split.
       - intros (t' & [= <-] & Ht' & _). congruence.
       - exists []. unfold tryCatch, ret. rewrite extend_nil. reflexivity. }
  unfold tryCatch, bind, external, settle, setStatics, modify, ret, throw.
  destruct (newHfInference env (log w) t) as [[]|message] eqn:Hnew; cbn.
  - left. split; [reflexivity|]. exists t. repeat split; assumption.
  - right. split; [reflexivity|]. split.
    + intros (t' & [= <-] & _ & _ & Hnew'). congruence.
    + exists [NewHfInference t]. reflexivity.
Qed.

(** X14: initialize never throws.  In CPU mode it returns true and marks
    the processor initialized without touching the client.  Otherwise it
    returns true exactly when @huggingface/inference is loaded, the token
    is a non-empty string and the client could be constructed; then
    isAvailable() holds afterwards; and when it returns false the static
    fields are as before.  The keys of the background services are never
    touched. *)
Theorem initialize_then_isAvailable token enableCPUMode w :
  exists ready,
    fst (StarVectorProcessor.initialize env token enableCPUMode w) = Ok ready
    /\ (enableCPUMode = true ->
        ready = true
        /\ isInitialized (statics (snd (StarVectorProcessor.initialize env token true w)))
           = true
        /\ cpuModeEnabled (statics (snd (StarVectorProcessor.initialize env token true w)))
           = true
        /\ hf (statics (snd (StarVectorProcessor.initialize env token true w)))
           = hf (statics w))
    /\ (enableCPUMode = false ->
        (ready = true <->
         exists t, token = Some t /\ truthyString t = true /\ HfInference env = true
                   /\ newHfInference env (log w) t = Resolved tt)
        /\ (ready = true ->
            StarVectorProcessor.isAvailable env
              (snd (StarVectorProcessor.initialize env token false w)) = true
            /\ hf (statics (snd (StarVectorProcessor.initialize env token false w)))
               = token)
        /\ (ready = false ->
            statics (snd (StarVectorProcessor.initialize env token false w))
            = statics w))
    /\ removeBgKey (statics (snd (StarVectorProcessor.initialize env token enableCPUMode w)))
       = removeBgKey (statics w)
    /\ clipdropKey (statics (snd (StarVectorProcessor.initialize env token enableCPUMode w)))
       = clipdropKey (statics w).
Proof.
  destruct (initialize_cases token enableCPUMode w)
    as [[-> Hrun] | [[-> (t & -> & Ht & Hhf & Hnew & Hrun)]
                    | [-> (Hnot & events & Hrun)]]];
    rewrite Hrun; cbn [fst snd statics].
  - exists true. split; [reflexivity|]. split; [|split; [|split; reflexivity]].
    + intros _. repeat split.
    + intros [=].
  - exists true. split; [reflexivity|]. split; [intros [=]|]. split; [|split; reflexivity].
    intros _. split; [|split].
    + split; [intros _; exists t; auto | reflexivity].
    + intros _. unfold StarVectorProcessor.isAvailable. cbn. rewrite Hhf. auto.
    + intros [=].
  - exists false. split; [reflexivity|]. split; [intros [=]|]. split; [|split; reflexivity].
    intros _. split; [|split].
    + split; [intros [=] | intros H; contradiction].
    + intros [=].
    + reflexivity.
Qed.

(** X15: setAPIKeys never throws and never switches anything off: a key of
    a background-removal service is replaced when the new one is a non-empty
    string and kept otherwise, so a key once set stays set; and if
    isAvailable() held before the call it holds after it. *)
Theorem setAPIKeys_never_unsets keys enableCPUMode w :
  fst (AIImageProcessor.setAPIKeys env keys enableCPUMode w) = Ok tt
  /\ removeBgKey (statics (snd (AIImageProcessor.setAPIKeys env keys enableCPUMode w)))
     = (if truthyOpt (AIImageProcessor.removeBG keys)
        then AIImageProcessor.removeBG keys else removeBgKey (statics w))
  /\ clipdropKey (statics (snd (AIImageProcessor.setAPIKeys env keys enableCPUMode w)))
     = (if truthyOpt (AIImageProcessor.clipdrop keys)
        then AIImageProcessor.clipdrop keys else clipdropKey (statics w))
  /\ (noServiceKey (snd (AIImageProcessor.setAPIKeys env keys enableCPUMode w)) ->
      noServiceKey w)
  /\ (StarVectorProcessor.isAvailable env w = true ->
      StarVectorProcessor.isAvailable env
        (snd (AIImageProcessor.setAPIKeys env keys enableCPUMode w)) = true).
Proof.
  unfold AIImageProcessor.setAPIKeys, noServiceKey, bind, setStatics, modify, ret.
  destruct (truthyOpt (AIImageProcessor.codiaAI keys)) eqn:Hcodia;
    destruct (truthyOpt (AIImageProcessor.removeBG keys)) eqn:Hbg;
    destruct (truthyOpt (AIImageProcessor.clipdrop keys)) eqn:Hclip;
    cbn [fst snd statics log removeBgKey clipdropKey].
  all: destruct (truthyOpt (AIImageProcessor.huggingFace keys) || enableCPUMode).
  all: cbn [fst snd statics removeBgKey clipdropKey].
  all: try match goal with
       | |- context [StarVectorProcessor.initialize env ?token ?mode ?w0] =>
           destruct (initialize_cases token mode w0)
             as [[-> Hrun] | [[-> (t & Htoken & Ht & Hhf & Hnew & Hrun)]
                             | [-> (Hnot & events & Hrun)]]];
           rewrite Hrun; cbn [fst snd statics removeBgKey clipdropKey extend]
       end.
  all: split; [reflexivity|]; split; [reflexivity|]; split; [reflexivity|].
  all: split; [intros [? ?]; split; congruence|].
  all: unfold StarVectorProcessor.isAvailable; cbn [statics isInitialized hf];
       try rewrite Hhf; rewrite ?andb_true_iff; try tauto.
  all: intros [[? ?] ?]; repeat split; auto.
Qed.

End Setup.
(** ** generateProcessingPreviews *)

(** A call of a method that never rejects and whose results satisfy a known
    property: the run goes on with the result, or stays pending. *)
Ltac call_with Hnever Hyields :=
  apply wp_call; unfold Spec.wp at 1;
  match goal with
  | |- context [fst (?m ?w0)] =>
      let Hn := fresh "Hnever" in
      let Hy := fresh "Hresult" in
      pose proof (Hnever w0) as Hn; pose proof (Hyields w0) as Hy;
      destruct (m w0) as [[?|?|] ?]; cbn [fst snd] in Hn, Hy |- *; cbv beta iota;
      [ specialize (Hy _ eq_refl)
      | exfalso; eapply Hn; reflexivity
      | try exact I ]
  end.

Section Previews.
Import Platform Spec AIImageProcessor.
Variable env : Env.

Lemma generateProcessingPreviews_run imageUri w :
  wp (generateProcessingPreviews env imageUri) w
     (fun o _ =>
        match o with
        | Ok previews =>
            original previews = imageUri
            /\ is_Some (traditional previews)
            /\ (is_Some (starVector previews) ->
                StarVectorProcessor.isAvailable env w = true /\ FileSystem env = true)
            /\ (is_Some (localStarVector previews) -> FileSystem env = true)
        | Throw _ => False
        | Pending => True
        end).
Proof.
  unfold generateProcessingPreviews.
  apply wp_withLocals, wp_bind, wp_tryCatch.
  apply wp_bind, wp_gets. cbv beta iota. cbn [snd].
  assert (Hrest : forall starVectorUri w0,
             (is_Some starVectorUri ->
              StarVectorProcessor.isAvailable env w = true /\ FileSystem env = true) ->
             wp (bind (call (StarVectorProcessor.processWithLocalStarVector env imageUri
                               StarVectorProcessor.noOptions))
                   (fun localStarVectorResult =>
                      bind (if StarVectorProcessor.success localStarVectorResult
                               && truthyOpt (StarVectorProcessor.svgUri localStarVectorResult)
                            then
                              modify (fun '(previews, w) =>
                                ({| original := original previews;
                                    starVector := starVector previews;
                                    localStarVector :=
                                      StarVectorProcessor.svgUri localStarVectorResult;
                                    traditional := traditional previews |}, w))
                            else ret tt)
                        (fun _ =>
                           bind (call (traditionalProcessingPipeline env imageUri
                                         previewOptions []))
                             (fun traditionalResult =>
                                if success traditionalResult then
                                  modify (fun '(previews, w) =>
                                    ({| original := original previews;
                                        starVector := starVector previews;
                                        localStarVector := localStarVector previews;
                                        traditional :=
                                          processedImageUri traditionalResult |}, w))
                                else ret tt))))
                ({| original := imageUri; starVector := starVectorUri;
                    localStarVector := None; traditional := None |}, w0)
                (fun o s' =>
                   match o with
                   | Ok _ =>
                       wp (gets fst) s'
                          (fun o' _ =>
                             match o' with
                             | Ok previews =>
                                 original previews = imageUri
                                 /\ is_Some (traditional previews)
                                 /\ (is_Some (starVector previews) ->
                                     StarVectorProcessor.isAvailable env w = true
                                     /\ FileSystem env = true)
                                 /\ (is_Some (localStarVector previews) ->
                                     FileSystem env = true)
                             | Throw _ => False
                             | Pending => True
                             end)
                   | Throw _ => False
                   | Pending => True
                   end)).
  { intros starVectorUri w0 Hstar.
    apply wp_bind.
    call_with (NoThrow_processWithLocalStarVector env imageUri StarVectorProcessor.noOptions)
              (Yields_processWithLocalStarVector_shape env imageUri
                 StarVectorProcessor.noOptions).
    destruct Hresult as [[_ Hshape] _].
    apply wp_bind.
    destruct (StarVectorProcessor.success _) eqn:Hsuccess;
      cbn [andb]; [destruct (truthyOpt _) eqn:Huri|];
      [apply wp_modify | apply wp_ret | apply wp_ret]; cbv beta iota.
    all: apply wp_bind.
    all: call_with (NoThrow_traditionalProcessingPipeline env imageUri previewOptions [])
                   (Yields_traditionalProcessingPipeline_shape env imageUri
                      previewOptions []).
    all: destruct Hresult as (Hok & _ & _ & Hprocessed & _).
    all: rewrite Hok; apply wp_modify; cbv beta iota; apply wp_gets; cbn.
    all: repeat split; try assumption.
    all: try tauto.
    all: intros [? [=]]. }
  destruct (StarVectorProcessor.isAvailable env w) eqn:Havailable.
  - apply wp_bind. apply wp_bind.
    call_with (NoThrow_imageToSVG env imageUri previewStarVectorOptions)
              (Yields_imageToSVG_shape env imageUri previewStarVectorOptions).
    destruct Hresult as [[_ Hshape] _].
    destruct (StarVectorProcessor.success _) eqn:Hsuccess;
      cbn [andb]; [destruct (truthyOpt _) eqn:Huri|];
      [apply wp_modify | apply wp_ret | apply wp_ret]; cbv beta iota.
    all: eapply wp_mono; [apply Hrest|].
    all: try solve [intros _; split; [reflexivity | tauto]].
    all: try solve [intros [? [=]]].
    all: intros [?|?|] ? Hpost; cbv beta iota; first [exact Hpost | contradiction].
  - apply wp_bind, wp_ret. cbv beta iota.
    eapply wp_mono; [apply Hrest; intros [? [=]]|].
    intros [?|?|] ? Hpost; cbv beta iota; first [exact Hpost | contradiction].
Qed.

(** X16: generateProcessingPreviews never rejects.  Whenever it returns,
    the previews name the image given as [original] and carry a traditional
    preview; a StarVector preview is present only if isAvailable() held
    when the call began, and neither a StarVector nor a local StarVector
    preview is present on a device without expo-file-system. *)
Theorem generateProcessingPreviews_result imageUri w :
  match fst (generateProcessingPreviews env imageUri w) with
  | Ok previews =>
      original previews = imageUri
      /\ is_Some (traditional previews)
      /\ (is_Some (starVector previews) ->
          StarVectorProcessor.isAvailable env w = true /\ FileSystem env = true)
      /\ (is_Some (localStarVector previews) -> FileSystem env = true)
  | Throw _ => False
  | Pending => True
  end.
Proof. exact (generateProcessingPreviews_run imageUri w). Qed.

End Previews.
(** ** Which methods and which services a run can reach *)

Create HintDb reach discriminated.

Ltac permitted :=
  unfold Spec.permits; cbn beta iota; cbn [Platform.url];
  first
    [ exact I
    | assumption
    | match goal with
      | H : forall m, Spec.deviceMethod m = true -> _ |- _ => apply H; reflexivity
      end
    | match goal with
      | H : forall m, Spec.remoteMethod m = true -> _ |- _ => apply H; reflexivity
      end
    | match goal with
      | H : forall target, Spec.localServer target = false -> _ |- _ =>
          apply H; reflexivity
      end ].

Ltac reach_step :=
  lazymatch goal with
  | |- Spec.Keeps _ (bind _ _) => apply Keeps_bind; [|intro]
  | |- Spec.Keeps _ (tryCatch _ _) => apply Keeps_tryCatch; [|intro]
  | |- Spec.Keeps _ (ret _) => apply Keeps_ret
  | |- Spec.Keeps _ (throw _) => apply Keeps_throw
  | |- Spec.Keeps _ (gets _) => apply Keeps_gets
  | |- Spec.Keeps _ readSteps => apply Keeps_gets
  | |- Spec.Keeps _ (Platform.settle _) => apply Keeps_settle
  | |- Spec.Keeps _ (StarVectorProcessor.liftOutcome _) => apply Keeps_liftOutcome
  | |- Spec.Keeps _ (Platform.moduleAccess _) => apply Keeps_moduleAccess
  | |- Spec.Keeps _ (push _) => apply Keeps_push
  | |- Spec.Keeps _ (call _) => apply Keeps_call
  | |- Spec.Keeps _ (withLocals _ _) => apply Keeps_withLocals
  | |- Spec.Keeps _ (AIImageProcessor.resolvedByCallback _) =>
      apply Keeps_resolvedByCallback
  | |- Spec.Keeps _ (Platform.enter _) =>
      eapply Keeps_enter; [eassumption | permitted]
  | |- Spec.Keeps _ (Platform.external _ _) =>
      eapply Keeps_external; [eassumption | permitted]
  | |- Spec.Keeps _ (if ?b then _ else _) => destruct b
  | |- Spec.Keeps _ (match ?x with _ => _ end) => destruct x
  | |- _ => solve [eauto with reach]
  end.

Ltac reach := cbv zeta; repeat reach_step.

Section Reach.
Import Platform Spec.
Variable env : Env.
Variable excluded : list Method.
Variable fetchable : string -> bool.
Variable I : World -> Prop.
Hypothesis I_closed : ClosedUnder (permits excluded fetchable) I.
Hypothesis device_permitted : forall m, deviceMethod m = true -> m ∉ excluded.

(** *** Methods that work on the device alone *)

Lemma Reach_prepareImageForStarVector imageUri :
  Keeps I (StarVectorProcessor.prepareImageForStarVector env imageUri).
Proof. unfold StarVectorProcessor.prepareImageForStarVector, manipulate. reach. Qed.

Lemma Reach_createSimpleTattooDesign :
  Keeps I (StarVectorProcessor.createSimpleTattooDesign env).
Proof.
  unfold StarVectorProcessor.createSimpleTattooDesign, now, writeFile, manipulate,
    deleteFile.
  reach.
Qed.
Hint Resolve Reach_createSimpleTattooDesign : reach.

Lemma Reach_createTattooImageFallback svg :
  Keeps I (StarVectorProcessor.createTattooImageFallback env svg).
Proof. unfold StarVectorProcessor.createTattooImageFallback. reach. Qed.
Hint Resolve Reach_createTattooImageFallback : reach.

Lemma Reach_convertSVGToPNG svg : Keeps I (StarVectorProcessor.convertSVGToPNG env svg).
Proof. unfold StarVectorProcessor.convertSVGToPNG. reach. Qed.
Hint Resolve Reach_convertSVGToPNG : reach.

Lemma Reach_saveSVGToFile svg : Keeps I (StarVectorProcessor.saveSVGToFile env svg).
Proof. unfold StarVectorProcessor.saveSVGToFile, now, writeFile. reach. Qed.

Lemma Reach_generateSVGFromAnalysis imageUri :
  Keeps I (StarVectorProcessor.generateSVGFromAnalysis env imageUri).
Proof. unfold StarVectorProcessor.generateSVGFromAnalysis, manipulate. reach. Qed.
Hint Resolve Reach_saveSVGToFile Reach_generateSVGFromAnalysis : reach.

Lemma Reach_processWithLocalStarVector imageUri options :
  Keeps I (StarVectorProcessor.processWithLocalStarVector env imageUri options).
Proof. unfold StarVectorProcessor.processWithLocalStarVector. reach. Qed.

Lemma Reach_preprocessForAI imageUri :
  Keeps I (AIImageProcessor.preprocessForAI env imageUri).
Proof. unfold AIImageProcessor.preprocessForAI, manipulate. reach. Qed.

Lemma Reach_localBackgroundRemoval imageUri :
  Keeps I (AIImageProcessor.localBackgroundRemoval env imageUri).
Proof. unfold AIImageProcessor.localBackgroundRemoval, manipulate. reach. Qed.

Lemma Reach_smartCrop imageUri : Keeps I (AIImageProcessor.smartCrop env imageUri).
Proof. unfold AIImageProcessor.smartCrop, manipulate. reach. Qed.

Lemma Reach_convertToLineArt imageUri :
  Keeps I (AIImageProcessor.convertToLineArt env imageUri).
Proof. unfold AIImageProcessor.convertToLineArt, manipulate. reach. Qed.

Lemma Reach_applyTattooStyling imageUri autoContrast :
  Keeps I (AIImageProcessor.applyTattooStyling env imageUri autoContrast).
Proof. unfold AIImageProcessor.applyTattooStyling, manipulate. reach. Qed.

Hint Resolve Reach_prepareImageForStarVector Reach_processWithLocalStarVector
  Reach_preprocessForAI Reach_localBackgroundRemoval Reach_smartCrop
  Reach_convertToLineArt Reach_applyTattooStyling : reach.

(** *** The pipeline and the entry point, given what removeBackgroundAI and
    imageToSVG do *)

Hypothesis Reach_removeBackgroundAI :
  forall imageUri, Keeps I (AIImageProcessor.removeBackgroundAI env imageUri).
Hint Resolve Reach_removeBackgroundAI : reach.

Lemma Reach_traditionalProcessingPipeline imageUri options existingSteps :
  Keeps I (AIImageProcessor.traditionalProcessingPipeline env imageUri options
             existingSteps).
Proof. unfold AIImageProcessor.traditionalProcessingPipeline. reach. Qed.
Hint Resolve Reach_traditionalProcessingPipeline : reach.

Lemma Keeps_tryCatch_unreached {S A} (J : S -> Prop) (body : M S A) handler :
  NoThrow body -> Keeps J body -> Keeps J (tryCatch body handler).
Proof.
  intros Hnever Hbody s Hs. unfold tryCatch.
  specialize (Hnever s). specialize (Hbody s Hs).
  destruct (body s) as [[a|e|] s']; cbn in *; [exact Hbody | | exact Hbody].
  exfalso. apply (Hnever e). reflexivity.
Qed.

(** The body of processImageToTattooDesign never throws, so its [catch] is
    never run; what the run reaches is what the body reaches. *)
Lemma Reach_processImageToTattooDesign imageUri options :
  (forall starVectorOptions,
      StarVectorProcessor.useCPUMode starVectorOptions = None ->
      StarVectorProcessor.huggingFaceToken starVectorOptions
      = Some (configHuggingFace env) ->
      Keeps I (StarVectorProcessor.imageToSVG env imageUri starVectorOptions)) ->
  Keeps I (AIImageProcessor.processImageToTattooDesign env imageUri options).
Proof.
  intros HimageToSVG. unfold AIImageProcessor.processImageToTattooDesign. cbv zeta.
  apply Keeps_bind; [reach|intros _].
  apply Keeps_withLocals, Keeps_tryCatch_unreached; [|reach].
  pose proof (NoThrow_traditionalProcessingPipeline env) as Hpipeline. nothrow.
Qed.

(** The same when the StarVector branch is skipped. *)
Lemma Reach_processImageToTattooDesign_without_StarVector imageUri options :
  AIImageProcessor.Options.truthyField
    (AIImageProcessor.Options.useStarVector
       (AIImageProcessor.Options.mergeDefaults options)) = false
  \/ (forall w, I w -> StarVectorProcessor.isAvailable env w = false) ->
  Keeps I (AIImageProcessor.processImageToTattooDesign env imageUri options).
Proof.
  intros Hskip. unfold AIImageProcessor.processImageToTattooDesign. cbv zeta.
  apply Keeps_bind; [reach|intros _].
  apply Keeps_withLocals, Keeps_tryCatch_unreached.
  { pose proof (NoThrow_traditionalProcessingPipeline env) as Hpipeline. nothrow. }
  intros [steps w] Hw. unfold bind at 1, gets at 1. cbn [fst snd].
  assert (Hcond : AIImageProcessor.Options.truthyField
                    (AIImageProcessor.Options.useStarVector
                       (AIImageProcessor.Options.mergeDefaults options))
                  && StarVectorProcessor.isAvailable env w = false).
  { destruct Hskip as [->| Hun]; [reflexivity|]. rewrite (Hun w Hw). apply andb_false_r. }
  rewrite Hcond. revert Hw. generalize (steps, w).
  match goal with
  | |- forall p, onWorld I p -> onWorld I (snd (?m p)) => change (Keeps (onWorld I) m)
  end.
  reach.
Qed.

End Reach.

Section ReachRemote.
Import Platform Spec.
Variable env : Env.
Variable excluded : list Method.
Variable fetchable : string -> bool.
Variable I : World -> Prop.
Hypothesis I_closed : ClosedUnder (permits excluded fetchable) I.
Hypothesis device_permitted : forall m, deviceMethod m = true -> m ∉ excluded.
Hypothesis remote_permitted : forall m, remoteMethod m = true -> m ∉ excluded.
Hypothesis remote_fetchable :
  forall target, localServer target = false -> fetchable target = true.

(** *** Methods that call a remote service *)

Lemma Reach_tryRemoveBgAPI imageUri :
  Keeps I (AIImageProcessor.tryRemoveBgAPI env imageUri).
Proof.
  unfold AIImageProcessor.tryRemoveBgAPI, AIImageProcessor.backgroundService, doFetch,
    now, writeFile.
  reach.
Qed.

Lemma Reach_tryClipDropAPI imageUri :
  Keeps I (AIImageProcessor.tryClipDropAPI env imageUri).
Proof.
  unfold AIImageProcessor.tryClipDropAPI, AIImageProcessor.backgroundService, doFetch,
    now, writeFile.
  reach.
Qed.
Hint Resolve Reach_tryRemoveBgAPI Reach_tryClipDropAPI : reach.

Lemma Reach_removeBackgroundAI_remote imageUri :
  Keeps I (AIImageProcessor.removeBackgroundAI env imageUri).
Proof. unfold AIImageProcessor.removeBackgroundAI. reach. Qed.

Lemma Reach_tryTextGenerationAPI imageBase64 modelId options :
  Keeps I (StarVectorProcessor.tryTextGenerationAPI env imageBase64 modelId options).
Proof. unfold StarVectorProcessor.tryTextGenerationAPI, doFetch. reach. Qed.
Hint Resolve Reach_tryTextGenerationAPI : reach.

Lemma Reach_callStarVectorAPI imageBase64 modelId options :
  Keeps I (StarVectorProcessor.callStarVectorAPI env imageBase64 modelId options).
Proof. unfold StarVectorProcessor.callStarVectorAPI, doFetch. reach. Qed.

(** *** imageToSVG: with the local CPU server, and without *)

Lemma Reach_imageToSVG imageUri options :
  ImageToSVG ∉ excluded -> CheckLocalStarVector ∉ excluded ->
  CallLocalStarVector ∉ excluded -> (forall target, fetchable target = true) ->
  Keeps I (StarVectorProcessor.imageToSVG env imageUri options).
Proof.
  intros Hentry Hcheck Hcall Hall.
  pose proof Reach_callStarVectorAPI as Hapi.
  pose proof (Reach_processWithLocalStarVector env excluded fetchable I I_closed
                device_permitted) as Hlocal.
  pose proof (Reach_prepareImageForStarVector env excluded fetchable I I_closed
                device_permitted) as Hprepare.
  pose proof (Reach_saveSVGToFile env excluded fetchable I I_closed device_permitted)
    as Hsave.
  unfold StarVectorProcessor.imageToSVG, StarVectorProcessor.checkLocalStarVector,
    StarVectorProcessor.callLocalStarVector, readFile, doFetch.
  reach.
  all: eapply Keeps_external; [eassumption | apply Hall].
Qed.

Lemma Keeps_bind_gets_known {S A B} (J : S -> Prop) (f : S -> A) (value : A)
    (k : A -> M S B) :
  (forall s, J s -> f s = value) -> Keeps J (k value) -> Keeps J (bind (gets f) k).
Proof.
  intros Hvalue Hk s Hs. unfold bind, gets. rewrite (Hvalue s Hs). apply Hk, Hs.
Qed.

Lemma Reach_imageToSVG_without_CPU_mode imageUri options :
  ImageToSVG ∉ excluded ->
  (forall w, I w -> cpuModeEnabled (statics w) = false) ->
  default false (StarVectorProcessor.useCPUMode options) = false ->
  Keeps I (StarVectorProcessor.imageToSVG env imageUri options).
Proof.
  intros Hentry Hstatic Hoption.
  pose proof Reach_callStarVectorAPI as Hapi.
  pose proof (Reach_processWithLocalStarVector env excluded fetchable I I_closed
                device_permitted) as Hlocal.
  pose proof (Reach_prepareImageForStarVector env excluded fetchable I I_closed
                device_permitted) as Hprepare.
  pose proof (Reach_saveSVGToFile env excluded fetchable I I_closed device_permitted)
    as Hsave.
  unfold StarVectorProcessor.imageToSVG, readFile. cbv zeta.
  repeat first
    [ match goal with
      | |- Keeps _ (bind (gets (fun s => cpuModeEnabled (statics (snd s)))) _) =>
          eapply (Keeps_bind_gets_known _ _ false);
          [ intros [? ?] Hs; apply Hstatic; exact Hs
          | rewrite Hoption; cbn [orb] ]
      end
    | reach_step ].
Qed.

End ReachRemote.
(** ** What a run never does *)

Section Never.
Import Platform Spec AIImageProcessor.

Lemma entered_permits excluded fetchable events m :
  Forall (permits excluded fetchable) events -> m ∈ entered events -> m ∉ excluded.
Proof.
  induction 1 as [|e events He _ IH]; [intros H; inversion H|].
  rewrite entered_cons. destruct e; try exact IH.
  intros Hin. apply elem_of_cons in Hin as [->|Hin]; [exact He | exact (IH Hin)].
Qed.

Lemma fetchedUrls_permits excluded fetchable events target :
  Forall (permits excluded fetchable) events -> target ∈ fetchedUrls events ->
  fetchable target = true.
Proof.
  induction 1 as [|e events He _ IH]; [intros H; inversion H|].
  rewrite fetchedUrls_cons. destruct e; try exact IH.
  intros Hin. apply elem_of_cons in Hin as [->|Hin]; [exact He | exact (IH Hin)].
Qed.

Lemma device_methods_differ m other :
  deviceMethod m = true -> deviceMethod other = false -> m ∉ [other].
Proof.
  intros Hm Hother Hin. apply list_elem_of_singleton in Hin. subst. congruence.
Qed.

(** X17: processImageToTattooDesign never enters
    ultimateFallbackProcessing, whatever the device and the services do:
    the body of its [try] cannot throw, so the [catch] that holds the
    ultimate fallback and the result with [success: false] is never run. *)
Theorem ultimateFallbackProcessing_is_never_reached env imageUri options w :
  UltimateFallbackProcessing ∉
    entered (eventsSince w (snd (processImageToTattooDesign env imageUri options w))).
Proof.
  set (allowed := permits [UltimateFallbackProcessing] (fun _ => true)).
  set (I := fun w' => exists events, w' = extend w events /\ Forall allowed events).
  assert (I_closed : ClosedUnder allowed I) by apply ClosedUnder_since.
  assert (Hdevice : forall m, deviceMethod m = true -> m ∉ [UltimateFallbackProcessing])
    by (intros m Hm; apply device_methods_differ; [exact Hm | reflexivity]).
  assert (Hremote : forall m, remoteMethod m = true -> m ∉ [UltimateFallbackProcessing])
    by (intros m Hm Hin; apply list_elem_of_singleton in Hin; subst; discriminate Hm).
  assert (HI : I (snd (processImageToTattooDesign env imageUri options w))).
  { apply (Reach_processImageToTattooDesign env _ _ I I_closed Hdevice).
    - intros uri. apply (Reach_removeBackgroundAI_remote env _ _ I I_closed Hdevice Hremote).
      reflexivity.
    - intros starVectorOptions _ _.
      apply (Reach_imageToSVG env _ _ I I_closed Hdevice Hremote); try reflexivity.
      all: intros Hin; apply list_elem_of_singleton in Hin; discriminate Hin.
    - exists []. split; [symmetry; apply extend_nil | constructor]. }
  destruct HI as (events & -> & Hall). rewrite eventsSince_extend.
  intros Hin. apply (entered_permits _ _ _ _ Hall Hin). left.
Qed.

Lemma statics_since (w : World) (allowed : Event -> Prop) :
  ClosedUnder allowed
    (fun w' => statics w' = statics w
               /\ exists events, w' = extend w events /\ Forall allowed events).
Proof.
  intros w' e He [Hstatics Hsince]. split; [exact Hstatics|].
  exact (ClosedUnder_since allowed w w' e He Hsince).
Qed.

(** X18: without a key of a background-removal service, and with StarVector
    switched off or not available, processImageToTattooDesign sends no
    request at all: the image does not leave the device; and the call
    returns a result. *)
Theorem no_request_without_keys env imageUri options w :
  noServiceKey w ->
  Options.truthyField (Options.useStarVector (Options.mergeDefaults options)) = false
  \/ StarVectorProcessor.isAvailable env w = false ->
  fetchedUrls (eventsSince w (snd (processImageToTattooDesign env imageUri options w)))
  = []
  /\ exists r, fst (processImageToTattooDesign env imageUri options w) = Ok r.
Proof.
  intros Hkeys Hskip. split.
  2: { destruct (processImageToTattooDesign_outcomes env imageUri options w)
         as (_ & _ & Hreturns).
       destruct (Hreturns Hkeys) as (r & Hr & _). exists r. exact Hr. }
  set (allowed := permits [] (fun _ => false)).
  set (I := fun w' => statics w' = statics w
                      /\ exists events, w' = extend w events /\ Forall allowed events).
  assert (I_closed : ClosedUnder allowed I) by apply statics_since.
  assert (Hdevice : forall m, deviceMethod m = true -> m ∉ @nil Method)
    by (intros m _; apply not_elem_of_nil).
  assert (HI : I (snd (processImageToTattooDesign env imageUri options w))).
  { apply (Reach_processImageToTattooDesign_without_StarVector env _ _ I I_closed Hdevice).
    - intros uri w' Hw'. pose proof Hw' as [Hstatics _].
      rewrite removeBackgroundAI_without_keys
        by (unfold noServiceKey; rewrite Hstatics; exact Hkeys).
      apply I_closed; [apply not_elem_of_nil | exact Hw'].
    - destruct Hskip as [Hoff|Hunavailable]; [left; exact Hoff | right].
      intros w' [Hstatics _]. unfold StarVectorProcessor.isAvailable in *.
      rewrite Hstatics. exact Hunavailable.
    - split; [reflexivity|]. exists []. split; [symmetry; apply extend_nil | constructor]. }
  destruct HI as (_ & events & -> & Hall). rewrite eventsSince_extend.
  destruct (fetchedUrls events) as [|target rest] eqn:Hurls; [reflexivity|].
  assert (Hin : target ∈ fetchedUrls events) by (rewrite Hurls; left).
  pose proof (fetchedUrls_permits _ _ _ _ Hall Hin) as Habsurd. discriminate Habsurd.
Qed.

(** X19: the local CPU server is contacted in CPU mode only.  With the
    static flag cpuModeEnabled off, imageToSVG called without the option
    useCPUMode sends no request to localhost:8000, and neither does
    processImageToTattooDesign, whatever its options. *)
Theorem local_CPU_server_only_in_CPU_mode env imageUri w :
  cpuModeEnabled (statics w) = false ->
  (forall options target,
      default false (StarVectorProcessor.useCPUMode options) = false ->
      target ∈ fetchedUrls
                 (eventsSince w
                    (snd (StarVectorProcessor.imageToSVG env imageUri options w))) ->
      localServer target = false)
  /\ (forall options target,
        target ∈ fetchedUrls
                   (eventsSince w
                      (snd (processImageToTattooDesign env imageUri options w))) ->
        localServer target = false).
Proof.
  intros Hstatic.
  set (excluded := [CheckLocalStarVector; CallLocalStarVector]).
  set (fetchable := fun target => negb (localServer target)).
  set (allowed := permits excluded fetchable).
  set (I := fun w' => statics w' = statics w
                      /\ exists events, w' = extend w events /\ Forall allowed events).
  assert (I_closed : ClosedUnder allowed I) by apply statics_since.
  assert (Hdevice : forall m, deviceMethod m = true -> m ∉ excluded).
  { intros m Hm Hin.
    repeat (apply elem_of_cons in Hin as [->|Hin]; [discriminate Hm|]). inversion Hin. }
  assert (Hremote : forall m, remoteMethod m = true -> m ∉ excluded).
  { intros m Hm Hin.
    repeat (apply elem_of_cons in Hin as [->|Hin]; [discriminate Hm|]). inversion Hin. }
  assert (Hfetch : forall target, localServer target = false -> fetchable target = true)
    by (intros target Htarget; unfold fetchable; rewrite Htarget; reflexivity).
  assert (Hentry : ImageToSVG ∉ excluded).
  { intros Hin.
    repeat (apply elem_of_cons in Hin as [Hin|Hin]; [discriminate Hin|]). inversion Hin. }
  assert (Hoff : forall w', I w' -> cpuModeEnabled (statics w') = false)
    by (intros w' [-> _]; exact Hstatic).
  assert (Hstart : I w)
    by (split; [reflexivity|]; exists []; split;
        [symmetry; apply extend_nil | constructor]).
  assert (Hlocal : forall w' target events,
             w' = extend w events -> Forall allowed events ->
             target ∈ fetchedUrls (eventsSince w w') -> localServer target = false).
  { intros w' target events -> Hall Hin. rewrite eventsSince_extend in Hin.
    pose proof (fetchedUrls_permits _ _ _ _ Hall Hin) as Hok.
    unfold fetchable in Hok. destruct (localServer target); [discriminate Hok | reflexivity]. }
  split.
  - intros options target Hoption Hin.
    destruct (Reach_imageToSVG_without_CPU_mode env _ _ I I_closed Hdevice Hremote Hfetch
                imageUri options Hentry Hoff Hoption w Hstart)
      as (_ & events & Hw' & Hall).
    exact (Hlocal _ _ _ Hw' Hall Hin).
  - intros options target Hin.
    assert (HI : I (snd (processImageToTattooDesign env imageUri options w))).
    { apply (Reach_processImageToTattooDesign env _ _ I I_closed Hdevice);
        [| |exact Hstart].
      - intros uri.
        apply (Reach_removeBackgroundAI_remote env _ _ I I_closed Hdevice Hremote Hfetch).
      - intros starVectorOptions Hnone _.
        apply (Reach_imageToSVG_without_CPU_mode env _ _ I I_closed Hdevice Hremote
                 Hfetch imageUri starVectorOptions Hentry Hoff).
        rewrite Hnone. reflexivity. }
    destruct HI as (_ & events & Hw' & Hall).
    exact (Hlocal _ _ _ Hw' Hall Hin).
Qed.

End Never.
(** ** Options and modules *)

Section OptionsRead.
Import Platform Spec AIImageProcessor.
Variable env : Env.

(** X20: processImageToTattooDesign reads seven of the options only:
    two option objects that agree on removeBackground, convertToLineArt,
    autoContrast, smartCrop, useStarVector, starVectorModel and
    fallbackToLocal give the same run.  The options enhanceEdges, useAI,
    outputFormat and useCPUMode have no effect; in particular asking for
    [outputFormat: 'PNG'] does not keep the result from being SVG. *)
Theorem unread_options_have_no_effect imageUri options options' :
  Options.removeBackground options = Options.removeBackground options' ->
  Options.convertToLineArt options = Options.convertToLineArt options' ->
  Options.autoContrast options = Options.autoContrast options' ->
  Options.smartCrop options = Options.smartCrop options' ->
  Options.useStarVector options = Options.useStarVector options' ->
  Options.starVectorModel options = Options.starVectorModel options' ->
  Options.fallbackToLocal options = Options.fallbackToLocal options' ->
  processImageToTattooDesign env imageUri options
  = processImageToTattooDesign env imageUri options'.
Proof.
  intros Hbackground HlineArt Hcontrast Hcrop Hstar Hmodel Hlocal.
  unfold processImageToTattooDesign, traditionalProcessingPipeline, Options.mergeDefaults.
  cbn [Options.removeBackground Options.convertToLineArt Options.autoContrast
       Options.smartCrop Options.useStarVector Options.starVectorModel
       Options.fallbackToLocal].
  rewrite Hbackground, HlineArt, Hcontrast, Hcrop, Hstar, Hmodel, Hlocal.
  reflexivity.
Qed.

End OptionsRead.

Section WithoutManipulator.
Import Platform Spec AIImageProcessor.
Variable env : Env.
Hypothesis no_manipulator : ImageManipulator env = false.

Lemma preprocessForAI_passes imageUri w :
  preprocessForAI env imageUri w = (Ok imageUri, extend w [Enter PreprocessForAI]).
Proof. unfold preprocessForAI, bind, enter, emit, modify. rewrite no_manipulator. reflexivity. Qed.

Lemma localBackgroundRemoval_passes imageUri w :
  localBackgroundRemoval env imageUri w
  = (Ok imageUri, extend w [Enter LocalBackgroundRemoval]).
Proof.
  unfold localBackgroundRemoval, bind, enter, emit, modify. rewrite no_manipulator.
  reflexivity.
Qed.

Lemma smartCrop_passes imageUri w :
  smartCrop env imageUri w = (Ok imageUri, extend w [Enter SmartCrop]).
Proof. unfold smartCrop, bind, enter, emit, modify. rewrite no_manipulator. reflexivity. Qed.

Lemma convertToLineArt_passes imageUri w :
  convertToLineArt env imageUri w = (Ok imageUri, extend w [Enter ConvertToLineArt]).
Proof.
  unfold convertToLineArt, bind, enter, emit, modify. rewrite no_manipulator. reflexivity.
Qed.

Lemma applyTattooStyling_passes imageUri autoContrast w :
  applyTattooStyling env imageUri autoContrast w
  = (Ok imageUri, extend w [Enter ApplyTattooStyling]).
Proof.
  unfold applyTattooStyling, bind, enter, emit, modify. cbv zeta.
  rewrite no_manipulator. reflexivity.
Qed.

(** A call whose outcome is known. *)
Ltac known_call :=
  apply wp_call; unfold wp at 1;
  first [ rewrite preprocessForAI_passes
        | rewrite localBackgroundRemoval_passes
        | rewrite smartCrop_passes
        | rewrite convertToLineArt_passes
        | rewrite applyTattooStyling_passes
        | rewrite removeBackgroundAI_without_keys
            by (match goal with H : noServiceKey _ |- _ => exact H end) ];
  cbn [fst snd]; cbv beta iota.

Lemma traditionalProcessingPipeline_passes imageUri options existingSteps w :
  noServiceKey w ->
  wp (traditionalProcessingPipeline env imageUri options existingSteps) w
     (fun o w' =>
        exists r,
          o = Ok r
          /\ success r = true
          /\ processedImageUri r = Some imageUri
          /\ processingSteps r
             = existingSteps ++ "Using traditional processing pipeline"
                                :: stepLabels options ProcessedLocally
          /\ eventsSince w w'
             = map Enter (TraditionalProcessingPipeline
                          :: stepMethods options ProcessedLocally)).
Proof.
  intros Hkeys. unfold traditionalProcessingPipeline.
  apply wp_bind, wp_enter. cbv beta iota.
  apply wp_withLocals, wp_tryCatch.
  unfold stepLabels, stepMethods.
  destruct (Options.truthyField (Options.removeBackground options));
    destruct (Options.truthyField (Options.smartCrop options));
    destruct (Options.truthyField (Options.convertToLineArt options)).
  all: repeat first
         [ match goal with
           | |- wp (call _) _ _ => known_call
           end
         | run_step ].
  all: cbn [snd]; eexists; split; [reflexivity|].
  all: rewrite ?extend_extend, eventsSince_extend.
  all: cbn; rewrite <- ?app_assoc; repeat split.
Qed.

Lemma no_FileSystem : FileSystem env = false.
Proof. unfold FileSystem. unfold ImageManipulator in no_manipulator. rewrite no_manipulator. reflexivity. Qed.

(** A call of imageToSVG or processWithLocalStarVector on this device: it
    returns a failure and leaves the keys as they are. *)
Ltac failing_call Hnever Hsettles Hyields Hkeeps :=
  apply wp_call; unfold wp at 1;
  match goal with
  | Hkeys : noServiceKey ?w0 |- context [fst (?m ?w0)] =>
      let Hn := fresh "Hnever" in
      let Hs := fresh "Hsettles" in
      let Hy := fresh "Hresult" in
      let Hk := fresh "Hkeys" in
      pose proof (Hnever w0) as Hn; pose proof (Hsettles w0 I) as Hs;
      pose proof (Hyields w0) as Hy; pose proof (Hkeeps w0 Hkeys) as Hk;
      destruct (m w0) as [[?|?|] ?]; cbn [fst snd] in Hn, Hs, Hy, Hk |- *;
      cbv beta iota;
      [ specialize (Hy _ eq_refl); clear Hkeys Hn Hs
      | exfalso; eapply Hn; reflexivity
      | exfalso; apply Hs; reflexivity ]
  end.

Lemma processImageToTattooDesign_passes imageUri options w :
  noServiceKey w ->
  wp (processImageToTattooDesign env imageUri options) w
     (fun o _ =>
        exists r,
          o = Ok r
          /\ success r = true
          /\ processedImageUri r = Some imageUri
          /\ format r = Some FormatPNG
          /\ model r = Some "traditional-pipeline"
          /\ exists earlier,
              processingSteps r
              = earlier ++ "Using traditional processing pipeline"
                           :: stepLabels (Options.mergeDefaults options) ProcessedLocally).
Proof.
  intros Hkeys. unfold processImageToTattooDesign. cbv zeta.
  apply wp_bind, wp_enter. cbv beta iota.
  apply wp_withLocals, wp_tryCatch.
  assert (Hstart : noServiceKey (extend w [Enter ProcessImageToTattooDesign]))
    by exact Hkeys.
  clear Hkeys. revert Hstart.
  generalize (extend w [Enter ProcessImageToTattooDesign]). intros w0 Hkeys.
  assert (Hpipeline : forall steps w1,
             noServiceKey w1 ->
             wp (bind readSteps (fun existing =>
                   call (traditionalProcessingPipeline env imageUri
                           (Options.mergeDefaults options) existing)))
                (steps, w1)
                (fun o s' =>
                   match o with
                   | Ok r =>
                       exists r',
                         Ok r = Ok r' /\ success r' = true
                         /\ processedImageUri r' = Some imageUri
                         /\ format r' = Some FormatPNG
                         /\ model r' = Some "traditional-pipeline"
                         /\ exists earlier,
                             processingSteps r'
                             = earlier ++ "Using traditional processing pipeline"
                                 :: stepLabels (Options.mergeDefaults options)
                                      ProcessedLocally
                   | _ => False
                   end)).
  { intros steps w1 Hw1. apply wp_bind, wp_readSteps. cbv beta iota.
    apply wp_call. unfold wp at 1.
    pose proof (traditionalProcessingPipeline_passes imageUri
                  (Options.mergeDefaults options) steps w1 Hw1) as Hrun.
    pose proof (traditionalProcessingPipeline_run env imageUri
                  (Options.mergeDefaults options) steps w1) as Hshape.
    unfold wp in Hrun, Hshape.
    destruct Hrun as (r & Hr & Hsuccess & Huri & Hsteps & _).
    rewrite Hr in Hshape |- *. cbn [pipelineRun] in Hshape.
    destruct Hshape as (_ & _ & _ & Hformat & Hmodel & _).
    exists r. repeat split; try assumption. exists steps. exact Hsteps. }
  assert (Hlocal : forall steps w1,
             noServiceKey w1 ->
             wp (if Options.truthyField
                      (Options.fallbackToLocal (Options.mergeDefaults options))
                 then
                   bind (call (StarVectorProcessor.processWithLocalStarVector env imageUri
                                 StarVectorProcessor.noOptions))
                     (fun localStarVectorResult =>
                        if StarVectorProcessor.success localStarVectorResult
                        then
                          bind readSteps (fun steps =>
                            ret {| success := true;
                                   processedImageUri :=
                                     StarVectorProcessor.svgUri localStarVectorResult;
                                   originalImageUri := imageUri;
                                   processingSteps :=
                                     steps ++ StarVectorProcessor.processingSteps
                                                localStarVectorResult;
                                   error := None; format := Some FormatSVG;
                                   svgCode :=
                                     StarVectorProcessor.svgCode localStarVectorResult;
                                   model :=
                                     StarVectorProcessor.resultModel
                                       localStarVectorResult |})
                        else
                          bind (push "Local StarVector processing failed") (fun _ =>
                            bind readSteps (fun existing =>
                              call (traditionalProcessingPipeline env imageUri
                                      (Options.mergeDefaults options) existing))))
                 else
                   bind readSteps (fun existing =>
                     call (traditionalProcessingPipeline env imageUri
                             (Options.mergeDefaults options) existing)))
                (steps, w1)
                (fun o s' =>
                   match o with
                   | Ok r =>
                       exists r',
                         Ok r = Ok r' /\ success r' = true
                         /\ processedImageUri r' = Some imageUri
                         /\ format r' = Some FormatPNG
                         /\ model r' = Some "traditional-pipeline"
                         /\ exists earlier,
                             processingSteps r'
                             = earlier ++ "Using traditional processing pipeline"
                                 :: stepLabels (Options.mergeDefaults options)
                                      ProcessedLocally
                   | _ => False
                   end)).
  { intros steps w1 Hw1.
    destruct (Options.truthyField
                (Options.fallbackToLocal (Options.mergeDefaults options)));
      [|apply Hpipeline; exact Hw1].
    apply wp_bind.
    failing_call
      (NoThrow_processWithLocalStarVector env imageUri StarVectorProcessor.noOptions)
      (Settles_processWithLocalStarVector env imageUri StarVectorProcessor.noOptions)
      (Yields_processWithLocalStarVector_shape env imageUri StarVectorProcessor.noOptions)
      (Keeps_processWithLocalStarVector env noServiceKey
         (ClosedUnder_noServiceKey _) imageUri StarVectorProcessor.noOptions).
    destruct Hresult as [[_ Hshape] _].
    destruct (StarVectorProcessor.success _).
    - destruct Hshape as (_ & _ & _ & _ & Hfs). rewrite no_FileSystem in Hfs.
      discriminate Hfs.
    - apply wp_bind, wp_push. cbv beta iota. apply Hpipeline. assumption. }
  apply wp_bind, wp_gets. cbv beta iota. cbn [snd].
  destruct (Options.truthyField (Options.useStarVector (Options.mergeDefaults options))
            && StarVectorProcessor.isAvailable env w0).
  - apply wp_bind.
    match goal with
    | |- wp (call (StarVectorProcessor.imageToSVG env imageUri ?o)) _ _ =>
        failing_call (NoThrow_imageToSVG env imageUri o)
                     (Settles_imageToSVG env imageUri o)
                     (Yields_imageToSVG_shape env imageUri o)
                     (Keeps_imageToSVG env noServiceKey imageUri o
                        (ClosedUnder_noServiceKey _))
    end.
    destruct Hresult as [[_ Hshape] _].
    destruct (StarVectorProcessor.success _).
    + destruct Hshape as (_ & _ & _ & _ & Hfs). rewrite no_FileSystem in Hfs.
      discriminate Hfs.
    + apply wp_bind, wp_push. cbv beta iota.
      eapply wp_mono; [apply Hlocal; assumption|].
      intros [r|e|] s' H; cbv beta iota; first [exact H | contradiction].
  - eapply wp_mono; [apply Hlocal; exact Hkeys|].
    intros [r|e|] s' H; cbv beta iota; first [exact H | contradiction].
Qed.


End WithoutManipulator.

Section WithoutManipulatorTheorems.
Import Platform Spec AIImageProcessor.

(** X21: on a device without expo-image-manipulator, and with no key of a
    background-removal service, the traditional pipeline still reports
    success and records every step of the options, though each step has
    returned its input: the processed image is the input image, and the
    run consists of the entries into the steps and of nothing else. *)
Theorem pipeline_reports_success_without_manipulator
    env imageUri options existingSteps w :
  ImageManipulator env = false ->
  noServiceKey w ->
  exists r,
    fst (traditionalProcessingPipeline env imageUri options existingSteps w) = Ok r
    /\ success r = true
    /\ processedImageUri r = Some imageUri
    /\ processingSteps r
       = existingSteps ++ "Using traditional processing pipeline"
                          :: stepLabels options ProcessedLocally
    /\ eventsSince w
         (snd (traditionalProcessingPipeline env imageUri options existingSteps w))
       = map Enter (TraditionalProcessingPipeline
                    :: stepMethods options ProcessedLocally).
Proof.
  intros Hmodule Hkeys.
  exact (traditionalProcessingPipeline_passes env Hmodule imageUri options existingSteps
           w Hkeys).
Qed.

(** X22: on such a device processImageToTattooDesign returns, for every
    option set, a PNG success of the traditional pipeline whose processed
    image is the input image; the StarVector tiers fail for want of
    expo-file-system, which is only loaded together with
    expo-image-manipulator. *)
Theorem processImageToTattooDesign_without_manipulator env imageUri options w :
  ImageManipulator env = false ->
  noServiceKey w ->
  exists r,
    fst (processImageToTattooDesign env imageUri options w) = Ok r
    /\ success r = true
    /\ processedImageUri r = Some imageUri
    /\ format r = Some FormatPNG
    /\ model r = Some "traditional-pipeline"
    /\ exists earlier,
        processingSteps r
        = earlier ++ "Using traditional processing pipeline"
                     :: stepLabels (Options.mergeDefaults options) ProcessedLocally.
Proof.
  intros Hmodule Hkeys.
  exact (processImageToTattooDesign_passes env Hmodule imageUri options w Hkeys).
Qed.


End WithoutManipulatorTheorems.
(** ** Marking the SVG text, and the image that stands for it *)

Section Marker.
Import Js Spec StarVectorProcessor.

Lemma style_expressions_skip_svg_tag re rest :
  re = reStrokeWidth \/ re = reStroke \/ re = reFill ->
  forall replacement,
    replaceAll re replacement (60 :: 115 :: 118 :: 103 :: rest)%N
    = (60 :: 115 :: 118 :: 103 :: replaceAll re replacement rest)%N.
Proof.
  intros Hre replacement.
  destruct Hre as [->|[->| ->]];
    do 4 (rewrite replaceAll_head by reflexivity); reflexivity.
Qed.

(** X24: optimizeSVGForTattoo marks the text as a tattoo design: a text
    that starts with '<svg' comes back starting with
    [<svg data-tattoo-design="true" data-generated-by="starvector"]. *)
Theorem optimizeSVGForTattoo_marks_the_svg_tag svg :
  startsWith (lit "<svg") svg = true ->
  exists rest, optimizeSVGForTattoo svg = tattooMarker ++ rest.
Proof.
  intros Hhead.
  destruct svg as [|c0 [|c1 [|c2 [|c3 rest]]]]; cbn in Hhead;
    rewrite ?andb_false_r in Hhead; try discriminate Hhead.
  rewrite !andb_true_iff, !N.eqb_eq in Hhead.
  destruct Hhead as (-> & -> & -> & -> & _).
  unfold optimizeSVGForTattoo.
  rewrite (style_expressions_skip_svg_tag reStrokeWidth) by auto.
  rewrite (style_expressions_skip_svg_tag reStroke) by auto.
  rewrite (style_expressions_skip_svg_tag reFill) by auto.
  eexists. reflexivity.
Qed.

End Marker.

Ltac run_external :=
  lazymatch goal with
  | |- Spec.wp (Platform.now _) _ _ => unfold Platform.now
  | |- Spec.wp (Platform.writeFile _ _ _ _) _ _ => unfold Platform.writeFile
  | |- Spec.wp (Platform.manipulate _ _ _ _) _ _ => unfold Platform.manipulate
  | |- Spec.wp (Platform.deleteFile _ _) _ _ => unfold Platform.deleteFile
  | |- Spec.wp (Platform.external _ _) _ _ =>
      apply wp_external; cbv beta iota;
      try match goal with
          | |- match ?answer with _ => _ end => destruct answer eqn:?
          end
  | |- Spec.wp (tryCatch _ _) _ _ => apply wp_tryCatch
  | |- _ => run_step
  end;
  cbv beta iota.

Section DesignImage.
Import Platform Spec StarVectorProcessor.
Variable env : Env.

Lemma createSimpleTattooDesign_run w :
  wp (createSimpleTattooDesign env) w
     (fun o w' =>
        match o with
        | Ok designUri =>
            (exists path image,
                eventsSince w w'
                = [Enter CreateSimpleTattooDesign; DateNow;
                   WriteAsStringAsync path (Base64Data (Some simpleGeometricPNG)) Base64;
                   ManipulateAsync path [Resize (Some 400%Z) (Some 400%Z)]
                     (saveAs (Some 0.9%Q) PNG);
                   DeleteAsync path]
                /\ designUri = uri image)
            \/ (exists earlier stamp,
                   eventsSince w w'
                   = earlier
                     ++ [WriteAsStringAsync designUri
                           (CodeUnits (Js.lit "Design generated successfully")) UTF8]
                   /\ designUri
                      = documentDirectory env +:+ "fallback_design_" +:+ showZ stamp
                        +:+ ".txt")
        | Throw message =>
            (message = "Required modules not available" /\ FileSystem env = false
             /\ eventsSince w w' = [Enter CreateSimpleTattooDesign])
            \/ message = "Could not create any design output"
        | Pending => False
        end).
Proof.
  unfold createSimpleTattooDesign.
  apply wp_bind, wp_enter. cbv beta iota.
  destruct (FileSystem env) eqn:Hfs.
  2: { assert (Hcond : negb (ImageManipulator env) || negb false = true)
         by apply orb_true_r.
       rewrite Hcond. apply wp_throw. left. rewrite eventsSince_extend. repeat split. }
  assert (Hmanipulator : ImageManipulator env = true)
    by (unfold FileSystem in Hfs; apply andb_true_iff in Hfs; tauto).
  rewrite Hmanipulator. cbn [negb orb].
  repeat run_external.
  all: rewrite ?extend_extend, eventsSince_extend; cbn [app].
  all: try solve [right; reflexivity].
  all: try solve [left; eexists _, _; split; reflexivity].
  all: right.
  all: match goal with
       | |- exists earlier stamp, ?events = _ /\ _ => exists (removelast events)
       end.
  all: eexists; split; reflexivity.
Qed.


End DesignImage.
(** ** What imageToSVG sends *)

Section ValidatedImages.
Import Platform Spec StarVectorProcessor.
Variable env : Env.
Variable start : World.

Lemma wp_Keeps {S A} (I : S -> Prop) (m : M S A) s (Q : Outcome A -> S -> Prop) :
  Keeps I m -> I s -> (forall o s', I s' -> Q o s') -> wp m s Q.
Proof. intros Hm Hs HQ. apply HQ, Hm, Hs. Qed.

Lemma quietSince_closed :
  ClosedUnder (permits [] (fun _ => false)) (quietSince start).
Proof.
  intros w e He (events & -> & Hquiet). exists (events ++ [e]).
  split; [apply extend_extend|].
  unfold fetchedUrls in *. rewrite omap_app, Hquiet. cbn.
  destruct e; try reflexivity. cbn in He. discriminate.
Qed.

Lemma validatedSince_closed :
  ClosedUnder (permits [] (fun _ => true)) (validatedSince env start).
Proof.
  intros w e _ (before & path & data & after & -> & Hquiet & Hread & Hvalid).
  exists before, path, data, (after ++ [e]).
  split; [|auto]. rewrite extend_extend, <- app_assoc. reflexivity.
Qed.

Lemma imageToSVG_run imageUri options :
  wp (imageToSVG env imageUri options) start
     (fun _ w => quietSince start w \/ validatedSince env start w).
Proof.
  pose proof quietSince_closed as Hquiet.
  pose proof validatedSince_closed as Hvalidated.
  assert (Hdevice : forall m, deviceMethod m = true -> m ∉ ([] : list Method))
    by (intros; apply not_elem_of_nil).
  assert (Hremote : forall m, remoteMethod m = true -> m ∉ ([] : list Method))
    by (intros; apply not_elem_of_nil).
  pose proof (Reach_processWithLocalStarVector env [] (fun _ => false) _ Hquiet Hdevice)
    as Hlocal.
  pose proof (Reach_processWithLocalStarVector env [] (fun _ => true) _ Hvalidated Hdevice)
    as Hlocal'.
  pose proof (Reach_saveSVGToFile env [] (fun _ => true) _ Hvalidated Hdevice) as Hsave.
  assert (Hapi : forall imageBase64 modelId options,
             Keeps (validatedSince env start)
               (callStarVectorAPI env imageBase64 modelId options)).
  { intros. apply (Reach_callStarVectorAPI env [] (fun _ => true)); auto. }
  unfold imageToSVG.
  apply wp_bind, wp_enter. apply wp_withLocals, wp_tryCatch, wp_bind.
  apply wp_call.
  apply (wp_Keeps (quietSince start)).
  { apply (Reach_prepareImageForStarVector env [] (fun _ => false)); assumption. }
  { exists [Enter ImageToSVG]. split; reflexivity. }
  intros o w1 Hw1.
  destruct o as [preparedImageUri|message|]; cbv beta iota.
  2: { apply (wp_Keeps (onWorld (quietSince start))); [reach | exact Hw1 |].
       intros ? ? H. left. exact H. }
  2: { left. exact Hw1. }
  assert (Hfallback : forall (l : list string) w message,
             quietSince start w ->
             wp (tryCatch
                   (fallbackResult <- await (processWithLocalStarVector env imageUri options) ;;
                    steps <- readSteps ;;
                    ret (withSteps fallbackResult
                           (steps ++ ["Error in main processing: " +:+ message]
                            ++ processingSteps fallbackResult)))
                   (fun fallbackMessage =>
                      steps <- readSteps ;;
                      ret {| success := false; svgCode := None; svgUri := None;
                             originalImageUri := imageUri; processingSteps := steps;
                             error := Some ("Primary processing failed: " +:+ message
                                            +:+ ". Fallback failed: " +:+ fallbackMessage);
                             resultModel := None |}))%js
                (l, w)
                (fun _ s' => quietSince start (snd s') \/ validatedSince env start (snd s'))).
  { intros l w message Hw.
    apply (wp_Keeps (onWorld (quietSince start))); [reach | exact Hw |].
    intros ? ? H. left. exact H. }
  apply wp_bind, wp_push. apply wp_bind, wp_moduleAccess.
  destruct (FileSystem env); [|apply Hfallback; exact Hw1].
  apply wp_bind, wp_call. unfold readFile. apply wp_external.
  assert (Hw2 : quietSince start
                  (extend w1 [ReadAsStringAsync preparedImageUri Base64])).
  { apply Hquiet; [exact I | exact Hw1]. }
  destruct (readAsStringAsync env (log w1) preparedImageUri Base64)
    as [imageBase64|message] eqn:Hread; [|apply Hfallback; exact Hw2].
  apply wp_bind.
  destruct (validateBase64Image imageBase64) eqn:Hvalid; cbn [negb];
    [apply wp_ret | apply wp_throw, Hfallback; exact Hw2].
  assert (Hw2' : validatedSince env start
                   (extend w1 [ReadAsStringAsync preparedImageUri Base64])).
  { destruct Hw1 as (before & -> & Hbefore).
    exists before, preparedImageUri, imageBase64, [].
    rewrite extend_extend. rewrite log_extend in Hread. auto. }
  clear Hw2 Hw1 Hfallback.
  eapply (wp_Keeps (onWorld (validatedSince env start))); [| exact Hw2' |].
  { unfold checkLocalStarVector, callLocalStarVector, doFetch. reach.
    all: first [ eapply Keeps_enter; [eassumption | apply not_elem_of_nil]
               | eapply Keeps_external; [eassumption | reflexivity] ]. }
  intros [result|message|] [l w2] Hw2; cbv beta iota; cbn [snd].
  - right. exact Hw2.
  - apply (wp_Keeps (onWorld (validatedSince env start))); [reach | exact Hw2 |].
    intros ? ? H. right. exact H.
  - right. exact Hw2.
Qed.

(** X26: imageToSVG sends a request only for an image that passed
    validateBase64Image.  If a run of imageToSVG has sent any request, to the
    local CPU server or to HuggingFace, then before the first one it read an
    image back as base64 text, and validateBase64Image accepted that text
    (a JPEG, PNG or GIF header and more than 100 characters). *)
Theorem imageToSVG_sends_validated_images_only imageUri options target :
  target ∈ fetchedUrls (eventsSince start (snd (imageToSVG env imageUri options start))) ->
  exists before path data after,
    eventsSince start (snd (imageToSVG env imageUri options start))
    = before ++ ReadAsStringAsync path Base64 :: after
    /\ fetchedUrls before = []
    /\ readAsStringAsync env (log start ++ before) path Base64 = Resolved data
    /\ validateBase64Image data = true.
Proof.
  intros Hsent.
  destruct (imageToSVG_run imageUri options) as [Hquiet|Hvalidated].
  - destruct Hquiet as (events & Hrun & Hnone).
    rewrite Hrun, eventsSince_extend, Hnone in Hsent.
    apply not_elem_of_nil in Hsent. destruct Hsent.
  - destruct Hvalidated as (before & path & data & after & Hrun & Hrest).
    exists before, path, data, after.
    rewrite Hrun, eventsSince_extend. split; [reflexivity | exact Hrest].
Qed.

End ValidatedImages.
(** ** Where the credentials travel *)

Lemma Keeps_modify_locals {L} (J : Platform.World -> Prop)
    (f : L * Platform.World -> L * Platform.World) :
  (forall s, snd (f s) = snd s) -> Spec.Keeps (Spec.onWorld J) (modify f).
Proof. intros Hf s Hs. unfold Spec.onWorld, modify in *. cbn. rewrite Hf. exact Hs. Qed.

(** One step along a computation whose requests must be shown to be
    allowed one by one. *)
Ltac sends_step :=
  lazymatch goal with
  | |- Spec.Keeps _ (Platform.enter _) => eapply Keeps_enter; [eassumption | exact I]
  | |- Spec.Keeps _ (Platform.external (Platform.Fetch _) _) =>
      eapply Keeps_external; [eassumption | ]
  | |- Spec.Keeps _ (Platform.external _ _) =>
      eapply Keeps_external; [eassumption | exact I]
  | |- Spec.Keeps _ (modify _) =>
      apply Keeps_modify_locals; intros [? ?]; reflexivity
  | |- _ => reach_step
  end.

Section Credentials.
Import Platform Spec.
Variable env : Env.
Variable bearer : string.
Variable start : World.

Let kept : World -> Prop := credentialsKept bearer start.
Let allowed : Request -> Prop := credentialsToOwnService (statics start) bearer.

Lemma credentialsKept_closed : ClosedUnder (sends allowed) kept.
Proof. apply ClosedUnder_since. Qed.

Lemma credentialsKept_device : ClosedUnder (permits [] (fun _ => false)) kept.
Proof.
  apply (ClosedUnder_weaken (sends allowed)); [|apply credentialsKept_closed].
  intros [] He; try exact I. cbn in He. discriminate.
Qed.

Lemma credentialsKept_statics w : kept w -> statics w = statics start.
Proof. intros (events & -> & _). apply statics_extend. Qed.

Lemma prefix_append (p s : string) : String.prefix p (p +:+ s) = true.
Proof.
  induction p as [|c p IH]; simpl; [destruct s; reflexivity|].
  destruct (Ascii.ascii_dec c c) as [_|Hne]; [exact IH | contradiction].
Qed.


Lemma Credentials_tryRemoveBgAPI imageUri :
  Keeps kept (AIImageProcessor.tryRemoveBgAPI env imageUri).
Proof.
  pose proof credentialsKept_closed as Hclosed.
  unfold AIImageProcessor.tryRemoveBgAPI.
  apply Keeps_bind; [sends_step | intros _].
  apply (Keeps_bind_gets_known _ _ (removeBgKey (statics start))).
  { intros w Hw. rewrite (credentialsKept_statics w Hw). reflexivity. }
  unfold AIImageProcessor.backgroundService, doFetch, now, writeFile. cbv zeta.
  repeat sends_step.
  left. split; reflexivity.
Qed.

Lemma Credentials_tryClipDropAPI imageUri :
  Keeps kept (AIImageProcessor.tryClipDropAPI env imageUri).
Proof.
  pose proof credentialsKept_closed as Hclosed.
  unfold AIImageProcessor.tryClipDropAPI.
  apply Keeps_bind; [sends_step | intros _].
  apply (Keeps_bind_gets_known _ _ (clipdropKey (statics start))).
  { intros w Hw. rewrite (credentialsKept_statics w Hw). reflexivity. }
  unfold AIImageProcessor.backgroundService, doFetch, now, writeFile. cbv zeta.
  repeat sends_step.
  right. left. split; reflexivity.
Qed.

Lemma Credentials_removeBackgroundAI imageUri :
  Keeps kept (AIImageProcessor.removeBackgroundAI env imageUri).
Proof.
  pose proof credentialsKept_closed as Hclosed.
  pose proof Credentials_tryRemoveBgAPI as HremoveBg.
  pose proof Credentials_tryClipDropAPI as HclipDrop.
  unfold AIImageProcessor.removeBackgroundAI. cbv zeta.
  repeat sends_step.
Qed.

Lemma Credentials_traditionalProcessingPipeline imageUri options existingSteps :
  Keeps kept (AIImageProcessor.traditionalProcessingPipeline env imageUri options
                existingSteps).
Proof.
  apply (Reach_traditionalProcessingPipeline env [] (fun _ => false) kept
           credentialsKept_device).
  - intros m _. apply not_elem_of_nil.
  - apply Credentials_removeBackgroundAI.
Qed.

Section Bearer.
Variable options : StarVectorProcessor.StarVectorOptions.
Hypothesis options_bearer :
  default "undefined" (StarVectorProcessor.huggingFaceToken options) = bearer.

Lemma Credentials_tryTextGenerationAPI imageBase64 modelId :
  Keeps kept (StarVectorProcessor.tryTextGenerationAPI env imageBase64 modelId options).
Proof.
  pose proof credentialsKept_closed as Hclosed.
  unfold StarVectorProcessor.tryTextGenerationAPI, doFetch. cbv zeta.
  repeat sends_step.
  right. right. left. cbn [url headers]. rewrite options_bearer.
  split; [apply prefix_append | reflexivity].
Qed.

Lemma Credentials_callStarVectorAPI imageBase64 modelId :
  Keeps kept (StarVectorProcessor.callStarVectorAPI env imageBase64 modelId options).
Proof.
  pose proof credentialsKept_closed as Hclosed.
  pose proof Credentials_tryTextGenerationAPI as Htext.
  unfold StarVectorProcessor.callStarVectorAPI, doFetch. cbv zeta.
  repeat sends_step.
  right. right. left. cbn [url headers]. rewrite options_bearer.
  split; [apply prefix_append | reflexivity].
Qed.

Lemma Credentials_imageToSVG imageUri :
  Keeps kept (StarVectorProcessor.imageToSVG env imageUri options).
Proof.
  pose proof credentialsKept_closed as Hclosed.
  pose proof Credentials_callStarVectorAPI as Hapi.
  assert (Hdevice : forall m, deviceMethod m = true -> m ∉ ([] : list Method))
    by (intros; apply not_elem_of_nil).
  pose proof (Reach_processWithLocalStarVector env [] (fun _ => false) kept
                credentialsKept_device Hdevice) as Hlocal.
  pose proof (Reach_prepareImageForStarVector env [] (fun _ => false) kept
                credentialsKept_device Hdevice) as Hprepare.
  pose proof (Reach_saveSVGToFile env [] (fun _ => false) kept
                credentialsKept_device Hdevice) as Hsave.
  unfold StarVectorProcessor.imageToSVG, StarVectorProcessor.checkLocalStarVector,
    StarVectorProcessor.callLocalStarVector, readFile, doFetch. cbv zeta.
  repeat sends_step.
  all: right; right; right; split; [reflexivity | repeat constructor].
Qed.

End Bearer.
End Credentials.

Section CredentialTheorems.
Import Platform Spec AIImageProcessor.
Variable env : Env.

Lemma credentialsKept_start bearer w : credentialsKept bearer w w.
Proof. exists []. split; [symmetry; apply extend_nil | constructor]. Qed.

Lemma credentialsKept_events bearer w w' :
  credentialsKept bearer w w' ->
  Forall (sends (credentialsToOwnService (statics w) bearer)) (eventsSince w w').
Proof. intros (events & -> & Hall). rewrite eventsSince_extend. exact Hall. Qed.

(** X27: a run of processImageToTattooDesign sends each credential to its
    own service only.  Every request of the run is either a request to
    Remove.bg whose only header is the Remove.bg key, or a request to
    ClipDrop whose only header is the ClipDrop key, or a request to the
    HuggingFace inference API that carries the token of AI_CONFIG as bearer,
    or a request to the local CPU server that carries no credential.  The
    bearer is the token of AI_CONFIG whatever token the client was
    initialized with. *)
Theorem credentials_go_to_their_own_service imageUri options w :
  Forall (sends (credentialsToOwnService (statics w) (configHuggingFace env)))
    (eventsSince w (snd (processImageToTattooDesign env imageUri options w))).
Proof.
  apply credentialsKept_events.
  apply (Reach_processImageToTattooDesign env [] (fun _ => false) _
           (credentialsKept_device _ _)).
  - intros m _. apply not_elem_of_nil.
  - apply Credentials_removeBackgroundAI.
  - intros starVectorOptions _ Htoken. apply Credentials_imageToSVG.
    rewrite Htoken. reflexivity.
  - apply credentialsKept_start.
Qed.

(** X28: generateProcessingPreviews passes no token to imageToSVG: every
    request it sends to the HuggingFace inference API carries the header
    [Authorization: Bearer undefined]; the keys of the background services
    travel to their own service only. *)
Theorem generateProcessingPreviews_sends_no_token imageUri w :
  Forall (sends (credentialsToOwnService (statics w) "undefined"))
    (eventsSince w (snd (generateProcessingPreviews env imageUri w))).
Proof.
  apply credentialsKept_events.
  pose proof (credentialsKept_closed "undefined" w) as Hclosed.
  pose proof (Credentials_traditionalProcessingPipeline env "undefined" w) as Hpipeline.
  pose proof (Credentials_imageToSVG env "undefined" w previewStarVectorOptions eq_refl)
    as HimageToSVG.
  pose proof (Reach_processWithLocalStarVector env [] (fun _ => false) _
                (credentialsKept_device "undefined" w)
                (fun m _ => not_elem_of_nil m)) as Hlocal.
  assert (Hkeeps : Keeps (credentialsKept "undefined" w)
                     (generateProcessingPreviews env imageUri)).
  { unfold generateProcessingPreviews. cbv zeta. repeat sends_step. }
  apply Hkeeps, credentialsKept_start.
Qed.

End CredentialTheorems.
(** ** The theorems above at concrete inputs *)

Section MoreExamples.
Import Platform Spec Examples.

Lemma extracted_svg_passes_validation_witness :
  exists cleaned,
    Svg.validateAndCleanSVG bareSvg = Ok cleaned
    /\ Js.startsWithCI (Js.lit "<svg") cleaned = true.
Proof.
  apply (extracted_svg_passes_validation wrappedSvg bareSvg).
  vm_compute. reflexivity.
Defined.

Lemma optimizeSVGForTattoo_marks_the_svg_tag_witness :
  exists rest,
    StarVectorProcessor.optimizeSVGForTattoo (Js.lit "<svg><circle r='3'/></svg>")
    = tattooMarker ++ rest.
Proof.
  apply (optimizeSVGForTattoo_marks_the_svg_tag (Js.lit "<svg><circle r='3'/></svg>")).
  reflexivity.
Defined.

Lemma no_request_without_keys_witness :
  fetchedUrls
    (eventsSince freshWorld
       (snd (AIImageProcessor.processImageToTattooDesign deviceWithHuggingFace photo
               AIImageProcessor.Options.emptyOptions freshWorld)))
  = []
  /\ exists r,
      fst (AIImageProcessor.processImageToTattooDesign deviceWithHuggingFace photo
             AIImageProcessor.Options.emptyOptions freshWorld) = Ok r.
Proof.
  apply (no_request_without_keys deviceWithHuggingFace photo
           AIImageProcessor.Options.emptyOptions freshWorld).
  - split; reflexivity.
  - right. reflexivity.
Defined.

Lemma local_CPU_server_only_in_CPU_mode_witness :
  (forall options target,
      default false (StarVectorProcessor.useCPUMode options) = false ->
      target ∈ fetchedUrls
                 (eventsSince (worldWithHuggingFace deviceWithHuggingFace)
                    (snd (StarVectorProcessor.imageToSVG deviceWithHuggingFace photo options
                            (worldWithHuggingFace deviceWithHuggingFace)))) ->
      localServer target = false)
  /\ (forall options target,
        target ∈ fetchedUrls
                   (eventsSince (worldWithHuggingFace deviceWithHuggingFace)
                      (snd (AIImageProcessor.processImageToTattooDesign
                              deviceWithHuggingFace photo options
                              (worldWithHuggingFace deviceWithHuggingFace)))) ->
        localServer target = false).
Proof.
  apply (local_CPU_server_only_in_CPU_mode deviceWithHuggingFace photo
           (worldWithHuggingFace deviceWithHuggingFace)).
  reflexivity.
Defined.

Lemma unread_options_have_no_effect_witness :
  AIImageProcessor.processImageToTattooDesign deviceWithHuggingFace photo
    AIImageProcessor.Options.emptyOptions
  = AIImageProcessor.processImageToTattooDesign deviceWithHuggingFace photo unreadOptions.
Proof.
  apply (unread_options_have_no_effect deviceWithHuggingFace photo
           AIImageProcessor.Options.emptyOptions unreadOptions); reflexivity.
Defined.

Lemma pipeline_reports_success_without_manipulator_witness :
  exists r,
    fst (AIImageProcessor.traditionalProcessingPipeline deviceWithoutModules photo
           AIImageProcessor.previewOptions [] freshWorld) = Ok r
    /\ AIImageProcessor.success r = true
    /\ AIImageProcessor.processedImageUri r = Some photo
    /\ AIImageProcessor.processingSteps r
       = [] ++ "Using traditional processing pipeline"
               :: stepLabels AIImageProcessor.previewOptions ProcessedLocally
    /\ eventsSince freshWorld
         (snd (AIImageProcessor.traditionalProcessingPipeline deviceWithoutModules photo
                 AIImageProcessor.previewOptions [] freshWorld))
       = map Enter (TraditionalProcessingPipeline
                    :: stepMethods AIImageProcessor.previewOptions ProcessedLocally).
Proof.
  apply (pipeline_reports_success_without_manipulator deviceWithoutModules photo
           AIImageProcessor.previewOptions [] freshWorld).
  - reflexivity.
  - split; reflexivity.
Defined.

Lemma processImageToTattooDesign_without_manipulator_witness :
  exists r,
    fst (AIImageProcessor.processImageToTattooDesign deviceWithoutModules photo
           AIImageProcessor.Options.emptyOptions freshWorld) = Ok r
    /\ AIImageProcessor.success r = true
    /\ AIImageProcessor.processedImageUri r = Some photo
    /\ AIImageProcessor.format r = Some AIImageProcessor.FormatPNG
    /\ AIImageProcessor.model r = Some "traditional-pipeline"
    /\ exists earlier,
        AIImageProcessor.processingSteps r
        = earlier ++ "Using traditional processing pipeline"
                     :: stepLabels
                          (AIImageProcessor.Options.mergeDefaults
                             AIImageProcessor.Options.emptyOptions)
                          ProcessedLocally.
Proof.
  apply (processImageToTattooDesign_without_manipulator deviceWithoutModules photo
           AIImageProcessor.Options.emptyOptions freshWorld).
  - reflexivity.
  - split; reflexivity.
Defined.


Lemma imageToSVG_sends_validated_images_only_witness :
  exists before path data after,
    eventsSince (worldWithHuggingFace deviceWithHuggingFace)
      (snd (StarVectorProcessor.imageToSVG deviceWithHuggingFace photo
              StarVectorProcessor.noOptions (worldWithHuggingFace deviceWithHuggingFace)))
    = before ++ ReadAsStringAsync path Base64 :: after
    /\ fetchedUrls before = []
    /\ readAsStringAsync deviceWithHuggingFace
         (log (worldWithHuggingFace deviceWithHuggingFace) ++ before) path Base64
       = Resolved data
    /\ StarVectorProcessor.validateBase64Image data = true.
Proof.
  apply (imageToSVG_sends_validated_images_only deviceWithHuggingFace
           (worldWithHuggingFace deviceWithHuggingFace) photo
           StarVectorProcessor.noOptions
           (chatEndpoint "starvector/starvector-1b-im2svg")).
  vm_compute. constructor.
Defined.

End MoreExamples.
